(** * BWIC-backend: the recommendation pipeline

    A shallow embedding of [src/utils/recommendation.ts] (hard filters and
    weighted scoring) and of the request handler in
    [src/controller/recommendation.controller.ts], with the properties the
    specification states about them.

    Numbers.  A TypeScript [number] is modelled as a real number: arithmetic
    is exact and every number is finite.  NaN occurs only where the handler
    parses its input, as the [None] of an optional number, and the code turns
    it into [undefined] there.  [Math.sin], [Math.cos], [Math.sqrt] and
    [Math.PI] are the real functions and constant; [Math.atan2] is defined
    from [atan] by the usual quadrant analysis and proved to be the polar
    angle; [Math.round] is [floor (x + 1/2)].  An optional or nullable field
    is an [option]: the source treats [null] and [undefined] alike wherever
    both can occur.

    Doubles.  The real numbers idealise the doubles of the source: they
    have no rounding, no NaN and no infinity.  Where those decide what the
    code returns, the scoring stage is embedded a second time, in module
    [Binary64], on the kernel's binary64 floats; [Math.sin], [Math.cos] and
    [Math.atan2], which ECMAScript leaves implementation-approximated, are
    parameters there, and the algorithms of fdlibm are transcribed to run
    the examples.

    Effects.  The handler calls the geocoding service and the catalog; it is
    written in a small monad that records these calls in a trace, with the
    answers of the outside world as parameters.

    The file also embeds the admin token of [src/utils/admin-auth.ts] with
    its middleware and routes, the numeric validation and [create] of the
    property controller, and the location autocomplete; there the library
    calls (base64, HMAC, JSON, the clock, the database and the Places
    service) are parameters, and an error thrown is the [inl] of a sum.

    Strings.  A string is a [string] of 8-bit characters; [toLowerCase]
    lowers the letters A-Z, and [includes] is substring search.  A test
    [s && ...] on an optional string holds for a present, non-empty string;
    it is written as a match on [Some (String _ _)]. *)

From Stdlib Require Import Reals Lra Lia ZArith List String Ascii Bool.
From Stdlib Require Import Sorting.Sorted Sorting.Permutation.
From Stdlib Require Floats.
Import ListNotations.

Open Scope R_scope.

(** ** JavaScript built-ins used by the code *)

Module JS.

(** [a < b], [a <= b], [a > b], [a >= b], [a === b] on numbers. *)
Definition lt (a b : R) : bool := if Rlt_dec a b then true else false.
Definition le (a b : R) : bool := if Rle_dec a b then true else false.
Definition gt (a b : R) : bool := lt b a.
Definition ge (a b : R) : bool := le b a.
Definition eq (a b : R) : bool := if Req_dec_T a b then true else false.

(** [Math.round]: the nearest integer, halves going up. *)
Definition Math_round (x : R) : R := IZR (Zfloor (x + / 2)).
Definition Math_max (a b : R) : R := Rmax a b.
Definition Math_abs (x : R) : R := Rabs x.
Definition Math_sqrt (x : R) : R := sqrt x.
Definition Math_sin (x : R) : R := sin x.
Definition Math_cos (x : R) : R := cos x.
Definition Math_PI : R := PI.

(** [Math.atan2 y x]: the angle of the point [(x, y)], in (-PI, PI]. *)
Definition Math_atan2 (y x : R) : R :=
  if lt 0 x then atan (y / x)
  else if lt x 0 then (if le 0 y then atan (y / x) + PI else atan (y / x) - PI)
  else if lt 0 y then PI / 2
  else if lt y 0 then - (PI / 2)
  else 0.

(** [Math.trunc]: the integer part, towards zero. *)
Definition Math_trunc (x : R) : Z := if le 0 x then Zfloor x else Zceil x.
Definition Math_ceil (x : R) : Z := Zceil x.

(** [String.prototype.toLowerCase] on the letters A-Z. *)
Definition lower_ascii (c : ascii) : ascii :=
  let n := nat_of_ascii c in
  if ((65 <=? n) && (n <=? 90))%nat then ascii_of_nat (n + 32) else c.

Fixpoint toLowerCase (s : string) : string :=
  match s with
  | EmptyString => EmptyString
  | String c rest => String (lower_ascii c) (toLowerCase rest)
  end.

(** [s.includes(sub)]: [sub] occurs in [s] as a contiguous substring. *)
Fixpoint includes (s sub : string) : bool :=
  prefix sub s ||
  match s with
  | EmptyString => false
  | String _ rest => includes rest sub
  end.

(** White space removed by [trim]: space, tab, LF, VT, FF, CR. *)
Definition is_space (c : ascii) : bool :=
  let n := nat_of_ascii c in
  ((n =? 32) || ((9 <=? n) && (n <=? 13)))%nat.

Fixpoint trimStart (s : string) : string :=
  match s with
  | EmptyString => EmptyString
  | String c rest => if is_space c then trimStart rest else s
  end.

Fixpoint rev_string (s acc : string) : string :=
  match s with
  | EmptyString => acc
  | String c rest => rev_string rest (String c acc)
  end.

Definition trim (s : string) : string :=
  rev_string (trimStart (rev_string (trimStart s) EmptyString)) EmptyString.

End JS.

(** ** Data model of [src/utils/recommendation.ts] *)

Record RecommendationMustHave := {
  mh_location : option string;
  mh_categoryId : option R;
  mh_minPrice : option R;
  mh_maxPrice : option R;
  mh_minRoi : option R;
  mh_minArea : option R;
  mh_maxDistanceFromHighway : option R;
  mh_status : option string
}.

Record RecommendationPreferences := {
  pref_location : option string;
  pref_latitude : option R;
  pref_longitude : option R;
  pref_locationRadiusKm : option R;
  pref_budget : option R;
  pref_roiPercent : option R;
  pref_areaSqft : option R;
  pref_maxDistanceFromHighway : option R
}.

Record RecommendationProperty := {
  prop_id : option R;
  prop_title : string;
  prop_location : string;
  prop_categoryId : R;
  prop_status : string;
  prop_latitude : option R;
  prop_longitude : option R;
  prop_priceNpr : option R;
  prop_roiPercent : option R;
  prop_areaSqft : option R;
  prop_distanceFromHighway : option R
}.

(** The reason of an explanation entry is a template string in the source;
    here it is the template's name with the values it interpolates. *)
Inductive Reason :=
| LocationScoredByDistance (distanceKm radiusKm : R)
| LocationFallbackMatched (preferred : string)
| LocationFallbackNotMatched (preferred : string)
| LocationCoordinatesMissing
| LocationTextMatched (preferred : string)
| LocationTextNotMatched (preferred : string)
| PriceMissing
| PriceScored (budget : R)
| RoiMissing
| RoiScored (preferred : R)
| AreaMissing
| AreaScored (preferred : R)
| DistanceMissing
| DistanceScored (preferredMax : R).

Record RecommendationExplanation := {
  reason : Reason;
  points : R
}.

Record RecommendationScore := {
  score : R;
  maxPossible : R;
  matchPercentage : R;
  explanation : list RecommendationExplanation
}.

Module WEIGHTS.
Definition location : R := 25.
Definition price : R := 30.
Definition roi : R := 15.
Definition area : R := 15.
Definition distance : R := 15.
End WEIGHTS.

Definition round2 (value : R) : R := JS.Math_round (value * 100) / 100.

Definition safeRatioScore (weight deltaRatio : R) : R :=
  let score := weight * JS.Math_max 0 (1 - deltaRatio) in
  round2 score.

(** [haversineKm] in exact arithmetic: the term [a] then lies between 0
    and 1 and both square roots are defined.  In doubles [a] can round to
    a number above 1; [Binary64.haversineKm] is the function on doubles. *)
Definition haversineKm (lat1 lng1 lat2 lng2 : R) : R :=
  let toRad := fun deg : R => (deg * JS.Math_PI) / 180 in
  let earthRadiusKm := 6371 in
  let dLat := toRad (lat2 - lat1) in
  let dLng := toRad (lng2 - lng1) in
  let a :=
    JS.Math_sin (dLat / 2) * JS.Math_sin (dLat / 2) +
    JS.Math_cos (toRad lat1) *
      JS.Math_cos (toRad lat2) *
      JS.Math_sin (dLng / 2) *
      JS.Math_sin (dLng / 2) in
  let c := 2 * JS.Math_atan2 (JS.Math_sqrt a) (JS.Math_sqrt (1 - a)) in
  earthRadiusKm * c.

(** ** [applyHardFilters] *)

(** The callback handed to [properties.filter]: each [if] of the source
    either rejects the property or falls through to the next one.  The
    guards [mustHave.location && ...] and [mustHave.status && ...] test
    truthiness: they hold for a present, non-empty string. *)
Definition passesHardFilters
    (mustHave : RecommendationMustHave) (property : RecommendationProperty) : bool :=
  if match mh_location mustHave with
     | Some (String _ _ as location) =>
         negb (JS.includes (JS.toLowerCase (prop_location property))
                 (JS.toLowerCase location))
     | _ => false
     end
  then false else
  if match mh_categoryId mustHave with
     | Some c => negb (JS.eq (prop_categoryId property) c)
     | None => false
     end
  then false else
  if match mh_status mustHave with
     | Some (String _ _ as status) =>
         negb (JS.toLowerCase (prop_status property) =? JS.toLowerCase status)%string
     | _ => false
     end
  then false else
  if match mh_minPrice mustHave with
     | Some minPrice =>
         match prop_priceNpr property with
         | None => true
         | Some priceNpr => JS.lt priceNpr minPrice
         end
     | None => false
     end
  then false else
  if match mh_maxPrice mustHave with
     | Some maxPrice =>
         match prop_priceNpr property with
         | None => true
         | Some priceNpr => JS.gt priceNpr maxPrice
         end
     | None => false
     end
  then false else
  if match mh_minRoi mustHave with
     | Some minRoi =>
         match prop_roiPercent property with
         | None => true
         | Some roiPercent => JS.lt roiPercent minRoi
         end
     | None => false
     end
  then false else
  if match mh_minArea mustHave with
     | Some minArea =>
         match prop_areaSqft property with
         | None => true
         | Some areaSqft => JS.lt areaSqft minArea
         end
     | None => false
     end
  then false else
  if match mh_maxDistanceFromHighway mustHave with
     | Some maxDistance =>
         match prop_distanceFromHighway property with
         | None => true
         | Some distanceFromHighway => JS.gt distanceFromHighway maxDistance
         end
     | None => false
     end
  then false else
  true.

Definition applyHardFilters
    (properties : list RecommendationProperty) (mustHave : RecommendationMustHave)
    : list RecommendationProperty :=
  filter (passesHardFilters mustHave) properties.

(** ** [scoreProperty] *)

(** The three mutable locals of [scoreProperty]. *)
Record ScoreState := {
  st_score : R;
  st_maxPossible : R;
  st_explanation : list RecommendationExplanation
}.

Definition initialState : ScoreState :=
  {| st_score := 0; st_maxPossible := 0; st_explanation := [] |}.

(** One criterion block that ran: [maxPossible += weight], [score += points]
    and [explanation.push({ reason, points })]. *)
Definition award (weight : R) (r : Reason) (pts : R) (st : ScoreState) : ScoreState :=
  {| st_score := st_score st + pts;
     st_maxPossible := st_maxPossible st + weight;
     st_explanation := st_explanation st ++ [ {| reason := r; points := pts |} ] |}.

Definition radiusKmOf (preferences : RecommendationPreferences) : R :=
  match pref_locationRadiusKm preferences with
  | Some r => if JS.gt r 0 then r else 10
  | None => 10
  end.

Definition textMatched (property : RecommendationProperty) (preferred : string) : bool :=
  JS.includes (JS.toLowerCase (prop_location property)) (JS.toLowerCase preferred).

(** Lines 161-225: the location criterion. *)
Definition scoreLocation
    (property : RecommendationProperty) (preferences : RecommendationPreferences)
    (st : ScoreState) : ScoreState :=
  match pref_latitude preferences, pref_longitude preferences with
  | Some prefLat, Some prefLng =>
      let radiusKm := radiusKmOf preferences in
      match prop_latitude property, prop_longitude property with
      | Some lat, Some lng =>
          let distanceKm := haversineKm prefLat prefLng lat lng in
          let pts := safeRatioScore WEIGHTS.location (distanceKm / radiusKm) in
          award WEIGHTS.location
            (LocationScoredByDistance (round2 distanceKm) radiusKm) pts st
      | _, _ =>
          match pref_location preferences with
          | Some (String _ _ as preferred) =>
              let matched := textMatched property preferred in
              let pts := if matched then WEIGHTS.location else 0 in
              award WEIGHTS.location
                (if matched then LocationFallbackMatched preferred
                 else LocationFallbackNotMatched preferred) pts st
          | _ => award WEIGHTS.location LocationCoordinatesMissing 0 st
          end
      end
  | _, _ =>
      match pref_location preferences with
      | Some (String _ _ as preferred) =>
          let matched := textMatched property preferred in
          let pts := if matched then WEIGHTS.location else 0 in
          award WEIGHTS.location
            (if matched then LocationTextMatched preferred
             else LocationTextNotMatched preferred) pts st
      | _ => st
      end
  end.

(** The [points] expression of the price criterion. *)
Definition pricePoints (price : option R) (budget : R) : R :=
  match price with
  | None => 0
  | Some price => safeRatioScore WEIGHTS.price (JS.Math_abs (price - budget) / budget)
  end.

(** Lines 227-245: the price criterion. *)
Definition scorePrice
    (property : RecommendationProperty) (preferences : RecommendationPreferences)
    (st : ScoreState) : ScoreState :=
  match pref_budget preferences with
  | Some budget =>
      if JS.gt budget 0 then
        let price := prop_priceNpr property in
        award WEIGHTS.price
          (match price with None => PriceMissing | Some _ => PriceScored budget end)
          (pricePoints price budget) st
      else st
  | None => st
  end.

(** The [points] variable of the ROI criterion. *)
Definition roiPoints (roi : option R) (preferred : R) : R :=
  match roi with
  | None => 0
  | Some roi =>
      if JS.ge roi preferred then WEIGHTS.roi
      else round2 (WEIGHTS.roi * JS.Math_max 0 (roi / preferred))
  end.

(** Lines 247-265: the ROI criterion. *)
Definition scoreRoi
    (property : RecommendationProperty) (preferences : RecommendationPreferences)
    (st : ScoreState) : ScoreState :=
  match pref_roiPercent preferences with
  | Some preferred =>
      if JS.gt preferred 0 then
        let roi := prop_roiPercent property in
        award WEIGHTS.roi
          (match roi with None => RoiMissing | Some _ => RoiScored preferred end)
          (roiPoints roi preferred) st
      else st
  | None => st
  end.

(** The [points] expression of the area criterion. *)
Definition areaPoints (area : option R) (preferred : R) : R :=
  match area with
  | None => 0
  | Some area => safeRatioScore WEIGHTS.area (JS.Math_abs (area - preferred) / preferred)
  end.

(** Lines 267-285: the area criterion. *)
Definition scoreArea
    (property : RecommendationProperty) (preferences : RecommendationPreferences)
    (st : ScoreState) : ScoreState :=
  match pref_areaSqft preferences with
  | Some preferred =>
      if JS.gt preferred 0 then
        let area := prop_areaSqft property in
        award WEIGHTS.area
          (match area with None => AreaMissing | Some _ => AreaScored preferred end)
          (areaPoints area preferred) st
      else st
  | None => st
  end.

(** The [points] variable of the distance-from-highway criterion. *)
Definition distancePoints (distance : option R) (preferredMax : R) : R :=
  match distance with
  | None => 0
  | Some distance =>
      if JS.le distance preferredMax then WEIGHTS.distance
      else safeRatioScore WEIGHTS.distance ((distance - preferredMax) / preferredMax)
  end.

(** Lines 287-315: the distance-from-highway criterion. *)
Definition scoreDistance
    (property : RecommendationProperty) (preferences : RecommendationPreferences)
    (st : ScoreState) : ScoreState :=
  match pref_maxDistanceFromHighway preferences with
  | Some preferredMax =>
      if JS.gt preferredMax 0 then
        let distance := prop_distanceFromHighway property in
        award WEIGHTS.distance
          (match distance with None => DistanceMissing | Some _ => DistanceScored preferredMax end)
          (distancePoints distance preferredMax) st
      else st
  | None => st
  end.

(** The state after the five criterion blocks, in source order. *)
Definition scoreCriteria
    (property : RecommendationProperty) (preferences : RecommendationPreferences)
    : ScoreState :=
  scoreDistance property preferences
    (scoreArea property preferences
       (scoreRoi property preferences
          (scorePrice property preferences
             (scoreLocation property preferences initialState)))).

Definition scoreProperty
    (property : RecommendationProperty) (preferences : RecommendationPreferences)
    : RecommendationScore :=
  let st := scoreCriteria property preferences in
  let matchPercentage :=
    if JS.eq (st_maxPossible st) 0 then 0
    else JS.Math_round ((st_score st / st_maxPossible st) * 100) in
  {| score := round2 (st_score st);
     maxPossible := st_maxPossible st;
     matchPercentage := matchPercentage;
     explanation := st_explanation st |}.

(** ** The request handler of [src/controller/recommendation.controller.ts] *)

(** A value of unknown type, as [parseNumber] and [extractQueryString]
    inspect it; [JNumber None] is NaN. *)
#[local] Set Warnings "-register-all".
Inductive JsValue :=
| JUndefined
| JNumber (n : option R)
| JString (s : string)
| JArray (items : list JsValue)
| JObject.

Definition ofNumber (n : option R) : JsValue :=
  match n with
  | Some r => JNumber (Some r)
  | None => JUndefined
  end.

(** [mustHave] and [preferences] as they arrive: text fields are optional
    strings, numeric fields are whatever the client sent. *)
Record RawMustHave := {
  raw_mh_location : option string;
  raw_mh_categoryId : JsValue;
  raw_mh_minPrice : JsValue;
  raw_mh_maxPrice : JsValue;
  raw_mh_minRoi : JsValue;
  raw_mh_minArea : JsValue;
  raw_mh_maxDistanceFromHighway : JsValue;
  raw_mh_status : option string
}.

Record RawPreferences := {
  raw_pref_location : option string;
  raw_pref_latitude : JsValue;
  raw_pref_longitude : JsValue;
  raw_pref_locationRadiusKm : JsValue;
  raw_pref_budget : JsValue;
  raw_pref_roiPercent : JsValue;
  raw_pref_areaSqft : JsValue;
  raw_pref_maxDistanceFromHighway : JsValue
}.

Record RecommendationRequestBody := {
  body_mustHave : option RawMustHave;
  body_preferences : option RawPreferences;
  body_page : option R;
  body_limit : option R
}.

Inductive Method := GET | POST.

Record Request := {
  req_method : Method;
  req_query : string -> JsValue;
  req_body : RecommendationRequestBody
}.

Record Coordinates := {
  latitude : R;
  longitude : R
}.

(** The [where] object handed to [Property.findAll]. *)
Record WhereOptions := {
  where_location_iLike : option string;
  where_categoryId : option R;
  where_status_iLike : option string;
  where_priceNpr_gte : option R;
  where_priceNpr_lte : option R;
  where_roiPercent_gte : option R;
  where_areaSqft_gte : option R;
  where_distanceFromHighway_lte : option R
}.

Record RankedItem := {
  item_property : RecommendationProperty;
  item_matchPercentage : R;
  item_score : R;
  item_explanation : list RecommendationExplanation
}.

Record Pagination := {
  page : Z;
  limit : Z;
  total : Z;
  totalPages : Z;
  hasNext : bool;
  hasPrev : bool
}.

Inductive Response :=
| Status200 (data : list RankedItem) (pagination : Pagination)
| Status400 (message : string)
| Status500 (message : string).

(** The calls that leave the process. *)
Inductive Event :=
| GeocodeRequest (location : string)
| CatalogQuery (where_ : WhereOptions).

(** Computations that record the outside calls they make. *)
Definition Eff (A : Type) : Type := list Event -> A * list Event.

Definition ret {A} (a : A) : Eff A := fun tr => (a, tr).

Definition bind {A B} (m : Eff A) (k : A -> Eff B) : Eff B :=
  fun tr => let (a, tr') := m tr in k a tr'.

Definition emit (e : Event) : Eff unit := fun tr => (tt, tr ++ [e]).

Declare Scope eff_scope.
Delimit Scope eff_scope with eff.
Notation "x <- m ;; k" := (bind m (fun x => k))
  (at level 61, m at next level, right associativity) : eff_scope.
Notation "m ;;; k" := (bind m (fun _ => k))
  (at level 61, right associativity) : eff_scope.

Definition run {A} (m : Eff A) : A * list Event := m [].

Fixpoint removeCommas (s : string) : string :=
  match s with
  | EmptyString => EmptyString
  | String c rest =>
      if Ascii.eqb c ","%char then removeCommas rest else String c (removeCommas rest)
  end.

(** [ranked.sort(cmp)]: a stable sort; [insertRanked] keeps an item ahead of
    the items it compares equal to, which all came after it.  On numbers
    that are not NaN the comparator is consistent, and ECMAScript then
    fixes the sorted sequence; with a NaN score the comparator returns NaN
    and the order is left to the engine, which this model does not follow. *)
Definition compareRanked (a b : RankedItem) : R :=
  if JS.eq (item_score b - item_score a) 0
  then item_matchPercentage b - item_matchPercentage a
  else item_score b - item_score a.

Fixpoint insertRanked (x : RankedItem) (l : list RankedItem) : list RankedItem :=
  match l with
  | [] => [x]
  | y :: rest =>
      if JS.le (compareRanked x y) 0 then x :: y :: rest
      else y :: insertRanked x rest
  end.

Definition sortRanked (l : list RankedItem) : list RankedItem :=
  fold_right insertRanked [] l.

(** [xs.slice(start, end)] for [0 <= start <= end]. *)
Definition slice {A} (xs : list A) (start end_ : Z) : list A :=
  firstn (Z.to_nat (end_ - start)) (skipn (Z.to_nat start) xs).

Section Controller.

(** [Number.parseFloat]; [None] is NaN. *)
Variable Number_parseFloat : string -> option R.
(** [process.env.GOOGLE_MAPS_API_KEY]. *)
Variable GOOGLE_MAPS_API_KEY : option string.
(** The geocoding service: the coordinates in its answer, [None] when the
    request fails or the answer has none. *)
Variable googleGeocode : string -> option Coordinates.
(** [Property.findAll]: the rows matching a [where] object, or the message
    of the error it throws. *)
Variable Property_findAll : WhereOptions -> string + list RecommendationProperty.

Definition extractQueryString (value : JsValue) : option string :=
  match value with
  | JString s => Some s
  | JArray items =>
      match items with
      | JString first :: _ => Some first
      | _ => None
      end
  | _ => None
  end.

Definition parseNumber (value : JsValue) : option R :=
  match value with
  | JNumber n => n
  | _ =>
      match extractQueryString value with
      | Some (String _ _ as raw) => Number_parseFloat (JS.trim (removeCommas raw))
      | _ => None
      end
  end.

Definition buildFromQuery (req : Request) : RecommendationRequestBody :=
  let q := req_query req in
  {| body_mustHave := Some
       {| raw_mh_location := extractQueryString (q "location"%string);
          raw_mh_categoryId := ofNumber (parseNumber (q "categoryId"%string));
          raw_mh_minPrice := ofNumber (parseNumber (q "minPrice"%string));
          raw_mh_maxPrice := ofNumber (parseNumber (q "maxPrice"%string));
          raw_mh_minRoi := ofNumber (parseNumber (q "minRoi"%string));
          raw_mh_minArea := ofNumber (parseNumber (q "minArea"%string));
          raw_mh_maxDistanceFromHighway :=
            ofNumber (parseNumber (q "maxDistanceFromHighway"%string));
          raw_mh_status := extractQueryString (q "status"%string) |};
     body_preferences := Some
       {| raw_pref_location := extractQueryString (q "preferredLocation"%string);
          raw_pref_latitude := ofNumber (parseNumber (q "preferredLatitude"%string));
          raw_pref_longitude := ofNumber (parseNumber (q "preferredLongitude"%string));
          raw_pref_locationRadiusKm := ofNumber (parseNumber (q "locationRadiusKm"%string));
          raw_pref_budget := ofNumber (parseNumber (q "budget"%string));
          raw_pref_roiPercent := ofNumber (parseNumber (q "preferredRoi"%string));
          raw_pref_areaSqft := ofNumber (parseNumber (q "preferredArea"%string));
          raw_pref_maxDistanceFromHighway :=
            ofNumber (parseNumber (q "preferredMaxDistance"%string)) |};
     body_page := parseNumber (q "page"%string);
     body_limit := parseNumber (q "limit"%string) |}.

(** [input?.trim() || undefined]. *)
Definition trimmedOrUndefined (input : option string) : option string :=
  match input with
  | Some s =>
      match JS.trim s with
      | EmptyString => None
      | t => Some t
      end
  | None => None
  end.

Definition sanitizeMustHave (input : option RawMustHave) : RecommendationMustHave :=
  match input with
  | None =>
      {| mh_location := None; mh_categoryId := None; mh_minPrice := None;
         mh_maxPrice := None; mh_minRoi := None; mh_minArea := None;
         mh_maxDistanceFromHighway := None; mh_status := None |}
  | Some input =>
      {| mh_location := trimmedOrUndefined (raw_mh_location input);
         mh_categoryId := parseNumber (raw_mh_categoryId input);
         mh_minPrice := parseNumber (raw_mh_minPrice input);
         mh_maxPrice := parseNumber (raw_mh_maxPrice input);
         mh_minRoi := parseNumber (raw_mh_minRoi input);
         mh_minArea := parseNumber (raw_mh_minArea input);
         mh_maxDistanceFromHighway := parseNumber (raw_mh_maxDistanceFromHighway input);
         mh_status := trimmedOrUndefined (raw_mh_status input) |}
  end.

Definition sanitizePreferences (input : option RawPreferences) : RecommendationPreferences :=
  match input with
  | None =>
      {| pref_location := None; pref_latitude := None; pref_longitude := None;
         pref_locationRadiusKm := None; pref_budget := None; pref_roiPercent := None;
         pref_areaSqft := None; pref_maxDistanceFromHighway := None |}
  | Some input =>
      {| pref_location := trimmedOrUndefined (raw_pref_location input);
         pref_latitude := parseNumber (raw_pref_latitude input);
         pref_longitude := parseNumber (raw_pref_longitude input);
         pref_locationRadiusKm := parseNumber (raw_pref_locationRadiusKm input);
         pref_budget := parseNumber (raw_pref_budget input);
         pref_roiPercent := parseNumber (raw_pref_roiPercent input);
         pref_areaSqft := parseNumber (raw_pref_areaSqft input);
         pref_maxDistanceFromHighway :=
           parseNumber (raw_pref_maxDistanceFromHighway input) |}
  end.

(** [geocodeLocation] of [src/utils/geocoding.ts]: without an API key or
    for a blank location it answers [null] at once; otherwise it asks the
    service, and every failure there also resolves to [null]. *)
Definition geocodeLocation (location : string) : Eff (option Coordinates) :=
  match GOOGLE_MAPS_API_KEY, JS.trim location with
  | Some (String _ _), String _ _ =>
      (emit (GeocodeRequest location) ;;;
       ret (googleGeocode location))%eff
  | _, _ => ret None
  end.

Definition findAll (where_ : WhereOptions)
    : Eff (string + list RecommendationProperty) :=
  (emit (CatalogQuery where_) ;;;
   ret (Property_findAll where_))%eff.

(** [value || fallback] on an optional number: [undefined] and 0 are falsy. *)
Definition orDefault (value : option R) (fallback : R) : R :=
  match value with
  | Some v => if JS.eq v 0 then fallback else v
  | None => fallback
  end.

Definition setCoordinates
    (preferences : RecommendationPreferences) (coordinates : Coordinates)
    : RecommendationPreferences :=
  {| pref_location := pref_location preferences;
     pref_latitude := Some (latitude coordinates);
     pref_longitude := Some (longitude coordinates);
     pref_locationRadiusKm := pref_locationRadiusKm preferences;
     pref_budget := pref_budget preferences;
     pref_roiPercent := pref_roiPercent preferences;
     pref_areaSqft := pref_areaSqft preferences;
     pref_maxDistanceFromHighway := pref_maxDistanceFromHighway preferences |}.

(** Lines 106-116: geocode the preferred location when it is given without
    both coordinates. *)
Definition resolveCoordinates (preferences : RecommendationPreferences)
    : Eff RecommendationPreferences :=
  match pref_location preferences with
  | Some (String _ _ as location) =>
      match pref_latitude preferences, pref_longitude preferences with
      | Some _, Some _ => ret preferences
      | _, _ =>
          (coordinates <- geocodeLocation location ;;
           ret (match coordinates with
                | Some c => setCoordinates preferences c
                | None => preferences
                end))%eff
      end
  | _ => ret preferences
  end.

(** Lines 121-125: the guard of the validation error. *)
Definition invalidPriceRange (mustHave : RecommendationMustHave) : bool :=
  match mh_minPrice mustHave, mh_maxPrice mustHave with
  | Some minPrice, Some maxPrice => JS.gt minPrice maxPrice
  | _, _ => false
  end.

(** Lines 131-166: the column constraints of the catalog query. *)
Definition buildWhere (mustHave : RecommendationMustHave) : WhereOptions :=
  {| where_location_iLike :=
       match mh_location mustHave with
       | Some (String _ _ as location) => Some ("%" ++ location ++ "%")%string
       | _ => None
       end;
     where_categoryId := mh_categoryId mustHave;
     where_status_iLike :=
       match mh_status mustHave with
       | Some (String _ _ as status) => Some status
       | _ => None
       end;
     where_priceNpr_gte := mh_minPrice mustHave;
     where_priceNpr_lte := mh_maxPrice mustHave;
     where_roiPercent_gte := mh_minRoi mustHave;
     where_areaSqft_gte := mh_minArea mustHave;
     where_distanceFromHighway_lte := mh_maxDistanceFromHighway mustHave |}.

Definition rankOne (preferences : RecommendationPreferences)
    (property : RecommendationProperty) : RankedItem :=
  let scored := scoreProperty property preferences in
  {| item_property := property;
     item_matchPercentage := matchPercentage scored;
     item_score := score scored;
     item_explanation := explanation scored |}.

(** Lines 193-207: the page of results and its metadata. *)
Definition paginate (ranked : list RankedItem) (page limit : Z) : Response :=
  let total := Z.of_nat (List.length ranked) in
  let totalPages := Z.max 1 (JS.Math_ceil (IZR total / IZR limit)) in
  let offset := ((page - 1) * limit)%Z in
  let data := slice ranked offset (offset + limit) in
  Status200 data
    {| page := page;
       limit := limit;
       total := total;
       totalPages := totalPages;
       hasNext := (page <? totalPages)%Z;
       hasPrev := (page >? 1)%Z |}.

(** Lines 118-119: the page number, at least 1, and the page size, from 1
    to 50, with defaults 1 and 20. *)
Definition requestedPage (source : RecommendationRequestBody) : Z :=
  Z.max 1 (JS.Math_trunc (orDefault (body_page source) 1)).

Definition requestedLimit (source : RecommendationRequestBody) : Z :=
  Z.min 50 (Z.max 1 (JS.Math_trunc (orDefault (body_limit source) 20))).

(** Line 101: the query string of a GET request, the body otherwise. *)
Definition requestSource (req : Request) : RecommendationRequestBody :=
  match req_method req with
  | GET => buildFromQuery req
  | POST => req_body req
  end.

Definition getRecommendations (req : Request) : Eff Response :=
  let source := requestSource req in
  let mustHave := sanitizeMustHave (body_mustHave source) in
  (preferences <- resolveCoordinates (sanitizePreferences (body_preferences source)) ;;
   let page := requestedPage source in
   let limit := requestedLimit source in
   if invalidPriceRange mustHave then
     ret (Status400 "Invalid constraints: minPrice cannot be greater than maxPrice")
   else
     candidates <- findAll (buildWhere mustHave) ;;
     match candidates with
     | inl message => ret (Status500 message)
     | inr candidates =>
         let hardFiltered := applyHardFilters candidates mustHave in
         let ranked := sortRanked (map (rankOne preferences) hardFiltered) in
         ret (paginate ranked page limit)
     end)%eff.

End Controller.

(** ** Specification-side notions *)

(** [Selected P xs ys]: [ys] is [xs] with exactly the elements satisfying [P]
    kept, in their original order and with their multiplicity. *)
Inductive Selected {A} (P : A -> Prop) : list A -> list A -> Prop :=
| Selected_nil : Selected P [] []
| Selected_keep x xs ys : P x -> Selected P xs ys -> Selected P (x :: xs) (x :: ys)
| Selected_drop x xs ys : ~ P x -> Selected P xs ys -> Selected P (x :: xs) ys.

(** [sub] occurs in [s]: some text before it and some after it make up [s]. *)
Definition Substring (sub s : string) : Prop :=
  exists before after : string, s = (before ++ sub ++ after)%string.

(** The numeric constraints of section 4.1: a set bound requires the
    listing's field to be present and on the right side of the bound. *)
Definition AtLeast (bound : option R) (field : option R) : Prop :=
  forall b, bound = Some b -> exists v, field = Some v /\ b <= v.

Definition AtMost (bound : option R) (field : option R) : Prop :=
  forall b, bound = Some b -> exists v, field = Some v /\ v <= b.

Definition NumericConstraints (M : RecommendationMustHave) (L : RecommendationProperty) : Prop :=
  (forall c, mh_categoryId M = Some c -> prop_categoryId L = c) /\
  AtLeast (mh_minPrice M) (prop_priceNpr L) /\
  AtMost (mh_maxPrice M) (prop_priceNpr L) /\
  AtLeast (mh_minRoi M) (prop_roiPercent L) /\
  AtLeast (mh_minArea M) (prop_areaSqft L) /\
  AtMost (mh_maxDistanceFromHighway M) (prop_distanceFromHighway L).

Definition LocationConstraint (M : RecommendationMustHave) (L : RecommendationProperty) : Prop :=
  forall location, mh_location M = Some location ->
    Substring (JS.toLowerCase location) (JS.toLowerCase (prop_location L)).

(** The per-listing predicate with every present field taken as an active
    constraint. *)
Definition SatisfiesAsStated (M : RecommendationMustHave) (L : RecommendationProperty) : Prop :=
  LocationConstraint M L /\
  (forall status, mh_status M = Some status ->
     JS.toLowerCase (prop_status L) = JS.toLowerCase status) /\
  NumericConstraints M L.

(** The per-listing predicate with an empty status string taken as no
    constraint, like an absent one. *)
Definition Satisfies (M : RecommendationMustHave) (L : RecommendationProperty) : Prop :=
  LocationConstraint M L /\
  (forall status, mh_status M = Some status -> status <> EmptyString ->
     JS.toLowerCase (prop_status L) = JS.toLowerCase status) /\
  NumericConstraints M L.

(** [y] is [x] rounded to two decimals: a whole number of hundredths, at
    most half a hundredth away from [x], the upper one of two that are. *)
Definition RoundedTo2 (x y : R) : Prop :=
  (exists k : Z, y = IZR k / 100) /\ x - / 200 < y <= x + / 200.

(** The total of the points of a sequence of explanation entries. *)
Definition totalPoints (entries : list RecommendationExplanation) : R :=
  fold_right (fun e acc => points e + acc) 0 entries.

(** The points a criterion block adds to the running score. *)
Definition pointsAwarded (step : ScoreState -> ScoreState) (st : ScoreState) : R :=
  st_score (step st) - st_score st.

(** A criterion block that counts [weight] in [maxPossible], adds [pts] to
    the score and pushes exactly one explanation entry carrying [pts]. *)
Definition Awards (weight pts : R) (step : ScoreState -> ScoreState) : Prop :=
  forall st,
    st_score (step st) = st_score st + pts /\
    st_maxPossible (step st) = st_maxPossible st + weight /\
    exists r, st_explanation (step st) =
              st_explanation st ++ [ {| reason := r; points := pts |} ].

(** The five scoring criteria, with the block, weight, activation condition
    and evaluated listing field of each. *)
Inductive Criterion := CLocation | CPrice | CRoi | CArea | CDistance.

Definition criterionStep (c : Criterion)
    : RecommendationProperty -> RecommendationPreferences -> ScoreState -> ScoreState :=
  match c with
  | CLocation => scoreLocation
  | CPrice => scorePrice
  | CRoi => scoreRoi
  | CArea => scoreArea
  | CDistance => scoreDistance
  end.

Definition criterionWeight (c : Criterion) : R :=
  match c with
  | CLocation => WEIGHTS.location
  | CPrice => WEIGHTS.price
  | CRoi => WEIGHTS.roi
  | CArea => WEIGHTS.area
  | CDistance => WEIGHTS.distance
  end.

Definition Positive (x : option R) : Prop := exists v, x = Some v /\ 0 < v.

Definition HasCoordinates (P : RecommendationPreferences) : Prop :=
  pref_latitude P <> None /\ pref_longitude P <> None.

Definition HasText (P : RecommendationPreferences) : Prop :=
  exists t, pref_location P = Some t /\ t <> EmptyString.

Definition Active (c : Criterion) (P : RecommendationPreferences) : Prop :=
  match c with
  | CLocation => HasCoordinates P \/ HasText P
  | CPrice => Positive (pref_budget P)
  | CRoi => Positive (pref_roiPercent P)
  | CArea => Positive (pref_areaSqft P)
  | CDistance => Positive (pref_maxDistanceFromHighway P)
  end.

(** The listing lacks the field the criterion evaluates.  The location
    criterion evaluates the coordinates when the preferences carry a
    coordinate pair, and the listing's location text (never absent)
    otherwise. *)
Definition LacksField (c : Criterion)
    (L : RecommendationProperty) (P : RecommendationPreferences) : Prop :=
  match c with
  | CLocation => HasCoordinates P /\ (prop_latitude L = None \/ prop_longitude L = None)
  | CPrice => prop_priceNpr L = None
  | CRoi => prop_roiPercent L = None
  | CArea => prop_areaSqft L = None
  | CDistance => prop_distanceFromHighway L = None
  end.

(** The search radius of the coordinate mode, as the specification words it. *)
Definition RadiusIs (P : RecommendationPreferences) (r : R) : Prop :=
  (exists x, pref_locationRadiusKm P = Some x /\ 0 < x /\ r = x) \/
  ((pref_locationRadiusKm P = None \/
    exists x, pref_locationRadiusKm P = Some x /\ ~ 0 < x) /\ r = 10).

(** The haversine formula of section 4.2, on angles in degrees:
    [a = sin^2(dlat/2) + cos(lat1) cos(lat2) sin^2(dlng/2)] and
    [distance = 2 R atan2(sqrt a, sqrt (1 - a))] with [R = 6371]. *)
Definition radians (deg : R) : R := deg * PI / 180.

Definition haversineA (lat1 lng1 lat2 lng2 : R) : R :=
  (sin (radians (lat2 - lat1) / 2))² +
  cos (radians lat1) * cos (radians lat2) * (sin (radians (lng2 - lng1) / 2))².

Definition greatCircleKm (lat1 lng1 lat2 lng2 : R) : R :=
  let a := haversineA lat1 lng1 lat2 lng2 in
  2 * 6371 * JS.Math_atan2 (sqrt a) (sqrt (1 - a)).

(** The cosine of the central angle between two points of the sphere, by
    the spherical law of cosines. *)
Definition centralCosine (lat1 lng1 lat2 lng2 : R) : R :=
  sin (radians lat1) * sin (radians lat2) +
  cos (radians lat1) * cos (radians lat2) * cos (radians (lng2 - lng1)).

(** [k] is the ceiling of [n / d]: the least integer with [n <= k * d]. *)
Definition IsCeilDiv (n d k : Z) : Prop :=
  (n <= k * d)%Z /\ forall j, (n <= j * d)%Z -> (k <= j)%Z.

(** A trace made of calls to the geocoding service only. *)
Definition OnlyGeocoding (tr : list Event) : Prop :=
  forall e, In e tr -> exists location, e = GeocodeRequest location.

(** No call to the catalog in a trace. *)
Definition NoCatalogQuery (tr : list Event) : Prop :=
  forall w, ~ In (CatalogQuery w) tr.

(** The running score is the total of the entries pushed so far. *)
Definition Accounted (st : ScoreState) : Prop :=
  st_score st = totalPoints (st_explanation st).

(** The running score lies between 0 and the running maximum, which is a
    whole number. *)
Definition Bounded (st : ScoreState) : Prop :=
  exists n : Z, st_maxPossible st = IZR n /\ 0 <= st_score st <= IZR n.

(** In coordinate mode without listing coordinates, the text fallback finds
    the preferred location in the listing's location. *)
Definition FallbackMatches (c : Criterion)
    (L : RecommendationProperty) (P : RecommendationPreferences) : Prop :=
  c = CLocation /\
  exists t, pref_location P = Some t /\ t <> EmptyString /\
            Substring (JS.toLowerCase t) (JS.toLowerCase (prop_location L)).

(** ** Concrete values used in the examples *)

(** A must-have set whose only field is an empty status string. *)
Definition emptyStatusMustHave : RecommendationMustHave :=
  {| mh_location := None; mh_categoryId := None; mh_minPrice := None;
     mh_maxPrice := None; mh_minRoi := None; mh_minArea := None;
     mh_maxDistanceFromHighway := None; mh_status := Some EmptyString |}.

Definition noPreferences : RecommendationPreferences :=
  {| pref_location := None; pref_latitude := None; pref_longitude := None;
     pref_locationRadiusKm := None; pref_budget := None; pref_roiPercent := None;
     pref_areaSqft := None; pref_maxDistanceFromHighway := None |}.

(** The listing of the scenarios of section 8: price 5,000,000, no ROI,
    area 1200, distance 500, location Kathmandu, no coordinates. *)
Definition kathmanduListing : RecommendationProperty :=
  {| prop_id := Some 1; prop_title := "Plot"; prop_location := "Kathmandu";
     prop_categoryId := 1; prop_status := "Available";
     prop_latitude := None; prop_longitude := None;
     prop_priceNpr := Some 5000000; prop_roiPercent := None;
     prop_areaSqft := Some 1200; prop_distanceFromHighway := Some 500 |}.

(** Preferences with a coordinate pair and a location text. *)
Definition kathPreferences : RecommendationPreferences :=
  {| pref_location := Some "kath"%string; pref_latitude := Some 27.7;
     pref_longitude := Some 85.3; pref_locationRadiusKm := None;
     pref_budget := None; pref_roiPercent := None; pref_areaSqft := None;
     pref_maxDistanceFromHighway := None |}.

(** Preferences with a preferred ROI only. *)
Definition roiPreferences : RecommendationPreferences :=
  {| pref_location := None; pref_latitude := None; pref_longitude := None;
     pref_locationRadiusKm := None; pref_budget := None; pref_roiPercent := Some 12;
     pref_areaSqft := None; pref_maxDistanceFromHighway := None |}.

(** A POST request with the given body and no query string. *)
Definition postRequest (body : RecommendationRequestBody) : Request :=
  {| req_method := POST; req_query := fun _ => JUndefined; req_body := body |}.

(** The request of the scenario of section 8: minPrice 10 and maxPrice 5. *)
Definition invertedPriceBody : RecommendationRequestBody :=
  {| body_mustHave := Some
       {| raw_mh_location := None; raw_mh_categoryId := JUndefined;
          raw_mh_minPrice := JNumber (Some 10); raw_mh_maxPrice := JNumber (Some 5);
          raw_mh_minRoi := JUndefined; raw_mh_minArea := JUndefined;
          raw_mh_maxDistanceFromHighway := JUndefined; raw_mh_status := None |};
     body_preferences := None; body_page := None; body_limit := None |}.

Definition emptyBody : RecommendationRequestBody :=
  {| body_mustHave := None; body_preferences := None;
     body_page := None; body_limit := None |}.

(** An environment for the examples: no digits are parsed, no API key is
    configured, and the catalog holds the given rows whatever the query. *)
Definition parseNothing : string -> option R := fun _ => None.
Definition geocodeNothing : string -> option Coordinates := fun _ => None.
Definition catalogOf (rows : list RecommendationProperty)
    : WhereOptions -> string + list RecommendationProperty := fun _ => inr rows.

(** The preferences of the first scenario of section 8: budget 5,000,000,
    area 1200, highway distance 1000 and the text Kathmandu. *)
Definition scenarioPreferences : RecommendationPreferences :=
  {| pref_location := Some "Kathmandu"%string; pref_latitude := None;
     pref_longitude := None; pref_locationRadiusKm := None;
     pref_budget := Some 5000000; pref_roiPercent := None;
     pref_areaSqft := Some 1200; pref_maxDistanceFromHighway := Some 1000 |}.

(** The must-have set of the third scenario: minPrice 6,000,000. *)
Definition minPriceMustHave : RecommendationMustHave :=
  {| mh_location := None; mh_categoryId := None; mh_minPrice := Some 6000000;
     mh_maxPrice := None; mh_minRoi := None; mh_minArea := None;
     mh_maxDistanceFromHighway := None; mh_status := None |}.

(** ** The admin token of [src/utils/admin-auth.ts] *)

(** [s.replace(/c/g, empty)], which deletes every [c], and
    [s.replace(/a/g, b)], for single characters. *)
Fixpoint removeChar (c : ascii) (s : string) : string :=
  match s with
  | EmptyString => EmptyString
  | String x rest =>
      if Ascii.eqb x c then removeChar c rest else String x (removeChar c rest)
  end.

Fixpoint replaceChar (a b : ascii) (s : string) : string :=
  match s with
  | EmptyString => EmptyString
  | String x rest =>
      String (if Ascii.eqb x a then b else x) (replaceChar a b rest)
  end.

(** [s.split(sep)] for a separator of one character: never empty, and the
    empty string splits into one empty part. *)
Fixpoint splitOn (sep : ascii) (s : string) : list string :=
  match s with
  | EmptyString => [EmptyString]
  | String c rest =>
      if Ascii.eqb c sep then EmptyString :: splitOn sep rest
      else match splitOn sep rest with
           | first :: others => String c first :: others
           | [] => [String c EmptyString]
           end
  end.

(** [s.slice(n)] and [c.repeat(n)]. *)
Fixpoint dropString (n : nat) (s : string) : string :=
  match n, s with
  | O, _ => s
  | S n', EmptyString => EmptyString
  | S n', String _ rest => dropString n' rest
  end.

Fixpoint repeatChar (c : ascii) (n : nat) : string :=
  match n with
  | O => EmptyString
  | S n' => String c (repeatChar c n')
  end.

Definition TOKEN_TTL_SECONDS : Z := 60 * 60 * 8.

(** [Math.floor(Date.now() / 1000)], the clock reading [now] being in
    milliseconds. *)
Definition nowSeconds (now : R) : Z := Zfloor (now / 1000).

Record AuthConfig := {
  adminId : string;
  adminPassword : string;
  tokenSecret : string
}.

(** What [JSON.parse] makes of a token payload. *)
Record ParsedPayload := {
  parsed_sub : option string;
  parsed_exp : option R
}.

(** The answers of the auth routes and of the middleware. *)
Inductive AuthResponse :=
| Auth200Token (token : string)
| Auth200Authenticated
| Auth400 (message : string)
| Auth401 (message : string)
| AuthNext.

Section AdminAuth.

(** [process.env.ADMIN_ID], [ADMIN_PASSWORD] and [ADMIN_TOKEN_SECRET]. *)
Variable ADMIN_ID ADMIN_PASSWORD ADMIN_TOKEN_SECRET : option string.
(** [Buffer.from(s).toString("base64")] and
    [Buffer.from(s, "base64").toString("utf-8")]. *)
Variable Buffer_toBase64 : string -> string.
Variable Buffer_fromBase64 : string -> string.
(** [crypto.createHmac("sha256", secret).update(input).digest("base64")]. *)
Variable hmacSha256Base64 : string -> string -> string.
(** [JSON.stringify({ sub, exp })], and [JSON.parse] on a payload, [None]
    when it throws. *)
Variable JSON_stringify : string -> Z -> string.
Variable JSON_parse : string -> option ParsedPayload.

(** [value || fallback] on an environment variable. *)
Definition envOr (value : option string) (fallback : string) : string :=
  match value with
  | Some (String _ _ as v) => v
  | _ => fallback
  end.

Definition getAuthConfig : AuthConfig :=
  {| adminId := envOr ADMIN_ID "admin";
     adminPassword := envOr ADMIN_PASSWORD "admin123";
     tokenSecret := envOr ADMIN_TOKEN_SECRET "change-this-secret" |}.

Definition isValidAdminCredentials (id password : string) : bool :=
  (id =? adminId getAuthConfig)%string && (password =? adminPassword getAuthConfig)%string.

Definition base64UrlOf (base64 : string) : string :=
  replaceChar "/"%char "_"%char
    (replaceChar "+"%char "-"%char (removeChar "="%char base64)).

Definition toBase64Url (input : string) : string :=
  base64UrlOf (Buffer_toBase64 input).

Definition fromBase64Url (input : string) : string :=
  let normalized := replaceChar "_"%char "/"%char (replaceChar "-"%char "+"%char input) in
  let padded :=
    (normalized ++ repeatChar "="%char ((4 - (String.length normalized mod 4)) mod 4))%string in
  Buffer_fromBase64 padded.

Definition sign (input : string) : string :=
  base64UrlOf (hmacSha256Base64 (tokenSecret getAuthConfig) input).

Definition createAdminToken (id : string) (now : R) : string :=
  let payloadPart :=
    toBase64Url (JSON_stringify id (nowSeconds now + TOKEN_TTL_SECONDS)) in
  let signature := sign payloadPart in
  (payloadPart ++ "." ++ signature)%string.

(** [verifyAdminToken]: the subject of the token, or [None].  Comparing the
    two buffers by length and then by [timingSafeEqual] is comparing the two
    strings. *)
Definition verifyAdminToken (token : string) (now : R) : option string :=
  match splitOn "."%char token with
  | (String _ _ as payloadPart) :: (String _ _ as signature) :: _ =>
      if negb (signature =? sign payloadPart)%string then None
      else
        match JSON_parse (fromBase64Url payloadPart) with
        | Some parsed =>
            match parsed_sub parsed, parsed_exp parsed with
            | Some (String _ _ as sub), Some exp =>
                if JS.eq exp 0 then None
                else if JS.lt exp (IZR (nowSeconds now)) then None
                else Some sub
            | _, _ => None
            end
        | None => None
        end
  | _ => None
  end.

(** [requireAdminAuth] of [src/middleware/admin-auth.middleware.ts], on the
    [authorization] header. *)
Definition requireAdminAuth (authorization : option string) (now : R) : AuthResponse :=
  match authorization with
  | Some (String _ _ as authHeader) =>
      if prefix "Bearer " authHeader then
        match verifyAdminToken (dropString 7 authHeader) now with
        | Some _ => AuthNext
        | None => Auth401 "Unauthorized"
        end
      else Auth401 "Unauthorized"
  | _ => Auth401 "Unauthorized"
  end.

(** [POST /admin/login] and [GET /admin/verify] of the auth router. *)
Definition adminLogin (id password : option string) (now : R) : AuthResponse :=
  match id, password with
  | Some (String _ _ as id), Some (String _ _ as password) =>
      if negb (isValidAdminCredentials id password) then Auth401 "Invalid credentials"
      else Auth200Token (createAdminToken id now)
  | _, _ => Auth400 "ID and password are required"
  end.

Definition adminVerify (authorization : option string) (now : R) : AuthResponse :=
  match authorization with
  | Some (String _ _ as authHeader) =>
      if prefix "Bearer " authHeader then
        match verifyAdminToken (dropString 7 authHeader) now with
        | Some _ => Auth200Authenticated
        | None => Auth401 "Unauthorized"
        end
      else Auth401 "Unauthorized"
  | _ => Auth401 "Unauthorized"
  end.

End AdminAuth.

(** The character [c] occurs in [s]. *)
Fixpoint HasChar (c : ascii) (s : string) : Prop :=
  match s with
  | EmptyString => False
  | String x rest => x = c \/ HasChar c rest
  end.

Definition NoDot (s : string) : Prop := ~ HasChar "."%char s.

(** ** The property controller kept in [src/controller/location.controller.ts] *)

(** A form field that arrives as a number or as text. *)
Inductive NumOrString :=
| RawNumber (n : R)
| RawString (s : string).

Record IPropertyRequest := {
  ipr_title : string;
  ipr_categoryId : NumOrString;
  ipr_location : string;
  ipr_price : string;
  ipr_roi : string;
  ipr_status : string;
  ipr_area : string;
  ipr_areaNepali : option string;
  ipr_distanceFromHighway : option NumOrString;
  ipr_description : string
}.

Record NumericFields := {
  nf_priceNpr : R;
  nf_roiPercent : R;
  nf_areaSqft : R
}.

(** The object handed to [Property.create]. *)
Record PropertyFields := {
  pf_title : string;
  pf_categoryId : option R;
  pf_location : string;
  pf_price : string;
  pf_priceNpr : R;
  pf_roi : string;
  pf_roiPercent : R;
  pf_status : string;
  pf_area : string;
  pf_areaSqft : R;
  pf_areaNepali : option string;
  pf_distanceFromHighway : option R;
  pf_images : list string;
  pf_description : string
}.

Section PropertyController.

Variable Number_parseFloat : string -> option R.
(** [Number(value)]; [None] is NaN. *)
Variable Number_of : NumOrString -> option R.
(** [Property.create]: the stored row, or the message of the error. *)
Variable Property_create : PropertyFields -> string + PropertyFields.

(** A thrown [Error] is the [inl] of its message. *)
Definition parseNumericValue (raw : NumOrString) : string + R :=
  match raw with
  | RawNumber n => inr n
  | RawString text =>
      let normalized := JS.trim (removeCommas text) in
      match Number_parseFloat normalized with
      | None => inl ("Invalid numeric value: " ++ text)%string
      | Some parsed => inr parsed
      end
  end.

Definition buildNumericFields (request : IPropertyRequest) : string + NumericFields :=
  match parseNumericValue (RawString (ipr_price request)) with
  | inl e => inl e
  | inr price =>
      let priceNpr := JS.Math_round price in
      match parseNumericValue (RawString (ipr_roi request)) with
      | inl e => inl e
      | inr roiPercent =>
          match parseNumericValue (RawString (ipr_area request)) with
          | inl e => inl e
          | inr areaSqft =>
              if JS.lt priceNpr 0 || JS.lt roiPercent 0 || JS.lt areaSqft 0
              then inl "Numeric fields must be non-negative"%string
              else inr {| nf_priceNpr := priceNpr;
                          nf_roiPercent := roiPercent;
                          nf_areaSqft := areaSqft |}
          end
      end
  end.

Definition parseDistanceFromHighway (raw : option NumOrString) : string + option R :=
  match raw with
  | None => inr None
  | Some raw =>
      if match raw with
         | RawString text =>
             match JS.trim text with EmptyString => true | _ => false end
         | RawNumber _ => false
         end
      then inr None
      else
        match parseNumericValue raw with
        | inl e => inl e
        | inr parsed =>
            if JS.lt parsed 0
            then inl "Distance from highway cannot be negative"%string
            else inr (Some parsed)
        end
  end.

(** [create], lines 425-464: the status of the answer and the objects
    handed to [Property.create]; [imageFiles] are the names of the uploaded
    files.  Every error thrown on the way is caught and answered with 400. *)
Definition create (request : IPropertyRequest) (imageFiles : option (list string))
    : Z * list PropertyFields :=
  match imageFiles with
  | None | Some [] => (400%Z, [])
  | Some files =>
      let imagePaths := map (fun filename => ("/uploads/" ++ filename)%string) files in
      match buildNumericFields request with
      | inl _ => (400%Z, [])
      | inr numeric =>
          match parseDistanceFromHighway (ipr_distanceFromHighway request) with
          | inl _ => (400%Z, [])
          | inr distanceFromHighway =>
              let fields :=
                {| pf_title := ipr_title request;
                   pf_categoryId := Number_of (ipr_categoryId request);
                   pf_location := ipr_location request;
                   pf_price := ipr_price request;
                   pf_priceNpr := nf_priceNpr numeric;
                   pf_roi := ipr_roi request;
                   pf_roiPercent := nf_roiPercent numeric;
                   pf_status := ipr_status request;
                   pf_area := ipr_area request;
                   pf_areaSqft := nf_areaSqft numeric;
                   pf_areaNepali := ipr_areaNepali request;
                   pf_distanceFromHighway := distanceFromHighway;
                   pf_images := imagePaths;
                   pf_description := ipr_description request |} in
              match Property_create fields with
              | inl _ => (400%Z, [fields])
              | inr _ => (201%Z, [fields])
              end
          end
      end
  end.

End PropertyController.

(** ** Location autocomplete: [src/controller/location.controller.ts] and
    [autocompleteLocations] of [src/utils/geocoding.ts] *)

Record Prediction := {
  pred_description : option string;
  pred_place_id : option string
}.

Record PlacesResponse := {
  places_status : string;
  places_predictions : option (list Prediction)
}.

Record LocationSuggestion := {
  sug_placeId : string;
  sug_description : string
}.

Inductive AutocompleteResponse :=
| Autocomplete200 (data : list LocationSuggestion)
| Autocomplete500 (message : string).

Definition isNonEmpty (s : string) : bool :=
  match s with
  | EmptyString => false
  | String _ _ => true
  end.

Section Autocomplete.

Variable GOOGLE_MAPS_API_KEY : option string.
(** The Places service: its decoded answer to a query, [None] when the
    request fails or the answer is not JSON. *)
Variable placesAutocomplete : string -> option PlacesResponse.

Definition suggestionOf (item : Prediction) : LocationSuggestion :=
  {| sug_placeId := match pred_place_id item with Some (String _ _ as v) => v | _ => EmptyString end;
     sug_description :=
       match pred_description item with Some (String _ _ as v) => v | _ => EmptyString end |}.

(** [autocompleteLocations]: the suggestions, and the queries sent to the
    service. *)
Definition autocompleteLocations (query : string)
    : list LocationSuggestion * list string :=
  match GOOGLE_MAPS_API_KEY, JS.trim query with
  | Some (String _ _), String _ _ =>
      (match placesAutocomplete query with
       | Some parsed =>
           if negb (places_status parsed =? "OK")%string &&
              negb (places_status parsed =? "ZERO_RESULTS")%string
           then []
           else
             match places_predictions parsed with
             | Some predictions =>
                 filter (fun item => isNonEmpty (sug_placeId item) &&
                                     isNonEmpty (sug_description item))
                   (map suggestionOf predictions)
             | None => []
             end
       | None => []
       end, [query])
  | _, _ => ([], [])
  end.

(** [LocationController.autocomplete] on the query parameter [q]. *)
Definition autocomplete (q : JsValue) : AutocompleteResponse * list string :=
  match GOOGLE_MAPS_API_KEY with
  | Some (String _ _) =>
      let query :=
        match extractQueryString q with
        | Some text => JS.trim text
        | None => EmptyString
        end in
      if (String.length query <? 2)%nat then (Autocomplete200 [], [])
      else
        let (suggestions, requests) := autocompleteLocations query in
        (Autocomplete200 suggestions, requests)
  | _ => (Autocomplete500 "GOOGLE_MAPS_API_KEY is not configured on the backend", [])
  end.

End Autocomplete.

(** ** Further notions used by the additional properties *)

(** The activation test of each criterion block, as a boolean. *)
Definition isPositive (x : option R) : bool :=
  match x with
  | Some v => JS.gt v 0
  | None => false
  end.

Definition isActive (P : RecommendationPreferences) (c : Criterion) : bool :=
  match c with
  | CLocation =>
      match pref_latitude P, pref_longitude P with
      | Some _, Some _ => true
      | _, _ =>
          match pref_location P with
          | Some (String _ _) => true
          | _ => false
          end
      end
  | CPrice => isPositive (pref_budget P)
  | CRoi => isPositive (pref_roiPercent P)
  | CArea => isPositive (pref_areaSqft P)
  | CDistance => isPositive (pref_maxDistanceFromHighway P)
  end.

Definition allCriteria : list Criterion := [CLocation; CPrice; CRoi; CArea; CDistance].

Definition activeCriteria (P : RecommendationPreferences) : list Criterion :=
  filter (isActive P) allCriteria.

Definition totalWeight (cs : list Criterion) : R :=
  fold_right (fun c acc => criterionWeight c + acc) 0 cs.

(** The same preferences with another location text. *)
Definition withLocation (P : RecommendationPreferences) (text : option string)
    : RecommendationPreferences :=
  {| pref_location := text;
     pref_latitude := pref_latitude P;
     pref_longitude := pref_longitude P;
     pref_locationRadiusKm := pref_locationRadiusKm P;
     pref_budget := pref_budget P;
     pref_roiPercent := pref_roiPercent P;
     pref_areaSqft := pref_areaSqft P;
     pref_maxDistanceFromHighway := pref_maxDistanceFromHighway P |}.

(** A must-have set without any constraint. *)
Definition Unconstrained (M : RecommendationMustHave) : Prop :=
  (mh_location M = None \/ mh_location M = Some EmptyString) /\
  mh_categoryId M = None /\
  (mh_status M = None \/ mh_status M = Some EmptyString) /\
  mh_minPrice M = None /\ mh_maxPrice M = None /\ mh_minRoi M = None /\
  mh_minArea M = None /\ mh_maxDistanceFromHighway M = None.

(** A listing in Kathmandu with the given numeric fields, and preferences
    with the given numeric targets, for the examples. *)
Definition listingWith (price roi area distance lat lng : option R)
    : RecommendationProperty :=
  {| prop_id := None; prop_title := "Plot"; prop_location := "Kathmandu";
     prop_categoryId := 1; prop_status := "Available";
     prop_latitude := lat; prop_longitude := lng;
     prop_priceNpr := price; prop_roiPercent := roi;
     prop_areaSqft := area; prop_distanceFromHighway := distance |}.

Definition preferencesWith (budget roi area distance lat lng : option R)
    : RecommendationPreferences :=
  {| pref_location := None; pref_latitude := lat; pref_longitude := lng;
     pref_locationRadiusKm := None; pref_budget := budget;
     pref_roiPercent := roi; pref_areaSqft := area;
     pref_maxDistanceFromHighway := distance |}.

(** A string made of white space only. *)
Fixpoint AllSpaces (s : string) : Prop :=
  match s with
  | EmptyString => True
  | String c rest => JS.is_space c = true /\ AllSpaces rest
  end.

(** [t] is [s] without the white space at its two ends: [s] is [t] between
    two runs of white space, and [t] neither starts nor ends with white
    space. *)
Definition Trimmed (s t : string) : Prop :=
  (exists before after, s = (before ++ t ++ after)%string /\
                        AllSpaces before /\ AllSpaces after) /\
  (forall c rest, t = String c rest -> JS.is_space c = false) /\
  (forall front c, t = (front ++ String c EmptyString)%string ->
                   JS.is_space c = false).

(** A sanitized must-have set and preference set seen again as input. *)
Definition rawOfMustHave (M : RecommendationMustHave) : RawMustHave :=
  {| raw_mh_location := mh_location M;
     raw_mh_categoryId := ofNumber (mh_categoryId M);
     raw_mh_minPrice := ofNumber (mh_minPrice M);
     raw_mh_maxPrice := ofNumber (mh_maxPrice M);
     raw_mh_minRoi := ofNumber (mh_minRoi M);
     raw_mh_minArea := ofNumber (mh_minArea M);
     raw_mh_maxDistanceFromHighway := ofNumber (mh_maxDistanceFromHighway M);
     raw_mh_status := mh_status M |}.

Definition rawOfPreferences (P : RecommendationPreferences) : RawPreferences :=
  {| raw_pref_location := pref_location P;
     raw_pref_latitude := ofNumber (pref_latitude P);
     raw_pref_longitude := ofNumber (pref_longitude P);
     raw_pref_locationRadiusKm := ofNumber (pref_locationRadiusKm P);
     raw_pref_budget := ofNumber (pref_budget P);
     raw_pref_roiPercent := ofNumber (pref_roiPercent P);
     raw_pref_areaSqft := ofNumber (pref_areaSqft P);
     raw_pref_maxDistanceFromHighway := ofNumber (pref_maxDistanceFromHighway P) |}.

(** A GET request with the given query string. *)
Definition getRequest (query : string -> JsValue) : Request :=
  {| req_method := GET; req_query := query; req_body := emptyBody |}.

(** The [data] of a response; none unless the status is 200. *)
Definition responseData (r : Response) : list RankedItem :=
  match r with
  | Status200 data _ => data
  | _ => []
  end.

(** Stand-ins for the encoder, the decoder, the HMAC and the JSON codec in
    the examples: they delete the characters that must not occur, and the
    payload text is the subject itself, always read back with expiry 28800. *)
Definition exampleToBase64 : string -> string := removeChar "."%char.
Definition exampleFromBase64 : string -> string := removeChar "="%char.
Definition exampleHmac : string -> string -> string :=
  fun secret input => removeChar "."%char (secret ++ input).
Definition exampleStringify : string -> Z -> string := fun sub _ => sub.
Definition exampleParse : string -> option ParsedPayload :=
  fun text => Some {| parsed_sub := Some text; parsed_exp := Some 28800 |}.

(** ** The scoring stage in double precision *)

(** [src/utils/recommendation.ts] once more, on IEEE 754 binary64 numbers:
    the kernel's primitive floats, whose [+], [-], [*], [/] and [sqrt]
    round to nearest, ties to even, as JavaScript's do, and which have
    NaN, the two infinities and the two zeros.  It is the embedding to turn
    to where rounding or a NaN decides what the code returns; the records
    and functions keep the names they have above. *)
Module Binary64.
Import Floats.
#[local] Open Scope float_scope.
#[local] Set Warnings "-inexact-float".

(** *** Built-ins *)

Definition Math_PI : float := 3.141592653589793.
Definition Math_abs (x : float) : float := abs x.
Definition Math_sqrt (x : float) : float := sqrt x.

(** NaN, an infinity, a zero, or a number from 2^52 on: the doubles that
    [Math.floor] and [Math.round] return as they are. *)
Definition isIntegral (x : float) : bool :=
  is_nan x || is_infinity x || is_zero x || (0x1p52 <=? abs x).

(** [Math.floor].  Below 2^52, adding and taking away 2^52 rounds [|x|] to
    a nearest whole number, which is then put on the right side of [x]. *)
Definition Math_floor (x : float) : float :=
  if isIntegral x then x
  else
    let t := (abs x + 0x1p52) - 0x1p52 in
    if 0 <? x then (if x <? t then t - 1 else t)
    else - (if t <? abs x then t + 1 else t).

(** [Math.round]: the nearest whole number, a half going up; the result
    is -0 for [x] in [-0.5, 0). *)
Definition Math_round (x : float) : float :=
  if isIntegral x then x
  else
    let f := Math_floor x in
    let r := if x - f <? 0.5 then f else f + 1 in
    if is_zero r && get_sign x then -0 else r.

(** [Math.max] of two arguments: NaN when either is NaN, and +0 above -0. *)
Definition Math_max (a b : float) : float :=
  if is_nan a || is_nan b then nan
  else if a <? b then b
  else if b <? a then a
  else if get_sign a then b else a.

(** *** Data model *)

Record RecommendationPreferences := {
  pref_location : option string;
  pref_latitude : option float;
  pref_longitude : option float;
  pref_locationRadiusKm : option float;
  pref_budget : option float;
  pref_roiPercent : option float;
  pref_areaSqft : option float;
  pref_maxDistanceFromHighway : option float
}.

Record RecommendationProperty := {
  prop_id : option float;
  prop_title : string;
  prop_location : string;
  prop_categoryId : float;
  prop_status : string;
  prop_latitude : option float;
  prop_longitude : option float;
  prop_priceNpr : option float;
  prop_roiPercent : option float;
  prop_areaSqft : option float;
  prop_distanceFromHighway : option float
}.

Inductive Reason :=
| LocationScoredByDistance (distanceKm radiusKm : float)
| LocationFallbackMatched (preferred : string)
| LocationFallbackNotMatched (preferred : string)
| LocationCoordinatesMissing
| LocationTextMatched (preferred : string)
| LocationTextNotMatched (preferred : string)
| PriceMissing
| PriceScored (budget : float)
| RoiMissing
| RoiScored (preferred : float)
| AreaMissing
| AreaScored (preferred : float)
| DistanceMissing
| DistanceScored (preferredMax : float).

Record RecommendationExplanation := {
  reason : Reason;
  points : float
}.

Record RecommendationScore := {
  score : float;
  maxPossible : float;
  matchPercentage : float;
  explanation : list RecommendationExplanation
}.

Module WEIGHTS.
Definition location : float := 25.
Definition price : float := 30.
Definition roi : float := 15.
Definition area : float := 15.
Definition distance : float := 15.
End WEIGHTS.

Definition round2 (value : float) : float := Math_round (value * 100) / 100.

Definition safeRatioScore (weight deltaRatio : float) : float :=
  let score := weight * Math_max 0 (1 - deltaRatio) in
  round2 score.

Record ScoreState := {
  st_score : float;
  st_maxPossible : float;
  st_explanation : list RecommendationExplanation
}.

Definition initialState : ScoreState :=
  {| st_score := 0; st_maxPossible := 0; st_explanation := [] |}.

Definition award (weight : float) (r : Reason) (pts : float) (st : ScoreState)
    : ScoreState :=
  {| st_score := st_score st + pts;
     st_maxPossible := st_maxPossible st + weight;
     st_explanation := st_explanation st ++ [ {| reason := r; points := pts |} ] |}.

Definition radiusKmOf (preferences : RecommendationPreferences) : float :=
  match pref_locationRadiusKm preferences with
  | Some r => if 0 <? r then r else 10
  | None => 10
  end.

Definition textMatched (property : RecommendationProperty) (preferred : string) : bool :=
  JS.includes (JS.toLowerCase (prop_location property)) (JS.toLowerCase preferred).

Definition pricePoints (price : option float) (budget : float) : float :=
  match price with
  | None => 0
  | Some price => safeRatioScore WEIGHTS.price (Math_abs (price - budget) / budget)
  end.

(** Lines 227-245. *)
Definition scorePrice
    (property : RecommendationProperty) (preferences : RecommendationPreferences)
    (st : ScoreState) : ScoreState :=
  match pref_budget preferences with
  | Some budget =>
      if 0 <? budget then
        let price := prop_priceNpr property in
        award WEIGHTS.price
          (match price with None => PriceMissing | Some _ => PriceScored budget end)
          (pricePoints price budget) st
      else st
  | None => st
  end.

Definition roiPoints (roi : option float) (preferred : float) : float :=
  match roi with
  | None => 0
  | Some roi =>
      if preferred <=? roi then WEIGHTS.roi
      else round2 (WEIGHTS.roi * Math_max 0 (roi / preferred))
  end.

(** Lines 247-265. *)
Definition scoreRoi
    (property : RecommendationProperty) (preferences : RecommendationPreferences)
    (st : ScoreState) : ScoreState :=
  match pref_roiPercent preferences with
  | Some preferred =>
      if 0 <? preferred then
        let roi := prop_roiPercent property in
        award WEIGHTS.roi
          (match roi with None => RoiMissing | Some _ => RoiScored preferred end)
          (roiPoints roi preferred) st
      else st
  | None => st
  end.

Definition areaPoints (area : option float) (preferred : float) : float :=
  match area with
  | None => 0
  | Some area => safeRatioScore WEIGHTS.area (Math_abs (area - preferred) / preferred)
  end.

(** Lines 267-285. *)
Definition scoreArea
    (property : RecommendationProperty) (preferences : RecommendationPreferences)
    (st : ScoreState) : ScoreState :=
  match pref_areaSqft preferences with
  | Some preferred =>
      if 0 <? preferred then
        let area := prop_areaSqft property in
        award WEIGHTS.area
          (match area with None => AreaMissing | Some _ => AreaScored preferred end)
          (areaPoints area preferred) st
      else st
  | None => st
  end.

Definition distancePoints (distance : option float) (preferredMax : float) : float :=
  match distance with
  | None => 0
  | Some distance =>
      if distance <=? preferredMax then WEIGHTS.distance
      else safeRatioScore WEIGHTS.distance ((distance - preferredMax) / preferredMax)
  end.

(** Lines 287-315. *)
Definition scoreDistance
    (property : RecommendationProperty) (preferences : RecommendationPreferences)
    (st : ScoreState) : ScoreState :=
  match pref_maxDistanceFromHighway preferences with
  | Some preferredMax =>
      if 0 <? preferredMax then
        let distance := prop_distanceFromHighway property in
        award WEIGHTS.distance
          (match distance with None => DistanceMissing | Some _ => DistanceScored preferredMax end)
          (distancePoints distance preferredMax) st
      else st
  | None => st
  end.

(** The points of a sequence of explanation entries added up from the
    left, starting from 0, as [score += points] does block after block. *)
Definition totalPoints (entries : list RecommendationExplanation) : float :=
  fold_left (fun total e => total + points e) entries 0.

(** The guard of each criterion block. *)
Definition isPositive (x : option float) : bool :=
  match x with
  | Some v => 0 <? v
  | None => false
  end.

Definition locationActive (preferences : RecommendationPreferences) : bool :=
  match pref_latitude preferences, pref_longitude preferences with
  | Some _, Some _ => true
  | _, _ =>
      match pref_location preferences with
      | Some (String _ _) => true
      | _ => false
      end
  end.

(** [maxPossible] after the five blocks, from their guards. *)
Definition totalOf (location price roi area distance : bool) : float :=
  let add (active : bool) (weight total : float) : float :=
    if active then total + weight else total in
  add distance WEIGHTS.distance
    (add area WEIGHTS.area
       (add roi WEIGHTS.roi
          (add price WEIGHTS.price
             (add location WEIGHTS.location 0)))).

(** *** The functions that call [Math.sin], [Math.cos] and [Math.atan2]

    ECMAScript fixes the results of these three at NaN, at the infinities
    and at the zeros, and leaves them implementation-approximated
    elsewhere.  The approximated parts are parameters. *)
Section Approximated.

Variables sin_approx cos_approx : float -> float.
Variable atan2_approx : float -> float -> float.

Definition Math_sin (x : float) : float :=
  if is_nan x || is_infinity x then nan
  else if is_zero x then x
  else sin_approx x.

Definition Math_cos (x : float) : float :=
  if is_nan x || is_infinity x then nan
  else if is_zero x then 1
  else cos_approx x.

Definition Math_atan2 (y x : float) : float :=
  if is_nan y || is_nan x then nan else atan2_approx y x.

Definition toRad (deg : float) : float := (deg * Math_PI) / 180.

(** The local [a] of [haversineKm], lines 76-81. *)
Definition haversineTerm (lat1 lng1 lat2 lng2 : float) : float :=
  let dLat := toRad (lat2 - lat1) in
  let dLng := toRad (lng2 - lng1) in
  Math_sin (dLat / 2) * Math_sin (dLat / 2) +
  Math_cos (toRad lat1) *
    Math_cos (toRad lat2) *
    Math_sin (dLng / 2) *
    Math_sin (dLng / 2).

Definition haversineKm (lat1 lng1 lat2 lng2 : float) : float :=
  let earthRadiusKm := 6371 in
  let a := haversineTerm lat1 lng1 lat2 lng2 in
  let c := 2 * Math_atan2 (Math_sqrt a) (Math_sqrt (1 - a)) in
  earthRadiusKm * c.

(** Lines 161-225. *)
Definition scoreLocation
    (property : RecommendationProperty) (preferences : RecommendationPreferences)
    (st : ScoreState) : ScoreState :=
  match pref_latitude preferences, pref_longitude preferences with
  | Some prefLat, Some prefLng =>
      let radiusKm := radiusKmOf preferences in
      match prop_latitude property, prop_longitude property with
      | Some lat, Some lng =>
          let distanceKm := haversineKm prefLat prefLng lat lng in
          let pts := safeRatioScore WEIGHTS.location (distanceKm / radiusKm) in
          award WEIGHTS.location
            (LocationScoredByDistance (round2 distanceKm) radiusKm) pts st
      | _, _ =>
          match pref_location preferences with
          | Some (String _ _ as preferred) =>
              let matched := textMatched property preferred in
              let pts := if matched then WEIGHTS.location else 0 in
              award WEIGHTS.location
                (if matched then LocationFallbackMatched preferred
                 else LocationFallbackNotMatched preferred) pts st
          | _ => award WEIGHTS.location LocationCoordinatesMissing 0 st
          end
      end
  | _, _ =>
      match pref_location preferences with
      | Some (String _ _ as preferred) =>
          let matched := textMatched property preferred in
          let pts := if matched then WEIGHTS.location else 0 in
          award WEIGHTS.location
            (if matched then LocationTextMatched preferred
             else LocationTextNotMatched preferred) pts st
      | _ => st
      end
  end.

Definition scoreCriteria
    (property : RecommendationProperty) (preferences : RecommendationPreferences)
    : ScoreState :=
  scoreDistance property preferences
    (scoreArea property preferences
       (scoreRoi property preferences
          (scorePrice property preferences
             (scoreLocation property preferences initialState)))).

Definition scoreProperty
    (property : RecommendationProperty) (preferences : RecommendationPreferences)
    : RecommendationScore :=
  let st := scoreCriteria property preferences in
  let matchPercentage :=
    if st_maxPossible st =? 0 then 0
    else Math_round ((st_score st / st_maxPossible st) * 100) in
  {| score := round2 (st_score st);
     maxPossible := st_maxPossible st;
     matchPercentage := matchPercentage;
     explanation := st_explanation st |}.

End Approximated.

(** The rounded term [a] of [haversineKm] exceeds 1 at the coordinates of
    the preferences and of the listing, so that [1 - a] is negative. *)
Definition TermExceedsOne (sin_approx cos_approx : float -> float)
    (L : RecommendationProperty) (P : RecommendationPreferences) : Prop :=
  exists prefLat prefLng lat lng,
    pref_latitude P = Some prefLat /\ pref_longitude P = Some prefLng /\
    prop_latitude L = Some lat /\ prop_longitude L = Some lng /\
    (1 - haversineTerm sin_approx cos_approx prefLat prefLng lat lng <? 0) = true.

(** The budget is [Infinity] and the listing has a price. *)
Definition InfiniteBudget
    (L : RecommendationProperty) (P : RecommendationPreferences) : Prop :=
  pref_budget P = Some infinity /\ exists price, prop_priceNpr L = Some price.

(** *** One implementation of the approximated functions

    The algorithms of fdlibm, from which V8 took its [Math.sin], [Math.cos]
    and [Math.atan2]: k_sin.c, k_cos.c, e_rem_pio2.c, s_sin.c, s_cos.c,
    s_atan.c and e_atan2.c, with each test on the high word of a double
    written as the comparison it stands for.  Arguments beyond 2^19 pi,
    which fdlibm reduces with a table of the bits of 2/pi, go through the
    same reduction as the smaller ones here and lose accuracy. *)
Module Fdlibm.

Definition kernel_sin (x y : float) (iy : bool) : float :=
  if abs x <? 0x1p-27 then x
  else
    let z := x * x in
    let v := z * x in
    let r :=
      8.33333333332248946124e-03 +
      z * (-1.98412698298579493134e-04 +
      z * (2.75573137070700676789e-06 +
      z * (-2.50507602534068634195e-08 +
      z * 1.58969099521155010221e-10))) in
    if iy then x - ((z * (0.5 * y - v * r) - y) - v * -1.66666666666666324348e-01)
    else x + v * (-1.66666666666666324348e-01 + z * r).

(** [|x|] with the low 32 bits of its significand cleared: the double
    whose high word is that of [|x|] and whose low word is 0. *)
Definition highWord (x : float) : float :=
  let (m, e) := frshiftexp (abs x) in
  ldshiftexp (Math_floor (m * 0x1p21) / 0x1p21) e.

Definition kernel_cos (x y : float) : float :=
  if abs x <? 0x1p-27 then 1
  else
    let z := x * x in
    let r :=
      z * (4.16666666666666019037e-02 +
      z * (-1.38888888888741095749e-03 +
      z * (2.48015872894767294178e-05 +
      z * (-2.75573143513906633035e-07 +
      z * (2.08757232129817482790e-09 +
      z * -1.13596475577881948265e-11))))) in
    if abs x <? 0x1.33333p-2 then 1 - (0.5 * z - (z * r - x * y))
    else
      let qx := if 0x1.90001p-1 <=? abs x then 0.28125 else highWord x / 4 in
      let hz := 0.5 * z - qx in
      let a := 1 - qx in
      a - (hz - (z * r - x * y)).

(** The exponent field of [x]. *)
Definition exponentField (x : float) : Z :=
  if is_zero x then 0%Z else Z.max 0 (snd (Z.frexp x) + 1022)%Z.

Definition pio2_1 : float := 1.57079632673412561417e+00.
Definition pio2_1t : float := 6.07710050650619224932e-11.
Definition pio2_2 : float := 6.07710050630396597660e-11.
Definition pio2_2t : float := 2.02226624879595063154e-21.
Definition pio2_3 : float := 2.02226624871116645580e-21.
Definition pio2_3t : float := 8.47842766036889956997e-32.
Definition invpio2 : float := 6.36619772367581382433e-01.

(** [x - n * (pi/2)] as a head and a tail, with [n mod 4]. *)
Definition rem_pio2 (x : float) : float * (float * float) :=
  if abs x <? 0x1.2d97cp+1 then
    let nearHalfPi := (0x1.921fbp+0 <=? abs x) && (abs x <? 0x1.921fcp+0) in
    if 0 <? x then
      let z := x - pio2_1 in
      if nearHalfPi then
        let z := z - pio2_2 in
        let y0 := z - pio2_2t in (1, (y0, (z - y0) - pio2_2t))
      else
        let y0 := z - pio2_1t in (1, (y0, (z - y0) - pio2_1t))
    else
      let z := x + pio2_1 in
      if nearHalfPi then
        let z := z + pio2_2 in
        let y0 := z + pio2_2t in (3, (y0, (z - y0) + pio2_2t))
      else
        let y0 := z + pio2_1t in (3, (y0, (z - y0) + pio2_1t))
  else
    let t := abs x in
    let fn := Math_floor (t * invpio2 + 0.5) in
    let r := t - fn * pio2_1 in
    let w := fn * pio2_1t in
    let j := exponentField x in
    let '(r, w, y0) :=
      if (fn <? 32) && negb (highWord t =? highWord (fn * (Math_PI / 2)))
      then (r, w, r - w)
      else if (j - exponentField (r - w) <=? 16)%Z then (r, w, r - w)
      else
        let t := r in
        let w := fn * pio2_2 in
        let r := t - w in
        let w := fn * pio2_2t - ((t - r) - w) in
        if (j - exponentField (r - w) <=? 49)%Z then (r, w, r - w)
        else
          let t := r in
          let w := fn * pio2_3 in
          let r := t - w in
          let w := fn * pio2_3t - ((t - r) - w) in
          (r, w, r - w) in
    let y1 := (r - y0) - w in
    let q := fn - 4 * Math_floor (fn / 4) in
    if 0 <? x then (q, (y0, y1))
    else ((if is_zero q then 0 else 4 - q), (- y0, - y1)).

Definition sin (x : float) : float :=
  if is_nan x || is_infinity x then x - x
  else if abs x <? 0x1.921fcp-1 then kernel_sin x 0 false
  else
    let '(q, (y0, y1)) := rem_pio2 x in
    if q =? 0 then kernel_sin y0 y1 true
    else if q =? 1 then kernel_cos y0 y1
    else if q =? 2 then - kernel_sin y0 y1 true
    else - kernel_cos y0 y1.

Definition cos (x : float) : float :=
  if is_nan x || is_infinity x then x - x
  else if abs x <? 0x1.921fcp-1 then kernel_cos x 0
  else
    let '(q, (y0, y1)) := rem_pio2 x in
    if q =? 0 then kernel_cos y0 y1
    else if q =? 1 then - kernel_sin y0 y1 true
    else if q =? 2 then - kernel_cos y0 y1
    else kernel_sin y0 y1 true.

Definition atanPolynomial (x : float) : float :=
  let z := x * x in
  let w := z * z in
  let s1 :=
    z * (3.33333333333329318027e-01 +
    w * (1.42857142725034663711e-01 +
    w * (9.09088713343650656196e-02 +
    w * (6.66107313738753120669e-02 +
    w * (4.97687799461593236017e-02 +
    w * 1.62858201153657823623e-02))))) in
  let s2 :=
    w * (-1.99999999998764832476e-01 +
    w * (-1.11111104054623557880e-01 +
    w * (-7.69187620504482999495e-02 +
    w * (-5.83357013379057348645e-02 +
    w * -3.65315727442169155270e-02)))) in
  x * (s1 + s2).

Definition atan (x : float) : float :=
  let reduced (hi lo t : float) : float :=
    let z := hi - ((atanPolynomial t - lo) - t) in
    if get_sign x then - z else z in
  if is_nan x then x + x
  else if 0x1p66 <=? abs x then
    (if get_sign x
     then - 1.57079632679489655800e+00 - 6.12323399573676603587e-17
     else 1.57079632679489655800e+00 + 6.12323399573676603587e-17)
  else if abs x <? 0.4375 then
    (if abs x <? 0x1p-29 then x else x - atanPolynomial x)
  else if abs x <? 0.6875 then
    reduced 4.63647609000806093515e-01 2.26987774529616870924e-17
            ((2 * abs x - 1) / (2 + abs x))
  else if abs x <? 1.1875 then
    reduced 7.85398163397448278999e-01 3.06161699786838301793e-17
            ((abs x - 1) / (abs x + 1))
  else if abs x <? 2.4375 then
    reduced 9.82793723247329054082e-01 1.39033110312309984516e-17
            ((abs x - 1.5) / (1 + 1.5 * abs x))
  else
    reduced 1.57079632679489655800e+00 6.12323399573676603587e-17
            (-1 / abs x).

Definition atan2 (y x : float) : float :=
  let pi_lo := 1.2246467991473531772e-16 in
  let pi_o_2 := Math_PI / 2 in
  let pi_o_4 := Math_PI / 4 in
  let signed (z : float) : float := if get_sign y then - z else z in
  if is_nan x || is_nan y then x + y
  else if x =? 1 then atan y
  else if is_zero y then (if get_sign x then signed Math_PI else y)
  else if is_zero x then signed pi_o_2
  else if is_infinity x then
    (if is_infinity y
     then (if get_sign x then signed (3 * pi_o_4) else signed pi_o_4)
     else (if get_sign x then signed Math_PI else signed 0))
  else if is_infinity y then signed pi_o_2
  else
    let k := (exponentField y - exponentField x)%Z in
    if (60 <? k)%Z then signed (pi_o_2 + 0.5 * pi_lo)
    else
      let z := if get_sign x && (k <? -60)%Z then 0 else atan (abs (y / x)) in
      if get_sign x
      then (if get_sign y then (z - pi_lo) - Math_PI else Math_PI - (z - pi_lo))
      else signed z.

End Fdlibm.

(** *** Values used in the examples *)

Definition listingAt (lat lng price : option float) : RecommendationProperty :=
  {| prop_id := None; prop_title := "Plot"; prop_location := "Galapagos";
     prop_categoryId := 1; prop_status := "Available";
     prop_latitude := lat; prop_longitude := lng;
     prop_priceNpr := price; prop_roiPercent := None;
     prop_areaSqft := None; prop_distanceFromHighway := None |}.

Definition preferencesAt (lat lng budget : option float) : RecommendationPreferences :=
  {| pref_location := None; pref_latitude := lat; pref_longitude := lng;
     pref_locationRadiusKm := None; pref_budget := budget;
     pref_roiPercent := None; pref_areaSqft := None;
     pref_maxDistanceFromHighway := None |}.

End Binary64.

(** ** Comparisons *)

Lemma lt_true a b : JS.lt a b = true <-> a < b.
Proof. unfold JS.lt. destruct (Rlt_dec a b); split; intros; try easy. Qed.

Lemma lt_false a b : JS.lt a b = false <-> b <= a.
Proof. unfold JS.lt. destruct (Rlt_dec a b); split; intros; try easy; lra. Qed.

Lemma le_true a b : JS.le a b = true <-> a <= b.
Proof. unfold JS.le. destruct (Rle_dec a b); split; intros; try easy. Qed.

Lemma le_false a b : JS.le a b = false <-> b < a.
Proof. unfold JS.le. destruct (Rle_dec a b); split; intros; try easy; lra. Qed.

Lemma gt_true a b : JS.gt a b = true <-> b < a.
Proof. apply lt_true. Qed.

Lemma gt_false a b : JS.gt a b = false <-> a <= b.
Proof. apply lt_false. Qed.

Lemma ge_true a b : JS.ge a b = true <-> b <= a.
Proof. apply le_true. Qed.

Lemma ge_false a b : JS.ge a b = false <-> a < b.
Proof. apply le_false. Qed.

Lemma eq_true a b : JS.eq a b = true <-> a = b.
Proof. unfold JS.eq. destruct (Req_dec_T a b); split; intros; try easy. Qed.

Lemma eq_false a b : JS.eq a b = false <-> a <> b.
Proof. unfold JS.eq. destruct (Req_dec_T a b); split; intros; try easy. Qed.

(** Case analysis on a comparison, leaving its meaning in the context. *)
Ltac cmp_cases :=
  match goal with
  | |- context [JS.lt ?a ?b] =>
      let E := fresh "E" in destruct (JS.lt a b) eqn:E;
      [apply lt_true in E | apply lt_false in E]
  | |- context [JS.le ?a ?b] =>
      let E := fresh "E" in destruct (JS.le a b) eqn:E;
      [apply le_true in E | apply le_false in E]
  | |- context [JS.gt ?a ?b] =>
      let E := fresh "E" in destruct (JS.gt a b) eqn:E;
      [apply gt_true in E | apply gt_false in E]
  | |- context [JS.ge ?a ?b] =>
      let E := fresh "E" in destruct (JS.ge a b) eqn:E;
      [apply ge_true in E | apply ge_false in E]
  | |- context [JS.eq ?a ?b] =>
      let E := fresh "E" in destruct (JS.eq a b) eqn:E;
      [apply eq_true in E | apply eq_false in E]
  end.

(** ** Rounding *)

Lemma Math_round_int (z : Z) : JS.Math_round (IZR z) = IZR z.
Proof.
  unfold JS.Math_round. f_equal. apply Zfloor_eq. lra.
Qed.

Lemma Math_round_le x y : x <= y -> JS.Math_round x <= JS.Math_round y.
Proof.
  intros H. unfold JS.Math_round. apply IZR_le, Zfloor_le. lra.
Qed.

Lemma round2_le x y : x <= y -> round2 x <= round2 y.
Proof.
  intros H. unfold round2.
  apply Rmult_le_compat_r; [lra|]. apply Math_round_le. lra.
Qed.

(** A number with at most two decimals is its own rounding. *)
Lemma round2_hundredths (z : Z) : round2 (IZR z / 100) = IZR z / 100.
Proof.
  unfold round2. replace (IZR z / 100 * 100) with (IZR z) by field.
  now rewrite Math_round_int.
Qed.

Lemma round2_int (z : Z) : round2 (IZR z) = IZR z.
Proof.
  replace (IZR z) with (IZR (z * 100) / 100) at 1 by (rewrite mult_IZR; field).
  rewrite round2_hundredths, mult_IZR. field.
Qed.

Lemma round2_0 : round2 0 = 0.
Proof. exact (round2_int 0). Qed.

(** [round2] rounds to two decimals, and is the only function that does. *)
Lemma round2_RoundedTo2 x : RoundedTo2 x (round2 x).
Proof.
  unfold RoundedTo2, round2, JS.Math_round. split.
  - eexists. reflexivity.
  - destruct (Zfloor_bound (x * 100 + / 2)) as [Hlo Hhi]. lra.
Qed.

Lemma RoundedTo2_unique x y1 y2 : RoundedTo2 x y1 -> RoundedTo2 x y2 -> y1 = y2.
Proof.
  intros [[k1 ->] [L1 U1]] [[k2 ->] [L2 U2]].
  assert (IZR k1 < IZR k2 + 1) as H1 by lra.
  assert (IZR k2 < IZR k1 + 1) as H2 by lra.
  rewrite <- plus_IZR in H1, H2. apply lt_IZR in H1, H2.
  replace k2 with k1 by lia. reflexivity.
Qed.

Lemma round2_nonneg x : 0 <= x -> 0 <= round2 x.
Proof. intros H. rewrite <- round2_0. now apply round2_le. Qed.

Lemma round2_upper x (z : Z) : x <= IZR z -> round2 x <= IZR z.
Proof. intros H. rewrite <- (round2_int z). now apply round2_le. Qed.

Lemma Math_round_bounds x (lo hi : Z) :
  IZR lo <= x <= IZR hi -> IZR lo <= JS.Math_round x <= IZR hi.
Proof.
  intros [H1 H2]. split.
  - rewrite <- (Math_round_int lo). now apply Math_round_le.
  - rewrite <- (Math_round_int hi). now apply Math_round_le.
Qed.

(** [safeRatioScore] stays within [0, weight] for a ratio that is not
    negative, and is 0 from ratio 1 on. *)
Lemma safeRatioScore_bounds (w : Z) ratio :
  (0 <= w)%Z -> 0 <= ratio ->
  0 <= safeRatioScore (IZR w) ratio <= IZR w.
Proof.
  intros Hw Hr. apply IZR_le in Hw. unfold safeRatioScore, JS.Math_max.
  assert (0 <= Rmax 0 (1 - ratio) <= 1) as [H0 H1].
  { split; [apply Rmax_l | apply Rmax_lub; lra]. }
  split.
  - apply round2_nonneg. nra.
  - apply round2_upper. nra.
Qed.

Lemma safeRatioScore_floor weight ratio :
  1 <= ratio -> safeRatioScore weight ratio = 0.
Proof.
  intros H. unfold safeRatioScore, JS.Math_max.
  rewrite Rmax_left by lra. rewrite Rmult_0_r. apply round2_0.
Qed.

Lemma safeRatioScore_antitone weight r1 r2 :
  0 <= weight -> r1 <= r2 ->
  safeRatioScore weight r2 <= safeRatioScore weight r1.
Proof.
  intros Hw H. unfold safeRatioScore, JS.Math_max. apply round2_le.
  apply Rmult_le_compat_l; [assumption|].
  apply Rle_max_compat_l. lra.
Qed.

(** ** The haversine distance *)

Lemma atan_nonneg x : 0 <= x -> 0 <= atan x.
Proof.
  intros [H | <-].
  - left. rewrite <- atan_0. now apply atan_increasing.
  - rewrite atan_0. lra.
Qed.

Lemma Math_atan2_nonneg y x : 0 <= y -> 0 <= JS.Math_atan2 y x.
Proof.
  intros Hy. unfold JS.Math_atan2. pose proof PI_RGT_0 as HPI.
  repeat cmp_cases; try lra.
  - apply atan_nonneg. apply Rmult_le_pos; [assumption|].
    left. now apply Rinv_0_lt_compat.
  - pose proof (atan_bound (y / x)). lra.
Qed.

Lemma haversineKm_formula lat1 lng1 lat2 lng2 :
  haversineKm lat1 lng1 lat2 lng2 = greatCircleKm lat1 lng1 lat2 lng2.
Proof.
  unfold haversineKm, greatCircleKm, haversineA, radians, Rsqr,
    JS.Math_sin, JS.Math_cos, JS.Math_sqrt, JS.Math_PI.
  cbv zeta.
  set (a := _ + _). set (b := _ + _).
  assert (a = b) as -> by (subst a b; ring).
  ring.
Qed.

Lemma haversineKm_nonneg lat1 lng1 lat2 lng2 :
  0 <= haversineKm lat1 lng1 lat2 lng2.
Proof.
  unfold haversineKm. cbv zeta.
  match goal with
  | |- 0 <= 6371 * (2 * JS.Math_atan2 ?y ?x) =>
      pose proof (Math_atan2_nonneg y x (sqrt_pos _))
  end.
  lra.
Qed.

Lemma sqrt_1_plus_sqr_pos t : 0 < sqrt (1 + t²).
Proof. apply sqrt_lt_R0. pose proof (Rle_0_sqr t). lra. Qed.

Lemma norm_factor x y :
  x <> 0 -> sqrt (x² + y²) = Rabs x * sqrt (1 + (y / x)²).
Proof.
  intros Hx. rewrite <- sqrt_Rsqr_abs, <- sqrt_mult.
  - f_equal. unfold Rsqr. field. exact Hx.
  - apply Rle_0_sqr.
  - pose proof (Rle_0_sqr (y / x)). lra.
Qed.

(** [Math_atan2 y x] is the polar angle of the point [(x, y)]: it lies in
    (-PI, PI] and, away from the origin, gives back the point from its
    distance to the origin. *)
Lemma Math_atan2_polar y x :
  x <> 0 \/ y <> 0 ->
  sqrt (x² + y²) * cos (JS.Math_atan2 y x) = x /\
  sqrt (x² + y²) * sin (JS.Math_atan2 y x) = y.
Proof.
  intros Hne. unfold JS.Math_atan2.
  pose proof (sqrt_1_plus_sqr_pos (y / x)) as Hs.
  cmp_cases; [|cmp_cases; [cmp_cases|]].
  - rewrite norm_factor, Rabs_pos_eq, cos_atan, sin_atan by lra.
    split; field; lra.
  - rewrite norm_factor, Rabs_left, neg_cos, neg_sin, cos_atan, sin_atan by lra.
    split; field; lra.
  - rewrite norm_factor, Rabs_left, cos_minus, sin_minus, cos_PI, sin_PI,
      cos_atan, sin_atan by lra.
    split; field; lra.
  - assert (x = 0) as -> by lra.
    rewrite Rsqr_0, Rplus_0_l, sqrt_Rsqr_abs.
    repeat cmp_cases.
    + rewrite Rabs_pos_eq, cos_PI2, sin_PI2 by lra. split; ring.
    + rewrite Rabs_left, cos_neg, sin_neg, cos_PI2, sin_PI2 by lra. split; ring.
    + exfalso. destruct Hne; lra.
Qed.

Lemma Math_atan2_range y x : - PI < JS.Math_atan2 y x <= PI.
Proof.
  unfold JS.Math_atan2. pose proof PI_RGT_0 as HPI.
  pose proof (atan_bound (y / x)) as Hb.
  repeat cmp_cases; try lra.
  - assert (atan (y / x) <= 0); [|lra].
    rewrite <- atan_0. destruct E1 as [E1 | <-].
    + left. apply atan_increasing.
      apply Ropp_lt_cancel. rewrite Ropp_0.
      replace (- (y / x)) with (y * / - x) by (field; lra).
      apply Rmult_lt_0_compat; [assumption|]. apply Rinv_0_lt_compat. lra.
    + right. f_equal. field. lra.
  - assert (0 < atan (y / x)); [|lra].
    rewrite <- atan_0. apply atan_increasing.
    replace (y / x) with (- y * / - x) by (field; lra).
    apply Rmult_lt_0_compat; [lra|]. apply Rinv_0_lt_compat. lra.
Qed.

Lemma sin_half_sqr u : (sin (u / 2))² = (1 - cos u) / 2.
Proof.
  replace u with (2 * (u / 2)) at 2 by field.
  rewrite cos_2a_sin. unfold Rsqr. field.
Qed.

Lemma haversineA_cosine lat1 lng1 lat2 lng2 :
  haversineA lat1 lng1 lat2 lng2 = (1 - centralCosine lat1 lng1 lat2 lng2) / 2.
Proof.
  unfold haversineA, centralCosine. rewrite !sin_half_sqr.
  replace (radians (lat2 - lat1)) with (radians lat2 - radians lat1)
    by (unfold radians; field).
  rewrite cos_minus. field.
Qed.

Lemma centralCosine_bounds lat1 lng1 lat2 lng2 :
  -1 <= centralCosine lat1 lng1 lat2 lng2 <= 1.
Proof.
  unfold centralCosine.
  pose proof (sin2_cos2 (radians lat1)) as H1.
  pose proof (sin2_cos2 (radians lat2)) as H2.
  pose proof (COS_bound (radians (lng2 - lng1))) as [Hk0 Hk1].
  unfold Rsqr in *.
  set (s1 := sin (radians lat1)) in *. set (c1 := cos (radians lat1)) in *.
  set (s2 := sin (radians lat2)) in *. set (c2 := cos (radians lat2)) in *.
  set (k := cos (radians (lng2 - lng1))) in *.
  pose proof (Rle_0_sqr (s1 - s2)). pose proof (Rle_0_sqr (c1 - c2)).
  pose proof (Rle_0_sqr (s1 + s2)). pose proof (Rle_0_sqr (c1 + c2)).
  unfold Rsqr in *.
  destruct (Rle_dec 0 (c1 * c2)); split; nra.
Qed.

Lemma haversineA_range lat1 lng1 lat2 lng2 :
  0 <= haversineA lat1 lng1 lat2 lng2 <= 1.
Proof.
  rewrite haversineA_cosine.
  pose proof (centralCosine_bounds lat1 lng1 lat2 lng2). lra.
Qed.

(** The haversine distance is the great-circle distance: Earth radius times
    the central angle given by the spherical law of cosines. *)
Lemma greatCircleKm_law_of_cosines lat1 lng1 lat2 lng2 :
  greatCircleKm lat1 lng1 lat2 lng2 =
  6371 * acos (centralCosine lat1 lng1 lat2 lng2).
Proof.
  unfold greatCircleKm. cbv zeta.
  pose proof (haversineA_range lat1 lng1 lat2 lng2) as [Ha0 Ha1].
  pose proof (haversineA_cosine lat1 lng1 lat2 lng2) as Hcos.
  set (a := haversineA lat1 lng1 lat2 lng2) in *.
  set (y := sqrt a). set (x := sqrt (1 - a)).
  assert (x² + y² = 1) as Hnorm.
  { unfold x, y. rewrite !Rsqr_sqrt by lra. lra. }
  assert (0 <= y) as Hy by apply sqrt_pos.
  assert (0 <= x) as Hx by apply sqrt_pos.
  assert (x <> 0 \/ y <> 0) as Hne.
  { destruct (Req_dec x 0) as [E|]; [|now left]. right. intros E'.
    rewrite E, E', Rsqr_0 in Hnorm. lra. }
  destruct (Math_atan2_polar y x Hne) as [Hc Hsn].
  rewrite Hnorm, sqrt_1, Rmult_1_l in Hc, Hsn.
  pose proof (Math_atan2_nonneg y x Hy) as Hlo.
  pose proof (Math_atan2_range y x) as [_ Hhi].
  set (theta := JS.Math_atan2 y x) in *.
  assert (theta <= PI / 2) as Hhalf.
  { destruct (Rle_dec theta (PI / 2)) as [|Hgt]; [assumption|].
    assert (cos theta < 0); [|lra].
    apply cos_lt_0; pose proof PI_RGT_0; lra. }
  assert (cos (2 * theta) = centralCosine lat1 lng1 lat2 lng2) as Hdouble.
  { rewrite cos_2a_sin, Hsn.
    assert (y * y = a) as Hyy by (apply (Rsqr_sqrt a); lra).
    lra. }
  rewrite <- Hdouble, acos_cos by lra. ring.
Qed.

(** ** Invariants of the scoring state *)

Lemma totalPoints_app l e :
  totalPoints (l ++ [e]) = totalPoints l + points e.
Proof.
  unfold totalPoints. induction l as [| x l IH]; simpl.
  - ring.
  - rewrite IH. ring.
Qed.

Lemma award_Accounted w r pts st :
  Accounted st -> Accounted (award w r pts st).
Proof.
  unfold Accounted, award. simpl. intros ->. now rewrite totalPoints_app.
Qed.

Lemma award_Bounded (w : Z) r pts st :
  0 <= pts <= IZR w -> Bounded st -> Bounded (award (IZR w) r pts st).
Proof.
  intros Hp (n & Hn & Hs). exists (n + w)%Z. unfold award. simpl.
  rewrite plus_IZR, Hn. split; [reflexivity | lra].
Qed.

Lemma award_Awards w r pts : Awards w pts (award w r pts).
Proof.
  intros st. unfold award. simpl. repeat split. now exists r.
Qed.

Lemma weight_location : WEIGHTS.location = IZR 25.
Proof. reflexivity. Qed.

Lemma weight_price : WEIGHTS.price = IZR 30.
Proof. reflexivity. Qed.

Lemma radiusKmOf_pos P : 0 < radiusKmOf P.
Proof.
  unfold radiusKmOf. destruct (pref_locationRadiusKm P); [cmp_cases|]; lra.
Qed.

Lemma radiusKmOf_spec P r : RadiusIs P r -> radiusKmOf P = r.
Proof.
  unfold RadiusIs, radiusKmOf.
  intros [(x & -> & Hx & ->) | ([-> | (x & -> & Hx)] & ->)];
    try reflexivity; cmp_cases; try reflexivity; lra.
Qed.

Lemma locationPoints_bounds d r :
  0 <= d -> 0 < r -> 0 <= safeRatioScore WEIGHTS.location (d / r) <= 25.
Proof.
  intros Hd Hr. rewrite weight_location.
  apply safeRatioScore_bounds; [lia|].
  apply Rmult_le_pos; [assumption|]. left. now apply Rinv_0_lt_compat.
Qed.

Lemma pricePoints_bounds price budget :
  0 < budget -> 0 <= pricePoints price budget <= 30.
Proof.
  intros Hb. unfold pricePoints. destruct price as [p|]; [|lra].
  rewrite weight_price. apply safeRatioScore_bounds; [lia|].
  apply Rmult_le_pos; [apply Rabs_pos|]. left. now apply Rinv_0_lt_compat.
Qed.

Lemma areaPoints_bounds area preferred :
  0 < preferred -> 0 <= areaPoints area preferred <= 15.
Proof.
  intros Hb. unfold areaPoints. destruct area as [a|]; [|lra].
  change WEIGHTS.area with (IZR 15). apply safeRatioScore_bounds; [lia|].
  apply Rmult_le_pos; [apply Rabs_pos|]. left. now apply Rinv_0_lt_compat.
Qed.

Lemma roiPoints_bounds roi preferred :
  0 < preferred -> 0 <= roiPoints roi preferred <= 15.
Proof.
  intros Hb. unfold roiPoints. destruct roi as [v|]; [|lra].
  cmp_cases; [unfold WEIGHTS.roi; lra|].
  change WEIGHTS.roi with (IZR 15). unfold JS.Math_max.
  assert (v / preferred < 1).
  { apply Rmult_lt_reg_r with preferred; [assumption|].
    unfold Rdiv. rewrite Rmult_assoc, Rinv_l by lra. lra. }
  assert (0 <= Rmax 0 (v / preferred) <= 1) as [H0 H1].
  { split; [apply Rmax_l | apply Rmax_lub; lra]. }
  split; [apply round2_nonneg | apply (round2_upper _ 15)]; simpl; nra.
Qed.

Lemma distancePoints_bounds distance preferredMax :
  0 < preferredMax -> 0 <= distancePoints distance preferredMax <= 15.
Proof.
  intros Hb. unfold distancePoints. destruct distance as [v|]; [|lra].
  cmp_cases; [unfold WEIGHTS.distance; lra|].
  change WEIGHTS.distance with (IZR 15). apply safeRatioScore_bounds; [lia|].
  apply Rmult_le_pos; [lra|]. left. now apply Rinv_0_lt_compat.
Qed.

(** Every criterion block either is skipped or makes one award within its
    weight. *)
Lemma criterionStep_shape c L P st :
  criterionStep c L P st = st \/
  exists r pts,
    criterionStep c L P st = award (criterionWeight c) r pts st /\
    0 <= pts <= criterionWeight c.
Proof.
  destruct c; simpl.
  - unfold scoreLocation.
    destruct (pref_latitude P) as [plat|], (pref_longitude P) as [plng|];
      try (destruct (pref_location P) as [[| ch t]|]; [now left | | now left];
           right; eexists; eexists; split; [reflexivity|];
           destruct (textMatched L (String ch t)); unfold WEIGHTS.location; lra).
    right.
    destruct (prop_latitude L) as [lat|], (prop_longitude L) as [lng|];
      try (destruct (pref_location P) as [[| ch t]|];
           eexists; eexists; (split; [reflexivity|]);
           try destruct (textMatched L (String ch t)); unfold WEIGHTS.location; lra).
    eexists; eexists; split; [reflexivity|].
    apply locationPoints_bounds; [apply haversineKm_nonneg | apply radiusKmOf_pos].
  - unfold scorePrice. destruct (pref_budget P) as [b|]; [|now left].
    cmp_cases; [|now left]. right. eexists; eexists; split; [reflexivity|].
    now apply pricePoints_bounds.
  - unfold scoreRoi. destruct (pref_roiPercent P) as [b|]; [|now left].
    cmp_cases; [|now left]. right. eexists; eexists; split; [reflexivity|].
    now apply roiPoints_bounds.
  - unfold scoreArea. destruct (pref_areaSqft P) as [b|]; [|now left].
    cmp_cases; [|now left]. right. eexists; eexists; split; [reflexivity|].
    now apply areaPoints_bounds.
  - unfold scoreDistance. destruct (pref_maxDistanceFromHighway P) as [b|]; [|now left].
    cmp_cases; [|now left]. right. eexists; eexists; split; [reflexivity|].
    now apply distancePoints_bounds.
Qed.

Lemma criterionWeight_int c : exists w : Z, criterionWeight c = IZR w.
Proof. destruct c; eexists; reflexivity. Qed.

Lemma criterionStep_Bounded c L P st :
  Bounded st -> Bounded (criterionStep c L P st).
Proof.
  intros H. destruct (criterionStep_shape c L P st) as [-> | (r & pts & -> & Hp)];
    [assumption|].
  destruct (criterionWeight_int c) as [w Hw]. rewrite Hw in *.
  now apply award_Bounded.
Qed.

Lemma criterionStep_Accounted c L P st :
  Accounted st -> Accounted (criterionStep c L P st).
Proof.
  intros H. destruct (criterionStep_shape c L P st) as [-> | (r & pts & -> & Hp)];
    [assumption|].
  now apply award_Accounted.
Qed.

Lemma scoreCriteria_steps L P :
  scoreCriteria L P =
  criterionStep CDistance L P
    (criterionStep CArea L P
       (criterionStep CRoi L P
          (criterionStep CPrice L P
             (criterionStep CLocation L P initialState)))).
Proof. reflexivity. Qed.

Lemma scoreCriteria_Bounded L P : Bounded (scoreCriteria L P).
Proof.
  rewrite scoreCriteria_steps. repeat apply criterionStep_Bounded.
  exists 0%Z. simpl. lra.
Qed.

Lemma scoreCriteria_Accounted L P : Accounted (scoreCriteria L P).
Proof.
  rewrite scoreCriteria_steps. repeat apply criterionStep_Accounted.
  reflexivity.
Qed.

(** ** The scoring stage *)


(** C9. For every listing and every preference set, the score of the result
    of [scoreProperty] is the sum of the points of its explanation entries
    rounded to two decimals: it is a whole number of hundredths, it lies
    within half a hundredth of that sum, and it is the only number that
    does both with a half going up. *)
Theorem score_is_total_of_explanation
    (L : RecommendationProperty) (P : RecommendationPreferences) :
  let total := totalPoints (explanation (scoreProperty L P)) in
  RoundedTo2 total (score (scoreProperty L P)) /\
  forall y, RoundedTo2 total y -> y = score (scoreProperty L P).
Proof.
  intros total.
  assert (RoundedTo2 total (score (scoreProperty L P))) as H.
  { subst total. unfold scoreProperty. cbv zeta. simpl.
    rewrite <- (scoreCriteria_Accounted L P). apply round2_RoundedTo2. }
  split; [exact H|].
  intros y Hy. exact (RoundedTo2_unique _ _ _ Hy H).
Qed.

(** C6. When no scoring criterion is active (no coordinate pair, no location
    text, and budget, ROI, area and highway distance each absent or not
    positive), [scoreProperty] returns score 0, maxPossible 0,
    matchPercentage 0 and no explanation entry. *)
Theorem scoreProperty_no_criteria
    (L : RecommendationProperty) (P : RecommendationPreferences) :
  (forall c, ~ Active c P) ->
  scoreProperty L P =
  {| score := 0; maxPossible := 0; matchPercentage := 0; explanation := [] |}.
Proof.
  intros H.
  assert (scoreCriteria L P = initialState) as E.
  { unfold scoreCriteria.
    assert (scoreLocation L P initialState = initialState) as ->.
    { pose proof (H CLocation) as HL. simpl in HL. unfold scoreLocation.
      destruct (pref_latitude P) as [plat|] eqn:Elat,
               (pref_longitude P) as [plng|] eqn:Elng;
        try (destruct (pref_location P) as [[| ch t]|] eqn:Eloc; try reflexivity;
             exfalso; apply HL; right; exists (String ch t); now split).
      exfalso. apply HL. left. unfold HasCoordinates. rewrite Elat, Elng.
      now split. }
    assert (scorePrice L P initialState = initialState) as ->.
    { pose proof (H CPrice) as HP. simpl in HP. unfold scorePrice.
      destruct (pref_budget P) as [b|]; [|reflexivity].
      cmp_cases; [|reflexivity]. exfalso. apply HP. now exists b. }
    assert (scoreRoi L P initialState = initialState) as ->.
    { pose proof (H CRoi) as HP. simpl in HP. unfold scoreRoi.
      destruct (pref_roiPercent P) as [b|]; [|reflexivity].
      cmp_cases; [|reflexivity]. exfalso. apply HP. now exists b. }
    assert (scoreArea L P initialState = initialState) as ->.
    { pose proof (H CArea) as HP. simpl in HP. unfold scoreArea.
      destruct (pref_areaSqft P) as [b|]; [|reflexivity].
      cmp_cases; [|reflexivity]. exfalso. apply HP. now exists b. }
    pose proof (H CDistance) as HP. simpl in HP. unfold scoreDistance.
    destruct (pref_maxDistanceFromHighway P) as [b|]; [|reflexivity].
    cmp_cases; [|reflexivity]. exfalso. apply HP. now exists b. }
  unfold scoreProperty. rewrite E. cbv zeta. simpl.
  rewrite round2_0. cmp_cases; [reflexivity | congruence].
Qed.

Lemma noPreferences_inactive : forall c, ~ Active c noPreferences.
Proof.
  intros [] H; simpl in H.
  - destruct H as [[H _] | (t & H & _)]; [now apply H | discriminate].
  - destruct H as (v & H & _); discriminate.
  - destruct H as (v & H & _); discriminate.
  - destruct H as (v & H & _); discriminate.
  - destruct H as (v & H & _); discriminate.
Qed.

Lemma scoreProperty_no_criteria_witness :
  scoreProperty kathmanduListing noPreferences =
  {| score := 0; maxPossible := 0; matchPercentage := 0; explanation := [] |}.
Proof.
  apply scoreProperty_no_criteria. exact noPreferences_inactive.
Defined.



(** ** Strings *)

Lemma prefix_app a s : prefix a s = true <-> exists rest, s = (a ++ rest)%string.
Proof.
  revert s. induction a as [| c a IH]; intros s; simpl.
  - destruct s; split; intros; try reflexivity; eexists; reflexivity.
  - destruct s as [| d s]; simpl.
    + split; [discriminate | intros [rest H]; discriminate].
    + destruct (Ascii.ascii_dec c d) as [-> | Hne].
      * rewrite IH. split; intros [rest H]; exists rest; congruence.
      * split; [discriminate | intros [rest H]; congruence].
Qed.

(** [includes] decides the substring relation. *)
Lemma includes_Substring s sub : JS.includes s sub = true <-> Substring sub s.
Proof.
  unfold Substring. induction s as [| c s IH].
  - cbn [JS.includes]. rewrite orb_false_r, prefix_app. split.
    + intros [rest H]. exists EmptyString, rest. exact H.
    + intros (before & after & H). exists after.
      destruct before; [exact H | discriminate].
  - cbn [JS.includes]. rewrite orb_true_iff, prefix_app, IH. split.
    + intros [[rest H] | (before & after & H)].
      * exists EmptyString, rest. exact H.
      * exists (String c before), after. simpl. now rewrite H.
    + intros (before & after & H). destruct before as [| d before].
      * left. exists after. exact H.
      * right. exists before, after. simpl in H. congruence.
Qed.

Lemma includes_false s sub : JS.includes s sub = false <-> ~ Substring sub s.
Proof.
  rewrite <- includes_Substring. destruct (JS.includes s sub); intuition congruence.
Qed.

Lemma string_eqb_false (a b : string) : (a =? b)%string = false <-> a <> b.
Proof.
  rewrite <- String.eqb_eq. destruct (a =? b)%string; intuition congruence.
Qed.

(** ** The hard-filter stage *)

Lemma location_guard M L :
  match mh_location M with
  | Some (String _ _ as location) =>
      negb (JS.includes (JS.toLowerCase (prop_location L)) (JS.toLowerCase location))
  | _ => false
  end = false <-> LocationConstraint M L.
Proof.
  unfold LocationConstraint. destruct (mh_location M) as [[| c t]|].
  - split; [|reflexivity]. intros _ location [= <-].
    exists EmptyString, (JS.toLowerCase (prop_location L)). reflexivity.
  - rewrite negb_false_iff, includes_Substring. split.
    + now intros H location [= <-].
    + intros H. now apply H.
  - split; [|reflexivity]. intros _ location [=].
Qed.

Lemma category_guard M L :
  match mh_categoryId M with
  | Some c => negb (JS.eq (prop_categoryId L) c)
  | None => false
  end = false <-> (forall c, mh_categoryId M = Some c -> prop_categoryId L = c).
Proof.
  destruct (mh_categoryId M) as [c|].
  - rewrite negb_false_iff, eq_true. split.
    + now intros H c' [= <-].
    + intros H. now apply H.
  - split; [|reflexivity]. intros _ c [=].
Qed.

Lemma status_guard M L :
  match mh_status M with
  | Some (String _ _ as status) =>
      negb (JS.toLowerCase (prop_status L) =? JS.toLowerCase status)%string
  | _ => false
  end = false <->
  (forall status, mh_status M = Some status -> status <> EmptyString ->
     JS.toLowerCase (prop_status L) = JS.toLowerCase status).
Proof.
  destruct (mh_status M) as [[| c t]|].
  - split; [|reflexivity]. intros _ status [= <-] H. now contradiction H.
  - rewrite negb_false_iff, String.eqb_eq. split.
    + now intros H status [= <-] _.
    + intros H. now apply H.
  - split; [|reflexivity]. intros _ status [=].
Qed.

Lemma atLeast_guard bound field :
  match bound with
  | Some b => match field with None => true | Some v => JS.lt v b end
  | None => false
  end = false <-> AtLeast bound field.
Proof.
  unfold AtLeast. destruct bound as [b|].
  - destruct field as [v|].
    + rewrite lt_false. split.
      * intros H b' [= <-]. now exists v.
      * intros H. destruct (H b eq_refl) as (v' & [= <-] & Hv). exact Hv.
    + split; [discriminate|]. intros H.
      destruct (H b eq_refl) as (v' & Hv & _). discriminate.
  - split; [|reflexivity]. intros _ b [=].
Qed.

Lemma atMost_guard bound field :
  match bound with
  | Some b => match field with None => true | Some v => JS.gt v b end
  | None => false
  end = false <-> AtMost bound field.
Proof.
  unfold AtMost. destruct bound as [b|].
  - destruct field as [v|].
    + rewrite gt_false. split.
      * intros H b' [= <-]. now exists v.
      * intros H. destruct (H b eq_refl) as (v' & [= <-] & Hv). exact Hv.
    + split; [discriminate|]. intros H.
      destruct (H b eq_refl) as (v' & Hv & _). discriminate.
  - split; [|reflexivity]. intros _ b [=].
Qed.

Lemma if_false_else (g rest : bool) :
  (if g then false else rest) = true <-> g = false /\ rest = true.
Proof. destruct g, rest; intuition congruence. Qed.

(** The filter callback accepts exactly the listings that satisfy every
    active constraint. *)
Lemma passesHardFilters_Satisfies M L :
  passesHardFilters M L = true <-> Satisfies M L.
Proof.
  unfold passesHardFilters, Satisfies, NumericConstraints.
  rewrite !if_false_else.
  rewrite location_guard, category_guard, status_guard,
    !atLeast_guard, !atMost_guard.
  tauto.
Qed.

Lemma filter_Selected {A} (f : A -> bool) (P : A -> Prop) :
  (forall x, f x = true <-> P x) ->
  forall xs, Selected P xs (filter f xs).
Proof.
  intros Hf xs. induction xs as [| x xs IH]; simpl.
  - constructor.
  - destruct (f x) eqn:E.
    + apply Selected_keep; [now apply Hf | exact IH].
    + apply Selected_drop; [|exact IH]. rewrite <- Hf. congruence.
Qed.

(** [Selected] determines its result. *)
Lemma Selected_unique {A} (P : A -> Prop) xs ys zs :
  Selected P xs ys -> Selected P xs zs -> ys = zs.
Proof.
  intros H. revert zs. induction H; intros zs Hz; inversion Hz; subst;
    try reflexivity; try contradiction.
  - f_equal. now apply IHSelected.
  - now apply IHSelected.
Qed.

(** C1, as amended.  [applyHardFilters S M] is [S] with exactly the listings
    kept that satisfy every active constraint of [M], in their original
    order, where an empty status string, like an absent one, is no
    constraint; and it is the only sequence so selected. *)
Theorem applyHardFilters_selects
    (S : list RecommendationProperty) (M : RecommendationMustHave) :
  Selected (Satisfies M) S (applyHardFilters S M) /\
  forall T, Selected (Satisfies M) S T -> T = applyHardFilters S M.
Proof.
  assert (Selected (Satisfies M) S (applyHardFilters S M)) as H.
  { apply filter_Selected. apply passesHardFilters_Satisfies. }
  split; [exact H|].
  intros T HT. exact (Selected_unique _ _ _ _ HT H).
Qed.

(** C1, as stated, fails: with the status constraint set to the empty
    string the filter keeps a listing whose status is not empty. *)
Lemma applyHardFilters_empty_status_counterexample :
  applyHardFilters [kathmanduListing] emptyStatusMustHave = [kathmanduListing] /\
  ~ SatisfiesAsStated emptyStatusMustHave kathmanduListing /\
  ~ Selected (SatisfiesAsStated emptyStatusMustHave) [kathmanduListing]
      (applyHardFilters [kathmanduListing] emptyStatusMustHave).
Proof.
  assert (applyHardFilters [kathmanduListing] emptyStatusMustHave
          = [kathmanduListing]) as E by reflexivity.
  assert (~ SatisfiesAsStated emptyStatusMustHave kathmanduListing) as N.
  { intros (_ & H & _). specialize (H EmptyString eq_refl). discriminate H. }
  split; [exact E | split; [exact N|]].
  rewrite E. intros H. inversion H as [| x xs ys HP HS | x xs ys HP HS].
  - exact (N HP).
  - inversion HS.
Qed.

(** C8. Filtering twice with the same constraints is filtering once. *)
Theorem applyHardFilters_idempotent
    (S : list RecommendationProperty) (M : RecommendationMustHave) :
  applyHardFilters (applyHardFilters S M) M = applyHardFilters S M.
Proof.
  unfold applyHardFilters. induction S as [| L S IH]; simpl.
  - reflexivity.
  - destruct (passesHardFilters M L) eqn:E; simpl.
    + rewrite E. now f_equal.
    + exact IH.
Qed.

(** ** The criteria one by one *)

Lemma criterionStep_extends c L P st :
  exists suffix,
    st_explanation (criterionStep c L P st) = st_explanation st ++ suffix.
Proof.
  destruct (criterionStep_shape c L P st) as [-> | (r & pts & -> & _)].
  - exists []. now rewrite app_nil_r.
  - eexists. reflexivity.
Qed.

(** The entries of the location block stay at the head of the explanation. *)
Lemma explanation_starts_with_location L P :
  exists rest,
    explanation (scoreProperty L P) =
    st_explanation (scoreLocation L P initialState) ++ rest.
Proof.
  unfold scoreProperty. cbv zeta. simpl. rewrite scoreCriteria_steps.
  set (s1 := criterionStep CLocation L P initialState).
  destruct (criterionStep_extends CPrice L P s1) as [x1 E1].
  set (s2 := criterionStep CPrice L P s1) in *.
  destruct (criterionStep_extends CRoi L P s2) as [x2 E2].
  set (s3 := criterionStep CRoi L P s2) in *.
  destruct (criterionStep_extends CArea L P s3) as [x3 E3].
  set (s4 := criterionStep CArea L P s3) in *.
  destruct (criterionStep_extends CDistance L P s4) as [x4 E4].
  rewrite E4, E3, E2, E1. exists (x1 ++ x2 ++ x3 ++ x4).
  now rewrite <- !app_assoc.
Qed.


(** On one meridian, less than half a turn apart, the haversine distance is
    the arc: Earth radius times the difference of latitude in radians. *)
Lemma greatCircleKm_same_meridian lat1 lat2 lng :
  lat1 <= lat2 < lat1 + 180 ->
  greatCircleKm lat1 lng lat2 lng = 6371 * radians (lat2 - lat1).
Proof.
  intros [Hlo Hhi]. pose proof PI_RGT_0 as HPI.
  unfold greatCircleKm, haversineA.
  set (x := radians (lat2 - lat1) / 2).
  assert (0 <= x < PI / 2) as [Hx0 Hx1].
  { unfold x, radians. split; nra. }
  replace (radians (lng - lng) / 2) with 0 by (unfold radians; field).
  rewrite sin_0, Rsqr_0, !Rmult_0_r, !Rplus_0_r.
  assert (0 <= sin x) as Hs by (apply sin_ge_0; lra).
  assert (0 < cos x) as Hc by (apply cos_gt_0; lra).
  rewrite sqrt_Rsqr by assumption.
  replace (1 - (sin x)²) with ((cos x)²) by (pose proof (sin2_cos2 x); lra).
  rewrite sqrt_Rsqr by lra.
  unfold JS.Math_atan2. apply lt_true in Hc. rewrite Hc.
  change (sin x / cos x) with (tan x). rewrite atan_tan by lra.
  unfold x. field.
Qed.


Lemma textMatched_Substring L t :
  textMatched L t = true <->
  Substring (JS.toLowerCase t) (JS.toLowerCase (prop_location L)).
Proof. apply includes_Substring. Qed.

(** The location block in coordinate mode for a listing without both
    coordinates. *)
Lemma scoreLocation_without_coordinates L P prefLat prefLng st :
  pref_latitude P = Some prefLat -> pref_longitude P = Some prefLng ->
  prop_latitude L = None \/ prop_longitude L = None ->
  scoreLocation L P st =
  match pref_location P with
  | Some (String _ _ as preferred) =>
      if textMatched L preferred
      then award 25 (LocationFallbackMatched preferred) 25 st
      else award 25 (LocationFallbackNotMatched preferred) 0 st
  | _ => award 25 LocationCoordinatesMissing 0 st
  end.
Proof.
  intros Hlat Hlng Hmiss. unfold scoreLocation. rewrite Hlat, Hlng.
  destruct (prop_latitude L) as [lat|], (prop_longitude L) as [lng|];
    try (destruct (pref_location P) as [[| ch t]|]; try reflexivity;
         now destruct (textMatched L (String ch t))).
  destruct Hmiss; discriminate.
Qed.

(** C5, as amended.  For every active criterion, when the listing lacks the
    field the criterion evaluates, the criterion still counts its full
    weight in maxPossible and pushes exactly one explanation entry; it
    awards 0 points, except that the location criterion in coordinate mode
    falls back to the location text when a text preference is present, and
    then awards 25 when the text matches.  The function is total: no error
    is raised. *)
Theorem missing_field_awards
    (c : Criterion) (L : RecommendationProperty) (P : RecommendationPreferences) :
  Active c P -> LacksField c L P ->
  (~ FallbackMatches c L P -> Awards (criterionWeight c) 0 (criterionStep c L P)) /\
  (FallbackMatches c L P -> Awards (criterionWeight c) 25 (criterionStep c L P)).
Proof.
  intros Hact Hlack.
  destruct c; simpl in *.
  - destruct Hlack as [[Hplat Hplng] Hmiss].
    destruct (pref_latitude P) as [plat|] eqn:Elat; [|contradiction].
    destruct (pref_longitude P) as [plng|] eqn:Elng; [|contradiction].
    assert (forall st, scoreLocation L P st = _) as Hstep
      by (intros st; apply (scoreLocation_without_coordinates L P plat plng st);
          assumption).
    unfold FallbackMatches.
    destruct (pref_location P) as [[| ch t]|] eqn:Eloc.
    + split.
      * intros _ st. rewrite Hstep. apply award_Awards.
      * intros (_ & t & [= <-] & Hne & _). contradiction.
    + destruct (textMatched L (String ch t)) eqn:Em.
      * split.
        -- intros Hn. exfalso. apply Hn. split; [reflexivity|].
           exists (String ch t). repeat split; [discriminate|].
           now apply textMatched_Substring.
        -- intros _ st. rewrite Hstep. apply award_Awards.
      * split.
        -- intros _ st. rewrite Hstep. apply award_Awards.
        -- intros (_ & t' & [= <-] & _ & Hsub).
           apply textMatched_Substring in Hsub. congruence.
    + split.
      * intros _ st. rewrite Hstep. apply award_Awards.
      * intros (_ & t & [=] & _).
  - split; [intros _ st | intros [[=] _]].
    destruct Hact as (b & Hb & Hpos).
    unfold scorePrice. rewrite Hb, Hlack. apply gt_true in Hpos. rewrite Hpos.
    apply award_Awards.
  - split; [intros _ st | intros [[=] _]].
    destruct Hact as (b & Hb & Hpos).
    unfold scoreRoi. rewrite Hb, Hlack. apply gt_true in Hpos. rewrite Hpos.
    apply award_Awards.
  - split; [intros _ st | intros [[=] _]].
    destruct Hact as (b & Hb & Hpos).
    unfold scoreArea. rewrite Hb, Hlack. apply gt_true in Hpos. rewrite Hpos.
    apply award_Awards.
  - split; [intros _ st | intros [[=] _]].
    destruct Hact as (b & Hb & Hpos).
    unfold scoreDistance. rewrite Hb, Hlack. apply gt_true in Hpos. rewrite Hpos.
    apply award_Awards.
Qed.

Lemma missing_field_awards_witness :
  Active CRoi roiPreferences /\
  LacksField CRoi kathmanduListing roiPreferences /\
  Awards 15 0 (scoreRoi kathmanduListing roiPreferences).
Proof.
  assert (Active CRoi roiPreferences) as Hact.
  { exists 12. split; [reflexivity | lra]. }
  assert (LacksField CRoi kathmanduListing roiPreferences) as Hlack by reflexivity.
  split; [exact Hact | split; [exact Hlack|]].
  apply (missing_field_awards CRoi kathmanduListing roiPreferences Hact Hlack).
  intros [[=] _].
Defined.

(** C5, as stated, fails for the location criterion: the listing has no
    coordinates, the preferences have a coordinate pair and the text kath,
    and the fallback awards 25 points, not 0. *)
Lemma missing_coordinates_fallback_counterexample :
  Active CLocation kathPreferences /\
  LacksField CLocation kathmanduListing kathPreferences /\
  pointsAwarded (criterionStep CLocation kathmanduListing kathPreferences)
    initialState = 25 /\
  ~ Awards (criterionWeight CLocation) 0
      (criterionStep CLocation kathmanduListing kathPreferences).
Proof.
  assert (forall st, scoreLocation kathmanduListing kathPreferences st =
            award 25 (LocationFallbackMatched "kath"%string) 25 st) as Hstep.
  { intros st.
    rewrite (scoreLocation_without_coordinates
               kathmanduListing kathPreferences 27.7 85.3 st);
      [reflexivity | reflexivity | reflexivity | now left]. }
  split; [|split; [|split]].
  - left. split; discriminate.
  - split; [split; discriminate | now left].
  - unfold pointsAwarded. cbn [criterionStep]. rewrite Hstep. simpl. lra.
  - intros H. destruct (H initialState) as (Hs & _).
    cbn [criterionStep] in Hs. rewrite Hstep in Hs. simpl in Hs. lra.
Qed.

(** ** The request handler *)

Lemma Zceil_div_IsCeilDiv (n d : Z) :
  (0 < d)%Z -> IsCeilDiv n d (JS.Math_ceil (IZR n / IZR d)).
Proof.
  intros Hd. unfold JS.Math_ceil.
  set (x := IZR n / IZR d).
  destruct (Zceil_bound x) as [Hlo Hhi].
  assert (0 < IZR d) as Hd' by now apply IZR_lt.
  assert (x * IZR d = IZR n) as Hx by (unfold x; field; lra).
  split.
  - apply le_IZR. rewrite mult_IZR. nra.
  - intros j Hj. apply IZR_le in Hj. rewrite mult_IZR in Hj.
    assert (IZR (Zceil x) - 1 < IZR j) as Hlt by nra.
    assert (IZR (Zceil x) < IZR (j + 1)) as Hlt' by (rewrite plus_IZR; lra).
    apply lt_IZR in Hlt'. lia.
Qed.

Lemma insertRanked_length x l :
  List.length (insertRanked x l) = S (List.length l).
Proof.
  induction l as [| y l IH]; simpl; [reflexivity|].
  destruct (JS.le (compareRanked x y) 0); simpl; [reflexivity|].
  now rewrite IH.
Qed.

Lemma sortRanked_length l : List.length (sortRanked l) = List.length l.
Proof.
  induction l as [| x l IH]; simpl; [reflexivity|].
  now rewrite insertRanked_length, IH.
Qed.

(** The metadata [paginate] attaches to a page of results. *)
Lemma paginate_spec ranked (pageNo lim : Z) :
  (1 <= pageNo)%Z -> (1 <= lim)%Z ->
  exists data pg,
    paginate ranked pageNo lim = Status200 data pg /\
    page pg = pageNo /\ limit pg = lim /\
    total pg = Z.of_nat (List.length ranked) /\
    (exists k, IsCeilDiv (total pg) (limit pg) k /\ totalPages pg = Z.max 1 k) /\
    (1 <= totalPages pg)%Z /\
    (hasNext pg = true <-> (page pg < totalPages pg)%Z) /\
    (hasPrev pg = true <-> (page pg > 1)%Z) /\
    (total pg = 0%Z -> totalPages pg = 1%Z /\ hasNext pg = false).
Proof.
  intros Hp Hl. unfold paginate. eexists. eexists.
  split; [reflexivity|]. simpl.
  set (n := Z.of_nat (List.length ranked)).
  pose proof (Zceil_div_IsCeilDiv n lim ltac:(lia)) as Hk.
  set (k := JS.Math_ceil (IZR n / IZR lim)) in *.
  split; [reflexivity|]. split; [reflexivity|]. split; [reflexivity|].
  split; [exists k; now split|].
  split; [lia|].
  split; [apply Z.ltb_lt|].
  split; [rewrite Z.gtb_ltb, Z.ltb_lt; lia|].
  intros Hn. destruct Hk as [_ Hmin]. specialize (Hmin 0%Z).
  assert (Z.max 1 k = 1%Z) as E by lia.
  split; [exact E|]. rewrite E. apply Z.ltb_ge. lia.
Qed.

Section ControllerProperties.

Variable Number_parseFloat : string -> option R.
Variable GOOGLE_MAPS_API_KEY : option string.
Variable googleGeocode : string -> option Coordinates.
Variable Property_findAll : WhereOptions -> string + list RecommendationProperty.

Let handler :=
  getRecommendations Number_parseFloat GOOGLE_MAPS_API_KEY googleGeocode
    Property_findAll.
Let sourceOf := requestSource Number_parseFloat.
Let mustHaveOf (req : Request) :=
  sanitizeMustHave Number_parseFloat (body_mustHave (sourceOf req)).

Lemma geocodeLocation_trace location tr :
  exists result evs,
    geocodeLocation GOOGLE_MAPS_API_KEY googleGeocode location tr =
      (result, tr ++ evs) /\
    OnlyGeocoding evs.
Proof.
  unfold geocodeLocation.
  destruct GOOGLE_MAPS_API_KEY as [[| c k]|], (JS.trim location) as [| d t];
    try (exists None, []; rewrite app_nil_r; split; [reflexivity|];
         intros e []).
  exists (googleGeocode location), [GeocodeRequest location].
  split; [reflexivity|].
  intros e [<- | []]. now exists location.
Qed.

Lemma resolveCoordinates_trace preferences tr :
  exists preferences' evs,
    resolveCoordinates GOOGLE_MAPS_API_KEY googleGeocode preferences tr =
      (preferences', tr ++ evs) /\
    OnlyGeocoding evs.
Proof.
  assert (exists preferences' evs,
            ret preferences tr = (preferences', tr ++ evs) /\ OnlyGeocoding evs)
    as Hret.
  { exists preferences, []. rewrite app_nil_r. split; [reflexivity|].
    intros e []. }
  unfold resolveCoordinates.
  destruct (pref_location preferences) as [[| c t]|]; try exact Hret.
  destruct (pref_latitude preferences), (pref_longitude preferences);
    try exact Hret;
    unfold bind;
    destruct (geocodeLocation_trace (String c t) tr) as (result & evs & -> & H);
    eexists; exists evs; (split; [reflexivity | exact H]).
Qed.

(** What a run of the handler answers and which outside calls it makes. *)
Lemma getRecommendations_run req :
  exists preferences evs,
    OnlyGeocoding evs /\
    run (handler req) =
    if invalidPriceRange (mustHaveOf req) then
      (Status400 "Invalid constraints: minPrice cannot be greater than maxPrice", evs)
    else
      let query := CatalogQuery (buildWhere (mustHaveOf req)) in
      match Property_findAll (buildWhere (mustHaveOf req)) with
      | inl message => (Status500 message, evs ++ [query])
      | inr candidates =>
          (paginate
             (sortRanked
                (map (rankOne preferences)
                   (applyHardFilters candidates (mustHaveOf req))))
             (requestedPage (sourceOf req)) (requestedLimit (sourceOf req)),
           evs ++ [query])
      end.
Proof.
  unfold handler, getRecommendations, run, bind. cbv zeta.
  fold sourceOf. fold (mustHaveOf req).
  destruct (resolveCoordinates_trace
              (sanitizePreferences Number_parseFloat
                 (body_preferences (sourceOf req))) [])
    as (preferences & evs & -> & Hev).
  exists preferences, evs. split; [exact Hev|]. simpl.
  destruct (invalidPriceRange (mustHaveOf req)); [reflexivity|].
  unfold findAll, bind, emit, ret.
  destruct (Property_findAll (buildWhere (mustHaveOf req))); reflexivity.
Qed.

Lemma requestedPage_ge_1 source : (1 <= requestedPage source)%Z.
Proof. unfold requestedPage. lia. Qed.

Lemma requestedLimit_range source : (1 <= requestedLimit source <= 50)%Z.
Proof. unfold requestedLimit. lia. Qed.

(** C4. A request whose sanitized must-have set has both minPrice and
    maxPrice with [minPrice > maxPrice] is answered with status 400, and
    the run makes no catalog query (hence filters and scores nothing). *)
Theorem inverted_price_range_rejected (req : Request) (minPrice maxPrice : R) :
  mh_minPrice (sanitizeMustHave Number_parseFloat
                 (body_mustHave (requestSource Number_parseFloat req)))
    = Some minPrice ->
  mh_maxPrice (sanitizeMustHave Number_parseFloat
                 (body_mustHave (requestSource Number_parseFloat req)))
    = Some maxPrice ->
  minPrice > maxPrice ->
  exists message tr,
    run (getRecommendations Number_parseFloat GOOGLE_MAPS_API_KEY googleGeocode
           Property_findAll req) = (Status400 message, tr) /\
    NoCatalogQuery tr.
Proof.
  intros Hmin Hmax Hgt.
  destruct (getRecommendations_run req) as (preferences & evs & Hev & Hrun).
  assert (invalidPriceRange (mustHaveOf req) = true) as Hinv.
  { unfold invalidPriceRange, mustHaveOf, sourceOf. rewrite Hmin, Hmax.
    now apply gt_true. }
  rewrite Hinv in Hrun. eexists. exists evs. split; [exact Hrun|].
  intros w Hin. destruct (Hev _ Hin) as [location Heq]. discriminate.
Qed.

(** C10. In every 200 response, [total] counts the listings that survive
    the hard filters, [totalPages] is the larger of 1 and the ceiling of
    [total / limit], so it is at least 1; [hasNext] holds exactly when
    [page < totalPages] and [hasPrev] exactly when [page > 1]; a response
    with no result has [totalPages = 1] and [hasNext = false]. *)
Theorem pagination_metadata (req : Request) (data : list RankedItem) (pg : Pagination) :
  fst (run (getRecommendations Number_parseFloat GOOGLE_MAPS_API_KEY googleGeocode
              Property_findAll req)) = Status200 data pg ->
  (exists candidates,
     Property_findAll
       (buildWhere (sanitizeMustHave Number_parseFloat
                      (body_mustHave (requestSource Number_parseFloat req))))
       = inr candidates /\
     total pg =
     Z.of_nat (List.length
                 (applyHardFilters candidates
                    (sanitizeMustHave Number_parseFloat
                       (body_mustHave (requestSource Number_parseFloat req)))))) /\
  (exists k, IsCeilDiv (total pg) (limit pg) k /\ totalPages pg = Z.max 1 k) /\
  (1 <= totalPages pg)%Z /\
  (hasNext pg = true <-> (page pg < totalPages pg)%Z) /\
  (hasPrev pg = true <-> (page pg > 1)%Z) /\
  (total pg = 0%Z -> totalPages pg = 1%Z /\ hasNext pg = false).
Proof.
  intros Hresp.
  destruct (getRecommendations_run req) as (preferences & evs & _ & Hrun).
  fold handler in Hresp. rewrite Hrun in Hresp. clear Hrun.
  destruct (invalidPriceRange (mustHaveOf req)); [discriminate|].
  cbv zeta in Hresp. fold sourceOf. fold (mustHaveOf req).
  destruct (Property_findAll (buildWhere (mustHaveOf req))) as [m | candidates];
    [discriminate|].
  simpl in Hresp.
  match type of Hresp with
  | paginate ?ranked ?p ?l = _ =>
      destruct (paginate_spec ranked p l
                  (requestedPage_ge_1 _) (proj1 (requestedLimit_range _)))
        as (data' & pg' & E & _ & _ & Htotal & H)
  end.
  rewrite E in Hresp. injection Hresp as <- <-.
  split; [|exact H].
  exists candidates. split; [reflexivity|].
  now rewrite Htotal, sortRanked_length, length_map.
Qed.

End ControllerProperties.

Lemma inverted_price_range_rejected_witness :
  10 > 5 /\
  exists message tr,
    run (getRecommendations parseNothing None geocodeNothing
           (catalogOf [kathmanduListing]) (postRequest invertedPriceBody))
      = (Status400 message, tr) /\
    NoCatalogQuery tr.
Proof.
  split; [lra|].
  apply (inverted_price_range_rejected parseNothing None geocodeNothing
           (catalogOf [kathmanduListing]) (postRequest invertedPriceBody) 10 5);
    [reflexivity | reflexivity | lra].
Defined.

(** A request without constraints on an empty catalog: a 200 response with
    total 0, one page and no next page. *)
Lemma pagination_metadata_witness :
  exists data pg,
    fst (run (getRecommendations parseNothing None geocodeNothing
                (catalogOf []) (postRequest emptyBody))) = Status200 data pg /\
    total pg = 0%Z /\ totalPages pg = 1%Z /\ hasNext pg = false.
Proof.
  eexists. eexists. split; [reflexivity|].
  match goal with
  | |- total ?pg = _ /\ _ =>
      destruct (pagination_metadata parseNothing None geocodeNothing
                  (catalogOf []) (postRequest emptyBody) _ pg eq_refl)
        as (_ & _ & _ & _ & _ & Hempty)
  end.
  split; [reflexivity | exact (Hempty eq_refl)].
Defined.

(** ** The scenarios of section 8 *)

Lemma safeRatioScore_exact (w : Z) : safeRatioScore (IZR w) 0 = IZR w.
Proof.
  unfold safeRatioScore, JS.Math_max. rewrite Rminus_0_r, Rmax_right by lra.
  rewrite Rmult_1_r. apply round2_int.
Qed.

(** Price, area, distance and location text all match: 85 points of 85. *)
Example scenario_full_match :
  scoreProperty kathmanduListing scenarioPreferences =
  {| score := 85; maxPossible := 85; matchPercentage := 100;
     explanation :=
       [ {| reason := LocationTextMatched "Kathmandu"; points := 25 |};
         {| reason := PriceScored 5000000; points := 30 |};
         {| reason := AreaScored 1200; points := 15 |};
         {| reason := DistanceScored 1000; points := 15 |} ] |}.
Proof.
  assert (scoreCriteria kathmanduListing scenarioPreferences =
          {| st_score := 0 + 25 + 30 + 15 + 15;
             st_maxPossible := 0 + 25 + 30 + 15 + 15;
             st_explanation :=
               [ {| reason := LocationTextMatched "Kathmandu"; points := 25 |};
                 {| reason := PriceScored 5000000; points := 30 |};
                 {| reason := AreaScored 1200; points := 15 |};
                 {| reason := DistanceScored 1000; points := 15 |} ] |}) as E.
  { unfold scoreCriteria, scoreDistance, scoreArea, scoreRoi, scorePrice,
      scoreLocation.
    cbn [scenarioPreferences kathmanduListing pref_location pref_latitude
         pref_longitude pref_budget pref_roiPercent pref_areaSqft
         pref_maxDistanceFromHighway prop_priceNpr prop_areaSqft
         prop_distanceFromHighway].
    assert (textMatched kathmanduListing "Kathmandu" = true) as -> by reflexivity.
    assert (JS.gt 5000000 0 = true) as -> by (apply gt_true; lra).
    assert (JS.gt 1200 0 = true) as -> by (apply gt_true; lra).
    assert (JS.gt 1000 0 = true) as -> by (apply gt_true; lra).
    assert (pricePoints (Some 5000000) 5000000 = 30) as ->.
    { unfold pricePoints, JS.Math_abs.
      replace (5000000 - 5000000) with 0 by ring.
      rewrite Rabs_R0. replace (0 / 5000000) with 0 by field.
      apply (safeRatioScore_exact 30). }
    assert (areaPoints (Some 1200) 1200 = 15) as ->.
    { unfold areaPoints, JS.Math_abs.
      replace (1200 - 1200) with 0 by ring.
      rewrite Rabs_R0. replace (0 / 1200) with 0 by field.
      apply (safeRatioScore_exact 15). }
    assert (distancePoints (Some 500) 1000 = 15) as ->.
    { unfold distancePoints.
      assert (JS.le 500 1000 = true) as -> by (apply le_true; lra).
      reflexivity. }
    reflexivity. }
  unfold scoreProperty. rewrite E. cbv zeta.
  cbn [st_score st_maxPossible st_explanation].
  replace (0 + 25 + 30 + 15 + 15) with 85 by ring.
  assert (JS.eq 85 0 = false) as -> by (apply eq_false; lra).
  replace (85 / 85 * 100) with 100 by field.
  rewrite (round2_int 85), (Math_round_int 100). reflexivity.
Qed.

(** A listing priced 5,000,000 does not pass minPrice 6,000,000. *)
Example scenario_min_price_excludes :
  applyHardFilters [kathmanduListing] minPriceMustHave = [].
Proof.
  unfold applyHardFilters. cbn [filter].
  assert (passesHardFilters minPriceMustHave kathmanduListing = false) as E.
  { destruct (passesHardFilters minPriceMustHave kathmanduListing) eqn:H;
      [|reflexivity].
    apply passesHardFilters_Satisfies in H.
    destruct H as (_ & _ & _ & Hmin & _).
    destruct (Hmin 6000000 eq_refl) as (v & [= <-] & Hv). lra. }
  now rewrite E.
Qed.

(** ** Further properties of the scoring stage *)

Lemma isPositive_Positive x : isPositive x = true <-> Positive x.
Proof.
  unfold isPositive, Positive. destruct x as [v|].
  - rewrite gt_true. split.
    + intros H. now exists v.
    + now intros (w & [= <-] & H).
  - split; [discriminate | intros (w & H & _); discriminate].
Qed.

Lemma isActive_Active P c : isActive P c = true <-> Active c P.
Proof.
  destruct c; simpl; try apply isPositive_Positive.
  unfold HasCoordinates, HasText.
  destruct (pref_latitude P), (pref_longitude P);
    try (split; [intros _; left; split; discriminate | reflexivity]);
    (destruct (pref_location P) as [[| ch t]|]; split;
     try discriminate; try reflexivity;
     try (intros _; right; eexists; split; [reflexivity | discriminate]);
     intros [[H1 H2] | (t' & [= <-] & Hne)]; congruence).
Qed.

(** A block whose criterion is not active leaves the state alone; a block
    whose criterion is active makes exactly one award of its weight. *)
Lemma criterionStep_by_activity c L P st :
  (isActive P c = false -> criterionStep c L P st = st) /\
  (isActive P c = true ->
   exists r pts, criterionStep c L P st = award (criterionWeight c) r pts st).
Proof.
  destruct c; simpl.
  - unfold scoreLocation.
    destruct (pref_latitude P), (pref_longitude P);
      try (destruct (pref_location P) as [[| ch t]|];
           (split; [intros H; try discriminate; reflexivity
                   | intros H; try discriminate; eexists; eexists; reflexivity])).
    split; [discriminate|]. intros _.
    destruct (prop_latitude L), (prop_longitude L);
      try (destruct (pref_location P) as [[| ch t]|]);
      eexists; eexists; reflexivity.
  - unfold scorePrice, isPositive. destruct (pref_budget P); [|now split].
    destruct (JS.gt r 0); split; try discriminate; try reflexivity.
    intros _. eexists; eexists; reflexivity.
  - unfold scoreRoi, isPositive. destruct (pref_roiPercent P); [|now split].
    destruct (JS.gt r 0); split; try discriminate; try reflexivity.
    intros _. eexists; eexists; reflexivity.
  - unfold scoreArea, isPositive. destruct (pref_areaSqft P); [|now split].
    destruct (JS.gt r 0); split; try discriminate; try reflexivity.
    intros _. eexists; eexists; reflexivity.
  - unfold scoreDistance, isPositive.
    destruct (pref_maxDistanceFromHighway P); [|now split].
    destruct (JS.gt r 0); split; try discriminate; try reflexivity.
    intros _. eexists; eexists; reflexivity.
Qed.

Lemma criterionStep_counts c L P st :
  st_maxPossible (criterionStep c L P st) =
    st_maxPossible st + (if isActive P c then criterionWeight c else 0) /\
  List.length (st_explanation (criterionStep c L P st)) =
    (List.length (st_explanation st) + (if isActive P c then 1 else 0))%nat.
Proof.
  destruct (criterionStep_by_activity c L P st) as [Hoff Hon].
  destruct (isActive P c).
  - destruct (Hon eq_refl) as (r & pts & ->). unfold award. simpl.
    rewrite length_app. simpl. split; reflexivity.
  - rewrite (Hoff eq_refl). split; [lra | lia].
Qed.

(** X1. [maxPossible] is the sum of the weights of the active criteria, the
    explanation has exactly one entry per active criterion, and so
    [maxPossible] never exceeds 100 nor the explanation five entries. *)
Theorem maxPossible_counts_active_criteria
    (L : RecommendationProperty) (P : RecommendationPreferences) :
  (forall c, In c (activeCriteria P) <-> Active c P) /\
  maxPossible (scoreProperty L P) = totalWeight (activeCriteria P) /\
  List.length (explanation (scoreProperty L P)) = List.length (activeCriteria P) /\
  maxPossible (scoreProperty L P) <= 100 /\
  (List.length (explanation (scoreProperty L P)) <= 5)%nat.
Proof.
  assert (forall c, In c (activeCriteria P) <-> Active c P) as Hin.
  { intros c. unfold activeCriteria. rewrite filter_In, isActive_Active.
    split; [tauto|]. intros H. split; [|exact H].
    unfold allCriteria. destruct c; simpl; tauto. }
  assert (maxPossible (scoreProperty L P) = totalWeight (activeCriteria P) /\
          List.length (explanation (scoreProperty L P)) =
          List.length (activeCriteria P)) as [Hmax Hlen].
  { unfold scoreProperty. cbv zeta. simpl. rewrite scoreCriteria_steps.
    set (s1 := criterionStep CLocation L P initialState).
    set (s2 := criterionStep CPrice L P s1).
    set (s3 := criterionStep CRoi L P s2).
    set (s4 := criterionStep CArea L P s3).
    destruct (criterionStep_counts CLocation L P initialState) as [M1 N1].
    destruct (criterionStep_counts CPrice L P s1) as [M2 N2].
    destruct (criterionStep_counts CRoi L P s2) as [M3 N3].
    destruct (criterionStep_counts CArea L P s3) as [M4 N4].
    destruct (criterionStep_counts CDistance L P s4) as [M5 N5].
    fold s1 in M1, N1. fold s2 in M2, N2. fold s3 in M3, N3. fold s4 in M4, N4.
    rewrite M5, M4, M3, M2, M1, N5, N4, N3, N2, N1.
    unfold activeCriteria, allCriteria, totalWeight. cbn [filter].
    destruct (isActive P CLocation), (isActive P CPrice), (isActive P CRoi),
      (isActive P CArea), (isActive P CDistance);
      cbn [fold_right criterionWeight initialState st_maxPossible
           st_explanation List.length];
      (split; [lra | lia]). }
  split; [exact Hin|]. split; [exact Hmax|]. split; [exact Hlen|].
  rewrite Hmax, Hlen. unfold activeCriteria, allCriteria, totalWeight.
  cbn [filter].
  destruct (isActive P CLocation), (isActive P CPrice), (isActive P CRoi),
    (isActive P CArea), (isActive P CDistance);
    cbn [fold_right criterionWeight List.length];
    unfold WEIGHTS.location, WEIGHTS.price, WEIGHTS.roi, WEIGHTS.area,
      WEIGHTS.distance; (split; [lra | lia]).
Qed.

Lemma pointsAwarded_award w r pts st : pointsAwarded (award w r pts) st = pts.
Proof. unfold pointsAwarded, award. simpl. ring. Qed.

Lemma pointsAwarded_price L P b st :
  pref_budget P = Some b -> 0 < b ->
  pointsAwarded (scorePrice L P) st = pricePoints (prop_priceNpr L) b.
Proof.
  intros Hb Hpos. unfold pointsAwarded, scorePrice. rewrite Hb.
  apply gt_true in Hpos. rewrite Hpos. simpl. ring.
Qed.

Lemma pointsAwarded_roi L P t st :
  pref_roiPercent P = Some t -> 0 < t ->
  pointsAwarded (scoreRoi L P) st = roiPoints (prop_roiPercent L) t.
Proof.
  intros Hb Hpos. unfold pointsAwarded, scoreRoi. rewrite Hb.
  apply gt_true in Hpos. rewrite Hpos. simpl. ring.
Qed.

Lemma pointsAwarded_area L P t st :
  pref_areaSqft P = Some t -> 0 < t ->
  pointsAwarded (scoreArea L P) st = areaPoints (prop_areaSqft L) t.
Proof.
  intros Hb Hpos. unfold pointsAwarded, scoreArea. rewrite Hb.
  apply gt_true in Hpos. rewrite Hpos. simpl. ring.
Qed.

Lemma pointsAwarded_distance L P t st :
  pref_maxDistanceFromHighway P = Some t -> 0 < t ->
  pointsAwarded (scoreDistance L P) st =
  distancePoints (prop_distanceFromHighway L) t.
Proof.
  intros Hb Hpos. unfold pointsAwarded, scoreDistance. rewrite Hb.
  apply gt_true in Hpos. rewrite Hpos. simpl. ring.
Qed.

Lemma div_lt_1 a b : 0 < b -> a < b -> a / b < 1.
Proof.
  intros Hb H. apply Rmult_lt_reg_r with b; [assumption|].
  unfold Rdiv. rewrite Rmult_assoc, Rinv_l by lra. lra.
Qed.

Lemma div_le_div a b c : 0 < c -> a <= b -> a / c <= b / c.
Proof.
  intros Hc H. apply Rmult_le_compat_r; [|assumption].
  left. now apply Rinv_0_lt_compat.
Qed.

Lemma div_ge_1 a b : 0 < b -> b <= a -> 1 <= a / b.
Proof.
  intros Hb H. replace 1 with (b / b) by (field; lra). now apply div_le_div.
Qed.

(** X2. With a positive preferred ROI, the points of the ROI criterion never
    decrease when the listing's ROI grows; a listing that meets or exceeds
    the preferred ROI gets the full 15 points and one whose ROI is zero or
    negative gets none. *)
Theorem roi_points_monotone
    (P : RecommendationPreferences) (L1 L2 : RecommendationProperty)
    (preferred r1 r2 : R) (st : ScoreState) :
  pref_roiPercent P = Some preferred -> 0 < preferred ->
  prop_roiPercent L1 = Some r1 -> prop_roiPercent L2 = Some r2 ->
  r1 <= r2 ->
  pointsAwarded (scoreRoi L1 P) st <= pointsAwarded (scoreRoi L2 P) st /\
  (preferred <= r2 -> pointsAwarded (scoreRoi L2 P) st = 15) /\
  (r1 <= 0 -> pointsAwarded (scoreRoi L1 P) st = 0).
Proof.
  intros Hp Hpos H1 H2 Hle.
  rewrite !(pointsAwarded_roi _ P preferred st Hp Hpos), H1, H2.
  unfold roiPoints. split; [|split].
  - destruct (Rle_dec preferred r2) as [Hfull | Hbelow].
    + pose proof (roiPoints_bounds (Some r1) preferred Hpos) as Hb.
      unfold roiPoints in Hb.
      rewrite (proj2 (ge_true r2 preferred) Hfull).
      set (x := if JS.ge r1 preferred then _ else _) in *.
      unfold WEIGHTS.roi. lra.
    + rewrite (proj2 (ge_false r2 preferred)), (proj2 (ge_false r1 preferred))
        by lra.
      apply round2_le. apply Rmult_le_compat_l; [unfold WEIGHTS.roi; lra|].
      unfold JS.Math_max. apply Rle_max_compat_l. now apply div_le_div.
  - intros Hfull. apply ge_true in Hfull. rewrite Hfull. reflexivity.
  - intros Hzero. cmp_cases; [lra|].
    unfold JS.Math_max. rewrite Rmax_left.
    + rewrite Rmult_0_r. apply round2_0.
    + replace (r1 / preferred) with (- (- r1 / preferred)) by (field; lra).
      assert (0 <= - r1 / preferred); [|lra].
      apply Rmult_le_pos; [lra|]. left. now apply Rinv_0_lt_compat.
Qed.

Lemma roi_points_monotone_witness :
  let P := preferencesWith None (Some 12) None None None None in
  let L1 := listingWith None (Some 0) None None None None in
  let L2 := listingWith None (Some 14) None None None None in
  pointsAwarded (scoreRoi L1 P) initialState <=
    pointsAwarded (scoreRoi L2 P) initialState /\
  pointsAwarded (scoreRoi L2 P) initialState = 15 /\
  pointsAwarded (scoreRoi L1 P) initialState = 0.
Proof.
  intros P L1 L2.
  destruct (roi_points_monotone P L1 L2 12 0 14 initialState
              eq_refl ltac:(lra) eq_refl eq_refl ltac:(lra)) as (Hm & Hf & Hz).
  split; [exact Hm | split; [apply Hf; lra | apply Hz; lra]].
Defined.

(** X3. With a positive preferred maximum, the points of the
    distance-from-highway criterion never increase with the listing's
    distance: the full 15 points up to the preferred maximum, fewer beyond
    it, and none from twice the preferred maximum on. *)
Theorem distance_points_decay
    (P : RecommendationPreferences) (L1 L2 : RecommendationProperty)
    (preferredMax d1 d2 : R) (st : ScoreState) :
  pref_maxDistanceFromHighway P = Some preferredMax -> 0 < preferredMax ->
  prop_distanceFromHighway L1 = Some d1 -> prop_distanceFromHighway L2 = Some d2 ->
  d1 <= d2 ->
  pointsAwarded (scoreDistance L2 P) st <= pointsAwarded (scoreDistance L1 P) st /\
  (d1 <= preferredMax -> pointsAwarded (scoreDistance L1 P) st = 15) /\
  (2 * preferredMax <= d2 -> pointsAwarded (scoreDistance L2 P) st = 0).
Proof.
  intros Hp Hpos H1 H2 Hle.
  rewrite !(pointsAwarded_distance _ P preferredMax st Hp Hpos), H1, H2.
  unfold distancePoints. split; [|split].
  - destruct (Rle_dec d1 preferredMax) as [Hnear | Hbeyond].
    + pose proof (distancePoints_bounds (Some d2) preferredMax Hpos) as Hb.
      unfold distancePoints in Hb.
      rewrite (proj2 (le_true d1 preferredMax) Hnear).
      set (x := if JS.le d2 preferredMax then _ else _) in *.
      unfold WEIGHTS.distance. lra.
    + rewrite (proj2 (le_false d1 preferredMax)), (proj2 (le_false d2 preferredMax))
        by lra.
      apply safeRatioScore_antitone; [unfold WEIGHTS.distance; lra|].
      apply div_le_div; lra.
  - intros Hfull. apply le_true in Hfull. rewrite Hfull. reflexivity.
  - intros Hfar. cmp_cases; [lra|].
    apply safeRatioScore_floor. apply div_ge_1; lra.
Qed.

Lemma distance_points_decay_witness :
  let P := preferencesWith None None None (Some 1000) None None in
  let L1 := listingWith None None None (Some 500) None None in
  let L2 := listingWith None None None (Some 2500) None None in
  pointsAwarded (scoreDistance L2 P) initialState <=
    pointsAwarded (scoreDistance L1 P) initialState /\
  pointsAwarded (scoreDistance L1 P) initialState = 15 /\
  pointsAwarded (scoreDistance L2 P) initialState = 0.
Proof.
  intros P L1 L2.
  destruct (distance_points_decay P L1 L2 1000 500 2500 initialState
              eq_refl ltac:(lra) eq_refl eq_refl ltac:(lra)) as (Hm & Hf & Hz).
  split; [exact Hm | split; [apply Hf; lra | apply Hz; lra]].
Defined.

Lemma safeRatioScore_full (w : Z) ratio :
  ratio = 0 -> safeRatioScore (IZR w) ratio = IZR w.
Proof. intros ->. apply safeRatioScore_exact. Qed.





(** X6. Coordinates take precedence over text: when the preferences and the
    listing both carry a latitude and a longitude, the location text of the
    preferences has no influence on the result of [scoreProperty]. *)
Theorem coordinates_override_text
    (L : RecommendationProperty) (P : RecommendationPreferences)
    (text : option string) :
  pref_latitude P <> None -> pref_longitude P <> None ->
  prop_latitude L <> None -> prop_longitude L <> None ->
  scoreProperty L (withLocation P text) = scoreProperty L P.
Proof.
  intros Hplat Hplng Hlat Hlng.
  assert (forall st, scoreLocation L (withLocation P text) st = scoreLocation L P st)
    as Hloc.
  { intros st. unfold scoreLocation, radiusKmOf. simpl.
    destruct (pref_latitude P); [|contradiction].
    destruct (pref_longitude P); [|contradiction].
    destruct (prop_latitude L); [|contradiction].
    destruct (prop_longitude L); [|contradiction].
    reflexivity. }
  unfold scoreProperty, scoreCriteria. rewrite Hloc. reflexivity.
Qed.

Lemma coordinates_override_text_witness :
  let P := preferencesWith None None None None (Some 27.7) (Some 85.3) in
  let L := listingWith None None None None (Some 27.8) (Some 85.4) in
  scoreProperty L (withLocation P (Some "Pokhara"%string)) = scoreProperty L P.
Proof.
  intros P L.
  apply (coordinates_override_text L P (Some "Pokhara"%string));
    discriminate.
Defined.

Lemma centralCosine_sym lat1 lng1 lat2 lng2 :
  centralCosine lat1 lng1 lat2 lng2 = centralCosine lat2 lng2 lat1 lng1.
Proof.
  unfold centralCosine.
  replace (radians (lng1 - lng2)) with (- radians (lng2 - lng1))
    by (unfold radians; field).
  rewrite cos_neg. ring.
Qed.

Lemma centralCosine_same lat lng : centralCosine lat lng lat lng = 1.
Proof.
  unfold centralCosine.
  replace (radians (lng - lng)) with 0 by (unfold radians; field).
  rewrite cos_0. pose proof (sin2_cos2 (radians lat)) as H.
  unfold Rsqr in H. lra.
Qed.


(** X8. In coordinate mode, a listing that is no farther from the preferred
    point than another never gets fewer location points. *)
Theorem location_points_monotone
    (P : RecommendationPreferences) (L1 L2 : RecommendationProperty)
    (prefLat prefLng lat1 lng1 lat2 lng2 : R) (st : ScoreState) :
  pref_latitude P = Some prefLat -> pref_longitude P = Some prefLng ->
  prop_latitude L1 = Some lat1 -> prop_longitude L1 = Some lng1 ->
  prop_latitude L2 = Some lat2 -> prop_longitude L2 = Some lng2 ->
  haversineKm prefLat prefLng lat1 lng1 <= haversineKm prefLat prefLng lat2 lng2 ->
  pointsAwarded (scoreLocation L2 P) st <= pointsAwarded (scoreLocation L1 P) st.
Proof.
  intros Hplat Hplng Ha1 Hg1 Ha2 Hg2 Hd.
  unfold scoreLocation. rewrite Hplat, Hplng, Ha1, Hg1, Ha2, Hg2.
  rewrite !pointsAwarded_award.
  apply safeRatioScore_antitone; [unfold WEIGHTS.location; lra|].
  apply div_le_div; [apply radiusKmOf_pos | exact Hd].
Qed.

Lemma location_points_monotone_witness :
  let P := preferencesWith None None None None (Some 27.7) (Some 85.3) in
  let L1 := listingWith None None None None (Some 27.7) (Some 85.3) in
  let L2 := listingWith None None None None (Some 28.7) (Some 85.3) in
  pointsAwarded (scoreLocation L2 P) initialState <=
  pointsAwarded (scoreLocation L1 P) initialState.
Proof.
  intros P L1 L2.
  apply (location_points_monotone P L1 L2 27.7 85.3 27.7 85.3 28.7 85.3);
    try reflexivity.
  pose proof (haversineKm_nonneg 27.7 85.3 28.7 85.3) as Hnn.
  replace (haversineKm 27.7 85.3 27.7 85.3) with 0; [exact Hnn|].
  symmetry. rewrite haversineKm_formula, greatCircleKm_law_of_cosines,
    centralCosine_same, acos_1. ring.
Defined.

(** ** Further properties of the hard-filter stage *)

(** X9. A must-have set without constraints (every field absent, or an empty
    location or status text) filters nothing out. *)
Theorem applyHardFilters_unconstrained
    (S : list RecommendationProperty) (M : RecommendationMustHave) :
  Unconstrained M -> applyHardFilters S M = S.
Proof.
  intros (Hloc & Hcat & Hst & Hmin & Hmax & Hroi & Harea & Hdist).
  assert (forall L, passesHardFilters M L = true) as Hall.
  { intros L. unfold passesHardFilters.
    rewrite Hcat, Hmin, Hmax, Hroi, Harea, Hdist.
    destruct Hloc as [-> | ->], Hst as [-> | ->]; reflexivity. }
  unfold applyHardFilters. induction S as [| L S IH]; simpl; [reflexivity|].
  now rewrite Hall, IH.
Qed.

Lemma applyHardFilters_unconstrained_witness :
  applyHardFilters [kathmanduListing; kathmanduListing] emptyStatusMustHave =
  [kathmanduListing; kathmanduListing].
Proof.
  apply applyHardFilters_unconstrained.
  unfold Unconstrained, emptyStatusMustHave. simpl. tauto.
Defined.

(** X10. A must-have set with [minPrice > maxPrice] lets no listing through:
    the filter returns the empty sequence whatever the listings. *)
Theorem applyHardFilters_inverted_range_empty
    (S : list RecommendationProperty) (M : RecommendationMustHave)
    (minPrice maxPrice : R) :
  mh_minPrice M = Some minPrice -> mh_maxPrice M = Some maxPrice ->
  minPrice > maxPrice ->
  applyHardFilters S M = [].
Proof.
  intros Hmin Hmax Hgt.
  assert (forall L, passesHardFilters M L = false) as Hnone.
  { intros L. destruct (passesHardFilters M L) eqn:E; [|reflexivity].
    apply passesHardFilters_Satisfies in E.
    destruct E as (_ & _ & _ & Hlo & Hhi & _).
    destruct (Hlo _ Hmin) as (v & Hv & Hle).
    destruct (Hhi _ Hmax) as (v' & Hv' & Hle').
    rewrite Hv in Hv'. injection Hv' as <-. lra. }
  unfold applyHardFilters. induction S as [| L S IH]; simpl; [reflexivity|].
  now rewrite Hnone.
Qed.

Lemma applyHardFilters_inverted_range_empty_witness :
  applyHardFilters [kathmanduListing]
    (sanitizeMustHave parseNothing (body_mustHave invertedPriceBody)) = [].
Proof.
  apply (applyHardFilters_inverted_range_empty _ _ 10 5);
    [reflexivity | reflexivity | lra].
Defined.

(** X11. Hard filters compose: filtering by one must-have set and then by
    another gives the same listings in either order, and filtering a
    concatenation is concatenating the filtered parts. *)
Theorem applyHardFilters_compose
    (S T : list RecommendationProperty) (M1 M2 : RecommendationMustHave) :
  applyHardFilters (applyHardFilters S M1) M2 =
    applyHardFilters (applyHardFilters S M2) M1 /\
  applyHardFilters (S ++ T) M1 = applyHardFilters S M1 ++ applyHardFilters T M1.
Proof.
  unfold applyHardFilters. split; [|apply filter_app].
  induction S as [| L S IH]; simpl; [reflexivity|].
  destruct (passesHardFilters M1 L) eqn:E1, (passesHardFilters M2 L) eqn:E2;
    simpl; rewrite ?E1, ?E2; now rewrite ?IH.
Qed.

(** ** Further properties of the request handler: sanitizing *)

Lemma sappend_assoc (a b c : string) : ((a ++ b) ++ c = a ++ (b ++ c))%string.
Proof. induction a as [| x a IH]; simpl; [reflexivity | now rewrite IH]. Qed.

Lemma sappend_nil_r (a : string) : (a ++ EmptyString = a)%string.
Proof. induction a as [| x a IH]; simpl; [reflexivity | now rewrite IH]. Qed.

Lemma rev_string_acc s acc :
  JS.rev_string s acc = (JS.rev_string s EmptyString ++ acc)%string.
Proof.
  revert acc. induction s as [| c s IH]; intros acc; simpl; [reflexivity|].
  rewrite (IH (String c acc)), (IH (String c EmptyString)), sappend_assoc.
  reflexivity.
Qed.

Lemma rev_string_app a b :
  JS.rev_string (a ++ b) EmptyString =
  (JS.rev_string b EmptyString ++ JS.rev_string a EmptyString)%string.
Proof.
  induction a as [| c a IH]; simpl.
  - now rewrite sappend_nil_r.
  - rewrite rev_string_acc, IH, (rev_string_acc a (String c EmptyString)).
    now rewrite sappend_assoc.
Qed.

Lemma rev_string_involutive s :
  JS.rev_string (JS.rev_string s EmptyString) EmptyString = s.
Proof.
  induction s as [| c s IH]; simpl; [reflexivity|].
  rewrite (rev_string_acc s (String c EmptyString)), rev_string_app, IH.
  reflexivity.
Qed.

Lemma AllSpaces_app a b : AllSpaces (a ++ b) <-> AllSpaces a /\ AllSpaces b.
Proof.
  induction a as [| c a IH]; simpl; [tauto|]. rewrite IH. tauto.
Qed.

Lemma AllSpaces_rev s : AllSpaces s -> AllSpaces (JS.rev_string s EmptyString).
Proof.
  induction s as [| c s IH]; simpl; [trivial|]. intros [Hc Hs].
  rewrite rev_string_acc. apply AllSpaces_app. simpl. auto.
Qed.

Lemma trimStart_spec s :
  (exists before, s = (before ++ JS.trimStart s)%string /\ AllSpaces before) /\
  (forall c rest, JS.trimStart s = String c rest -> JS.is_space c = false).
Proof.
  induction s as [| c s [(before & Hs & Hb) Hhead]]; simpl.
  - split; [exists EmptyString; now split | discriminate].
  - destruct (JS.is_space c) eqn:E.
    + split; [|exact Hhead].
      exists (String c before). simpl. rewrite <- Hs. now repeat split.
    + split; [exists EmptyString; now split|].
      now intros c' rest [= <- _].
Qed.

(** [trim] removes exactly the white space at the two ends. *)
Lemma trim_Trimmed s : Trimmed s (JS.trim s).
Proof.
  unfold JS.trim.
  destruct (trimStart_spec s) as [(before & Hs & Hb) Hhead].
  set (u := JS.trimStart s) in *.
  destruct (trimStart_spec (JS.rev_string u EmptyString))
    as [(tail & Hr & Ht) Hlast].
  set (v := JS.trimStart (JS.rev_string u EmptyString)) in *.
  assert (u = (JS.rev_string v EmptyString ++ JS.rev_string tail EmptyString)%string)
    as Hu.
  { rewrite <- rev_string_app, <- Hr. now rewrite rev_string_involutive. }
  split; [|split].
  - exists before, (JS.rev_string tail EmptyString).
    rewrite <- Hu. split; [exact Hs|]. split; [exact Hb|].
    now apply AllSpaces_rev.
  - intros c rest Hc. apply (Hhead c (rest ++ JS.rev_string tail EmptyString)%string).
    rewrite Hu, Hc. reflexivity.
  - intros front c Hc. apply (Hlast c (JS.rev_string front EmptyString)).
    rewrite <- (rev_string_involutive v), Hc, rev_string_app. reflexivity.
Qed.

Lemma trimStart_fixed s :
  (forall c rest, s = String c rest -> JS.is_space c = false) ->
  JS.trimStart s = s.
Proof.
  intros H. destruct s as [| c s]; simpl; [reflexivity|].
  now rewrite (H c s eq_refl).
Qed.

Lemma trim_fixed s :
  (forall c rest, s = String c rest -> JS.is_space c = false) ->
  (forall front c, s = (front ++ String c EmptyString)%string ->
                   JS.is_space c = false) ->
  JS.trim s = s.
Proof.
  intros Hhead Hlast. unfold JS.trim.
  rewrite (trimStart_fixed s Hhead).
  rewrite trimStart_fixed; [apply rev_string_involutive|].
  intros c rest Hc. apply (Hlast (JS.rev_string rest EmptyString) c).
  rewrite <- (rev_string_involutive s), Hc. simpl.
  now rewrite rev_string_acc.
Qed.

Lemma trim_idempotent s : JS.trim (JS.trim s) = JS.trim s.
Proof.
  destruct (trim_Trimmed s) as (_ & Hhead & Hlast).
  now apply trim_fixed.
Qed.

Lemma trimmedOrUndefined_spec input t :
  trimmedOrUndefined input = Some t ->
  t <> EmptyString /\ exists raw, input = Some raw /\ t = JS.trim raw.
Proof.
  unfold trimmedOrUndefined. destruct input as [raw|]; [|discriminate].
  destruct (JS.trim raw) eqn:E; [discriminate|].
  intros [= <-]. split; [discriminate|]. now exists raw.
Qed.

Lemma trimmedOrUndefined_idempotent input :
  trimmedOrUndefined (trimmedOrUndefined input) = trimmedOrUndefined input.
Proof.
  destruct (trimmedOrUndefined input) as [t|] eqn:E; [|reflexivity].
  destruct (trimmedOrUndefined_spec _ _ E) as (Hne & raw & -> & ->).
  unfold trimmedOrUndefined. rewrite trim_idempotent.
  destruct (JS.trim raw); [contradiction | reflexivity].
Qed.

(** X12. The text fields that [sanitizeMustHave] keeps are trimmed and not
    empty: a location or status it returns is the text received without the
    white space at its two ends, and a text that is blank is dropped. *)
Theorem sanitizeMustHave_text_trimmed
    (Number_parseFloat : string -> option R) (input : RawMustHave) :
  (forall t,
     mh_location (sanitizeMustHave Number_parseFloat (Some input)) = Some t ->
     t <> EmptyString /\
     exists raw, raw_mh_location input = Some raw /\ Trimmed raw t) /\
  (forall t,
     mh_status (sanitizeMustHave Number_parseFloat (Some input)) = Some t ->
     t <> EmptyString /\
     exists raw, raw_mh_status input = Some raw /\ Trimmed raw t) /\
  (forall raw, raw_mh_location input = Some raw -> AllSpaces raw ->
     mh_location (sanitizeMustHave Number_parseFloat (Some input)) = None).
Proof.
  simpl. split; [|split].
  - intros t H. destruct (trimmedOrUndefined_spec _ _ H) as (Hne & raw & Hr & ->).
    split; [exact Hne|]. exists raw. split; [exact Hr | apply trim_Trimmed].
  - intros t H. destruct (trimmedOrUndefined_spec _ _ H) as (Hne & raw & Hr & ->).
    split; [exact Hne|]. exists raw. split; [exact Hr | apply trim_Trimmed].
  - intros raw -> Hblank. unfold trimmedOrUndefined.
    assert (JS.trimStart raw = EmptyString) as E.
    { clear -Hblank. induction raw as [| c raw IH]; simpl; [reflexivity|].
      destruct Hblank as [-> Hrest]. now apply IH. }
    unfold JS.trim. rewrite E. reflexivity.
Qed.

Lemma parseNumber_ofNumber pf n : parseNumber pf (ofNumber n) = n.
Proof. destruct n; reflexivity. Qed.

Lemma sanitized_filter_lemma pf input L :
  passesHardFilters (sanitizeMustHave pf input) L = true <->
  SatisfiesAsStated (sanitizeMustHave pf input) L.
Proof.
  rewrite passesHardFilters_Satisfies.
  unfold Satisfies, SatisfiesAsStated.
  assert (forall t, mh_status (sanitizeMustHave pf input) = Some t ->
                    t <> EmptyString) as Hne.
  { intros t. destruct input as [input|]; simpl; [|discriminate].
    intros H. now destruct (trimmedOrUndefined_spec _ _ H). }
  split; intros (Hloc & Hst & Hnum); (split; [exact Hloc | split; [|exact Hnum]]).
  - intros status Hs. apply Hst; [exact Hs | now apply Hne].
  - intros status Hs _. now apply Hst.
Qed.

(** X13. As the handler calls it, on a sanitized must-have set, the hard
    filter keeps exactly the listings that satisfy every present
    constraint, status included: a sanitized status is never the empty
    string. *)
Theorem sanitized_filter_as_stated
    (Number_parseFloat : string -> option R) (input : option RawMustHave)
    (S : list RecommendationProperty) :
  Selected (SatisfiesAsStated (sanitizeMustHave Number_parseFloat input)) S
    (applyHardFilters S (sanitizeMustHave Number_parseFloat input)).
Proof.
  apply filter_Selected. intros L. apply sanitized_filter_lemma.
Qed.

(** For a GET request the query string is parsed by [buildFromQuery]
    and its result sanitized again; the outcome is the single parse of each
    query parameter, with the two text parameters trimmed. *)
Lemma get_query_sanitized
    (Number_parseFloat : string -> option R) (query : string -> JsValue) :
  sanitizeMustHave Number_parseFloat
    (body_mustHave (requestSource Number_parseFloat (getRequest query))) =
  {| mh_location := trimmedOrUndefined (extractQueryString (query "location"%string));
     mh_categoryId := parseNumber Number_parseFloat (query "categoryId"%string);
     mh_minPrice := parseNumber Number_parseFloat (query "minPrice"%string);
     mh_maxPrice := parseNumber Number_parseFloat (query "maxPrice"%string);
     mh_minRoi := parseNumber Number_parseFloat (query "minRoi"%string);
     mh_minArea := parseNumber Number_parseFloat (query "minArea"%string);
     mh_maxDistanceFromHighway :=
       parseNumber Number_parseFloat (query "maxDistanceFromHighway"%string);
     mh_status := trimmedOrUndefined (extractQueryString (query "status"%string)) |} /\
  sanitizePreferences Number_parseFloat
    (body_preferences (requestSource Number_parseFloat (getRequest query))) =
  {| pref_location :=
       trimmedOrUndefined (extractQueryString (query "preferredLocation"%string));
     pref_latitude := parseNumber Number_parseFloat (query "preferredLatitude"%string);
     pref_longitude := parseNumber Number_parseFloat (query "preferredLongitude"%string);
     pref_locationRadiusKm :=
       parseNumber Number_parseFloat (query "locationRadiusKm"%string);
     pref_budget := parseNumber Number_parseFloat (query "budget"%string);
     pref_roiPercent := parseNumber Number_parseFloat (query "preferredRoi"%string);
     pref_areaSqft := parseNumber Number_parseFloat (query "preferredArea"%string);
     pref_maxDistanceFromHighway :=
       parseNumber Number_parseFloat (query "preferredMaxDistance"%string) |}.
Proof.
  unfold requestSource, getRequest, buildFromQuery, sanitizeMustHave,
    sanitizePreferences.
  cbn [req_method req_query body_mustHave body_preferences raw_mh_location
       raw_mh_categoryId raw_mh_minPrice raw_mh_maxPrice raw_mh_minRoi
       raw_mh_minArea raw_mh_maxDistanceFromHighway raw_mh_status
       raw_pref_location raw_pref_latitude raw_pref_longitude
       raw_pref_locationRadiusKm raw_pref_budget raw_pref_roiPercent
       raw_pref_areaSqft raw_pref_maxDistanceFromHighway].
  rewrite !parseNumber_ofNumber. split; reflexivity.
Qed.

(** X14. Sanitizing is idempotent: a must-have set or a preference set that
    came out of the sanitizer goes through it again unchanged. *)
Theorem sanitize_idempotent
    (Number_parseFloat : string -> option R)
    (mustHave : option RawMustHave) (preferences : option RawPreferences) :
  sanitizeMustHave Number_parseFloat
    (Some (rawOfMustHave (sanitizeMustHave Number_parseFloat mustHave))) =
  sanitizeMustHave Number_parseFloat mustHave /\
  sanitizePreferences Number_parseFloat
    (Some (rawOfPreferences (sanitizePreferences Number_parseFloat preferences))) =
  sanitizePreferences Number_parseFloat preferences.
Proof.
  split.
  - unfold sanitizeMustHave at 1. unfold rawOfMustHave.
    cbn [raw_mh_location raw_mh_categoryId raw_mh_minPrice raw_mh_maxPrice
         raw_mh_minRoi raw_mh_minArea raw_mh_maxDistanceFromHighway raw_mh_status].
    rewrite !parseNumber_ofNumber.
    destruct mustHave as [input|]; simpl; [|reflexivity].
    now rewrite !trimmedOrUndefined_idempotent.
  - unfold sanitizePreferences at 1. unfold rawOfPreferences.
    cbn [raw_pref_location raw_pref_latitude raw_pref_longitude
         raw_pref_locationRadiusKm raw_pref_budget raw_pref_roiPercent
         raw_pref_areaSqft raw_pref_maxDistanceFromHighway].
    rewrite !parseNumber_ofNumber.
    destruct preferences as [input|]; simpl; [|reflexivity].
    now rewrite !trimmedOrUndefined_idempotent.
Qed.

(** ** Further properties of the request handler: ranking and paging *)

Lemma insertRanked_Permutation x l : Permutation (x :: l) (insertRanked x l).
Proof.
  induction l as [| y l IH]; simpl; [reflexivity|].
  destruct (JS.le (compareRanked x y) 0); [reflexivity|].
  rewrite perm_swap. now apply perm_skip.
Qed.

Lemma sortRanked_Permutation (l : list RankedItem) : Permutation l (sortRanked l).
Proof.
  unfold sortRanked. induction l as [| x l IH]; simpl; [constructor|].
  rewrite <- insertRanked_Permutation. now apply perm_skip.
Qed.

Lemma Math_trunc_int (z : Z) : JS.Math_trunc (IZR z) = z.
Proof.
  unfold JS.Math_trunc. destruct (JS.le 0 (IZR z)).
  - apply ZfloorZ.
  - unfold Zceil. rewrite ZfloorNZ. lia.
Qed.

Lemma slice_length {A} (xs : list A) (start end_ : Z) :
  (0 <= start <= end_)%Z ->
  Z.of_nat (List.length (slice xs start end_)) =
  Z.max 0 (Z.min (end_ - start) (Z.of_nat (List.length xs) - start)).
Proof.
  intros H. unfold slice. rewrite length_firstn, length_skipn. lia.
Qed.

Lemma in_firstn {A} (x : A) n l : In x (firstn n l) -> In x l.
Proof.
  revert l. induction n as [| n IH]; intros [| y l]; simpl; try tauto.
  intros [H | H]; [now left | right; now apply IH].
Qed.

Lemma in_skipn {A} (x : A) n l : In x (skipn n l) -> In x l.
Proof.
  revert l. induction n as [| n IH]; intros [| y l]; simpl; try tauto.
  intros H. right. now apply IH.
Qed.

Lemma firstn_plus {A} n m (l : list A) :
  firstn (n + m) l = firstn n l ++ firstn m (skipn n l).
Proof.
  revert l. induction n as [| n IH]; intros l; simpl; [reflexivity|].
  destruct l as [| y l]; simpl.
  - now rewrite firstn_nil.
  - now rewrite IH.
Qed.

Lemma slice_In {A} (xs : list A) (start end_ : Z) x :
  In x (slice xs start end_) -> In x xs.
Proof.
  unfold slice. intros H. apply in_firstn in H.
  revert H. apply in_skipn.
Qed.

(** Consecutive windows of one width, put end to end, are a prefix. *)
Lemma slices_concat {A} (xs : list A) (width : nat) (n : nat) :
  List.concat (map (fun p => firstn width (skipn (p * width) xs)) (seq 0 n)) =
  firstn (n * width) xs.
Proof.
  induction n as [| n IH].
  - reflexivity.
  - rewrite seq_S, map_app, concat_app, IH.
    cbn [map List.concat Nat.add]. rewrite app_nil_r.
    replace (S n * width)%nat with (n * width + width)%nat by lia.
    now rewrite firstn_plus.
Qed.

(** X16. Paging loses and repeats nothing: for a page size of at least 1,
    the data of the pages 1, 2, ... up to [totalPages], put end to end, are
    the whole ranked sequence, and every page holds at most [limit] items. *)
Theorem pages_partition_ranked (ranked : list RankedItem) (lim : Z) :
  (1 <= lim)%Z ->
  let pages := Z.to_nat (Z.max 1 (JS.Math_ceil (IZR (Z.of_nat (List.length ranked)) / IZR lim))) in
  List.concat (map (fun p => responseData (paginate ranked (Z.of_nat p) lim))
            (seq 1 pages)) = ranked /\
  forall p, (List.length (responseData (paginate ranked p lim)) <= Z.to_nat lim)%nat.
Proof.
  intros Hl pages. split.
  - rewrite <- seq_shift, map_map.
    assert (forall p,
              responseData (paginate ranked (Z.of_nat (S p)) lim) =
              firstn (Z.to_nat lim) (skipn (p * Z.to_nat lim) ranked)) as Hpage.
    { intros p. unfold paginate, slice. cbn [responseData]. f_equal.
      - f_equal. lia.
      - f_equal. rewrite Nat2Z.inj_succ. nia. }
    rewrite (map_ext _ _ Hpage), slices_concat.
    apply firstn_all2.
    destruct (Zceil_div_IsCeilDiv (Z.of_nat (List.length ranked)) lim ltac:(lia))
      as [Hk _].
    subst pages.
    set (k := JS.Math_ceil _) in *. nia.
  - intros p. unfold paginate, slice. cbn [responseData].
    rewrite length_firstn. lia.
Qed.

Lemma pages_partition_ranked_witness :
  let ranked := map (rankOne noPreferences) [kathmanduListing; kathmanduListing;
                                             kathmanduListing] in
  List.concat (map (fun p => responseData (paginate ranked (Z.of_nat p) 2))
            (seq 1 (Z.to_nat (Z.max 1 (JS.Math_ceil (IZR 3 / IZR 2)))))) = ranked.
Proof.
  intros ranked.
  exact (proj1 (pages_partition_ranked ranked 2 ltac:(lia))).
Defined.

Section HandlerProperties.

Variable Number_parseFloat : string -> option R.
Variable GOOGLE_MAPS_API_KEY : option string.
Variable googleGeocode : string -> option Coordinates.
Variable Property_findAll : WhereOptions -> string + list RecommendationProperty.

(** What [resolveCoordinates] does: nothing, or one geocoding request for the
    preferred text whose answer, if any, becomes the coordinates. *)
Lemma resolveCoordinates_cases preferences tr :
  resolveCoordinates GOOGLE_MAPS_API_KEY googleGeocode preferences tr =
    (preferences, tr) \/
  exists text,
    pref_location preferences = Some text /\ text <> EmptyString /\
    (pref_latitude preferences = None \/ pref_longitude preferences = None) /\
    (exists key, GOOGLE_MAPS_API_KEY = Some key /\ key <> EmptyString) /\
    resolveCoordinates GOOGLE_MAPS_API_KEY googleGeocode preferences tr =
      (match googleGeocode text with
       | Some c => setCoordinates preferences c
       | None => preferences
       end, tr ++ [GeocodeRequest text]).
Proof.
  unfold resolveCoordinates.
  destruct (pref_location preferences) as [[| ch t]|] eqn:Eloc;
    try (left; reflexivity).
  destruct (pref_latitude preferences) as [lat|] eqn:Elat,
           (pref_longitude preferences) as [lng|] eqn:Elng;
    [left; reflexivity | | |].
  all: unfold bind, geocodeLocation.
  all: destruct GOOGLE_MAPS_API_KEY as [[| kc k]|]; try (left; reflexivity).
  all: destruct (JS.trim (String ch t)); [left; reflexivity|].
  all: right; exists (String ch t).
  all: split; [reflexivity|]; split; [discriminate|].
  all: split; [tauto|].
  all: split; [eexists; split; [reflexivity | discriminate]|].
  all: reflexivity.
Qed.

Lemma getRecommendations_unfold req :
  let source := requestSource Number_parseFloat req in
  let mustHave := sanitizeMustHave Number_parseFloat (body_mustHave source) in
  let resolved :=
    resolveCoordinates GOOGLE_MAPS_API_KEY googleGeocode
      (sanitizePreferences Number_parseFloat (body_preferences source)) [] in
  run (getRecommendations Number_parseFloat GOOGLE_MAPS_API_KEY googleGeocode
         Property_findAll req) =
  if invalidPriceRange mustHave then
    (Status400 "Invalid constraints: minPrice cannot be greater than maxPrice",
     snd resolved)
  else
    match Property_findAll (buildWhere mustHave) with
    | inl message =>
        (Status500 message, snd resolved ++ [CatalogQuery (buildWhere mustHave)])
    | inr candidates =>
        (paginate
           (sortRanked
              (map (rankOne (fst resolved)) (applyHardFilters candidates mustHave)))
           (requestedPage source) (requestedLimit source),
         snd resolved ++ [CatalogQuery (buildWhere mustHave)])
    end.
Proof.
  intros source mustHave resolved.
  unfold getRecommendations, run, bind. cbv zeta.
  fold source. fold mustHave. fold resolved.
  destruct resolved as [preferences evs]. simpl.
  destruct (invalidPriceRange mustHave); [reflexivity|].
  unfold findAll, bind, emit, ret.
  destruct (Property_findAll (buildWhere mustHave)); reflexivity.
Qed.

Lemma response_200 req data pg :
  let source := requestSource Number_parseFloat req in
  let mustHave := sanitizeMustHave Number_parseFloat (body_mustHave source) in
  let resolved :=
    resolveCoordinates GOOGLE_MAPS_API_KEY googleGeocode
      (sanitizePreferences Number_parseFloat (body_preferences source)) [] in
  fst (run (getRecommendations Number_parseFloat GOOGLE_MAPS_API_KEY googleGeocode
              Property_findAll req)) = Status200 data pg ->
  exists candidates,
    Property_findAll (buildWhere mustHave) = inr candidates /\
    paginate
      (sortRanked (map (rankOne (fst resolved)) (applyHardFilters candidates mustHave)))
      (requestedPage source) (requestedLimit source) = Status200 data pg.
Proof.
  intros source mustHave resolved. rewrite getRecommendations_unfold.
  fold source. fold mustHave. fold resolved.
  destruct (invalidPriceRange mustHave); [discriminate|].
  destruct (Property_findAll (buildWhere mustHave)) as [m | candidates];
    [discriminate|].
  simpl. intros H. now exists candidates.
Qed.

(** X17. In every 200 response the page number is at least 1 and the page
    size between 1 and 50, with 1 and 20 when the request gives none; the
    data hold exactly the items of that page,
    [max 0 (min limit (total - (page - 1) * limit))] of them, so never more
    than [limit], and none when the page lies beyond [totalPages]. *)
Theorem response_page_window (req : Request) (data : list RankedItem) (pg : Pagination) :
  fst (run (getRecommendations Number_parseFloat GOOGLE_MAPS_API_KEY googleGeocode
              Property_findAll req)) = Status200 data pg ->
  (1 <= page pg)%Z /\ (1 <= limit pg <= 50)%Z /\
  (body_page (requestSource Number_parseFloat req) = None -> page pg = 1%Z) /\
  (body_limit (requestSource Number_parseFloat req) = None -> limit pg = 20%Z) /\
  Z.of_nat (List.length data) =
    Z.max 0 (Z.min (limit pg) (total pg - (page pg - 1) * limit pg)) /\
  (totalPages pg < page pg -> data = [])%Z.
Proof.
  intros Hresp. destruct (response_200 req data pg Hresp) as (candidates & _ & Hpag).
  set (source := requestSource Number_parseFloat req) in *.
  set (ranked := sortRanked _) in Hpag.
  pose proof (requestedPage_ge_1 source) as Hp.
  pose proof (requestedLimit_range source) as Hl.
  unfold paginate in Hpag. injection Hpag as Hdata Hpg.
  assert (Z.of_nat (List.length data) =
          Z.max 0 (Z.min (limit pg) (total pg - (page pg - 1) * limit pg))) as Hlen.
  { rewrite <- Hdata, <- Hpg. cbn [page limit total].
    rewrite slice_length by nia. f_equal. f_equal. lia. }
  split; [rewrite <- Hpg; exact Hp|].
  split; [rewrite <- Hpg; exact Hl|].
  split.
  { intros Hnone. rewrite <- Hpg. cbn [page]. unfold requestedPage.
    rewrite Hnone. simpl. rewrite (Math_trunc_int 1). reflexivity. }
  split.
  { intros Hnone. rewrite <- Hpg. cbn [limit]. unfold requestedLimit.
    rewrite Hnone. simpl. rewrite (Math_trunc_int 20). reflexivity. }
  split; [exact Hlen|].
  intros Hbeyond.
  assert (List.length data = 0%nat) as H0.
  { apply Nat2Z.inj. rewrite Hlen. rewrite <- Hpg in *. cbn [page limit total totalPages] in *.
    destruct (Zceil_div_IsCeilDiv (Z.of_nat (List.length ranked))
                (requestedLimit source) ltac:(lia)) as [Hk _].
    set (k := JS.Math_ceil _) in *. nia. }
  destruct data; [reflexivity | discriminate].
Qed.

(** X18. In every 200 response each item of the data is a catalog row that
    satisfies the must-have set, together with its [scoreProperty] result
    for one and the same preference set: the sanitized one, or that with
    the coordinates the geocoding service gave for its text.  The ranking
    neither adds nor drops an item: the data are taken from a
    rearrangement of the scored rows that passed the hard filters. *)
Theorem response_items (req : Request) (data : list RankedItem) (pg : Pagination) :
  let mustHave :=
    sanitizeMustHave Number_parseFloat
      (body_mustHave (requestSource Number_parseFloat req)) in
  let sanitized :=
    sanitizePreferences Number_parseFloat
      (body_preferences (requestSource Number_parseFloat req)) in
  fst (run (getRecommendations Number_parseFloat GOOGLE_MAPS_API_KEY googleGeocode
              Property_findAll req)) = Status200 data pg ->
  exists candidates preferences ranked,
    Property_findAll (buildWhere mustHave) = inr candidates /\
    (preferences = sanitized \/
     exists text c, pref_location sanitized = Some text /\
                    googleGeocode text = Some c /\
                    preferences = setCoordinates sanitized c) /\
    Permutation (map (rankOne preferences) (applyHardFilters candidates mustHave))
                ranked /\
    (forall item, In item data -> In item ranked) /\
    forall item, In item data ->
      In (item_property item) candidates /\
      SatisfiesAsStated mustHave (item_property item) /\
      item = rankOne preferences (item_property item).
Proof.
  intros mustHave sanitized Hresp.
  destruct (response_200 req data pg Hresp) as (candidates & Hfind & Hpag).
  fold mustHave in Hfind, Hpag. fold sanitized in Hpag.
  set (resolved := resolveCoordinates _ _ sanitized []) in Hpag.
  set (survivors := applyHardFilters candidates mustHave) in Hpag.
  unfold paginate in Hpag. injection Hpag as Hdata _.
  pose proof (sortRanked_Permutation (map (rankOne (fst resolved)) survivors))
    as Hperm.
  exists candidates, (fst resolved),
    (sortRanked (map (rankOne (fst resolved)) survivors)).
  split; [exact Hfind|]. split.
  { subst resolved.
    destruct (resolveCoordinates_cases sanitized [])
      as [-> | (text & Hloc & _ & _ & _ & ->)]; [now left|].
    simpl. destruct (googleGeocode text) as [c|] eqn:Egeo; [|now left].
    right. now exists text, c. }
  split; [exact Hperm|].
  split.
  { intros item Hin. rewrite <- Hdata in Hin. now apply slice_In in Hin. }
  intros item Hin. rewrite <- Hdata in Hin. apply slice_In in Hin.
  apply (Permutation_in _ (Permutation_sym Hperm)) in Hin.
  apply in_map_iff in Hin. destruct Hin as (property & <- & Hprop).
  unfold survivors, applyHardFilters in Hprop. apply filter_In in Hprop.
  destruct Hprop as [Hcand Hpass]. cbn [rankOne item_property].
  split; [exact Hcand|]. split; [|reflexivity].
  pose proof (sanitized_filter_lemma Number_parseFloat
                (body_mustHave (requestSource Number_parseFloat req))
                (item_property (rankOne (fst resolved) property))) as Hiff.
  apply Hiff. exact Hpass.
Qed.

End HandlerProperties.

Section HandlerEffects.

Variable Number_parseFloat : string -> option R.
Variable GOOGLE_MAPS_API_KEY : option string.
Variable googleGeocode : string -> option Coordinates.
Variable Property_findAll : WhereOptions -> string + list RecommendationProperty.

(** X19. The outside calls of one request: at most one geocoding request,
    made first and only when a text preference comes without both
    coordinates and an API key is configured, then exactly one catalog query
    with the constraints of the sanitized must-have set, unless the price
    range is inverted, in which case there is none. *)
Theorem outside_calls (req : Request) :
  let mustHave :=
    sanitizeMustHave Number_parseFloat
      (body_mustHave (requestSource Number_parseFloat req)) in
  let sanitized :=
    sanitizePreferences Number_parseFloat
      (body_preferences (requestSource Number_parseFloat req)) in
  exists geo cat,
    snd (run (getRecommendations Number_parseFloat GOOGLE_MAPS_API_KEY
                googleGeocode Property_findAll req)) = geo ++ cat /\
    (geo = [] \/
     exists text key,
       geo = [GeocodeRequest text] /\
       pref_location sanitized = Some text /\
       (pref_latitude sanitized = None \/ pref_longitude sanitized = None) /\
       GOOGLE_MAPS_API_KEY = Some key /\ key <> EmptyString) /\
    ((invalidPriceRange mustHave = true /\ cat = []) \/
     (invalidPriceRange mustHave = false /\
      cat = [CatalogQuery (buildWhere mustHave)])).
Proof.
  intros mustHave sanitized.
  rewrite getRecommendations_unfold. fold mustHave. fold sanitized.
  set (resolved := resolveCoordinates _ _ sanitized []).
  assert (snd resolved = [] \/
          exists text key,
            snd resolved = [GeocodeRequest text] /\
            pref_location sanitized = Some text /\
            (pref_latitude sanitized = None \/ pref_longitude sanitized = None) /\
            GOOGLE_MAPS_API_KEY = Some key /\ key <> EmptyString) as Hgeo.
  { subst resolved.
    destruct (resolveCoordinates_cases Number_parseFloat GOOGLE_MAPS_API_KEY googleGeocode sanitized [])
      as [-> | (text & Hloc & _ & Hmiss & (key & Hkey & Hne) & ->)]; [now left|].
    right. exists text, key. simpl. tauto. }
  destruct (invalidPriceRange mustHave).
  - exists (snd resolved), []. rewrite app_nil_r. simpl.
    split; [reflexivity|]. split; [exact Hgeo | now left].
  - exists (snd resolved), [CatalogQuery (buildWhere mustHave)].
    split; [destruct (Property_findAll (buildWhere mustHave)); reflexivity|].
    split; [exact Hgeo | now right].
Qed.

(** X20. When the catalog query fails, the answer is status 500 carrying the
    message of the error, after exactly one catalog query; nothing is
    filtered or scored. *)
Theorem catalog_failure_500 (req : Request) (message : string) :
  let mustHave :=
    sanitizeMustHave Number_parseFloat
      (body_mustHave (requestSource Number_parseFloat req)) in
  invalidPriceRange mustHave = false ->
  Property_findAll (buildWhere mustHave) = inl message ->
  exists geo,
    run (getRecommendations Number_parseFloat GOOGLE_MAPS_API_KEY googleGeocode
           Property_findAll req) =
    (Status500 message, geo ++ [CatalogQuery (buildWhere mustHave)]) /\
    OnlyGeocoding geo.
Proof.
  intros mustHave Hvalid Hfail.
  rewrite getRecommendations_unfold. fold mustHave. rewrite Hvalid, Hfail.
  eexists. split; [reflexivity|].
  destruct (resolveCoordinates_trace Number_parseFloat GOOGLE_MAPS_API_KEY googleGeocode
              Property_findAll
              (sanitizePreferences Number_parseFloat
                 (body_preferences (requestSource Number_parseFloat req))) [])
    as (p & evs & -> & Hev).
  exact Hev.
Qed.

End HandlerEffects.

Section Geocoding.

Variable GOOGLE_MAPS_API_KEY : option string.
Variable googleGeocode : string -> option Coordinates.

(** X21. Geocoding touches the coordinates only: the preferences that come
    out of [resolveCoordinates] have the text, radius, budget, ROI, area and
    highway distance that went in; they are unchanged altogether when both
    coordinates were given, when no API key is configured, or when the
    service has no answer, and no request is made in the first two cases. *)
Theorem geocoding_fills_coordinates_only
    (preferences : RecommendationPreferences) (tr : list Event) :
  let resolved :=
    resolveCoordinates GOOGLE_MAPS_API_KEY googleGeocode preferences tr in
  (pref_location (fst resolved) = pref_location preferences /\
   pref_locationRadiusKm (fst resolved) = pref_locationRadiusKm preferences /\
   pref_budget (fst resolved) = pref_budget preferences /\
   pref_roiPercent (fst resolved) = pref_roiPercent preferences /\
   pref_areaSqft (fst resolved) = pref_areaSqft preferences /\
   pref_maxDistanceFromHighway (fst resolved) =
     pref_maxDistanceFromHighway preferences) /\
  (pref_latitude preferences <> None /\ pref_longitude preferences <> None ->
   resolved = (preferences, tr)) /\
  (GOOGLE_MAPS_API_KEY = None -> resolved = (preferences, tr)) /\
  ((forall text, googleGeocode text = None) -> fst resolved = preferences).
Proof.
  intros resolved. subst resolved.
  destruct (resolveCoordinates_cases parseNothing GOOGLE_MAPS_API_KEY googleGeocode
              preferences tr)
    as [-> | (text & Hloc & _ & Hmiss & (key & Hkey & Hne) & ->)].
  - simpl. repeat split; reflexivity.
  - split; [|split; [|split]].
    + destruct (googleGeocode text); simpl; repeat split; reflexivity.
    + intros [H1 H2]. destruct Hmiss; contradiction.
    + intros Hnone. congruence.
    + intros Hnone. rewrite (Hnone text). reflexivity.
Qed.

End Geocoding.

Lemma response_page_window_witness :
  exists data pg,
    fst (run (getRecommendations parseNothing None geocodeNothing
                (catalogOf [kathmanduListing]) (postRequest emptyBody)))
      = Status200 data pg /\
    page pg = 1%Z /\ limit pg = 20%Z /\ (List.length data <= 20)%nat.
Proof.
  eexists. eexists. split; [reflexivity|].
  match goal with
  | |- page ?pg = _ /\ _ =>
      destruct (response_page_window parseNothing None geocodeNothing
                  (catalogOf [kathmanduListing]) (postRequest emptyBody) _ pg eq_refl)
        as (_ & _ & Hp & Hl & Hlen & _)
  end.
  split; [exact (Hp eq_refl) | split; [exact (Hl eq_refl)|]].
  rewrite (Hl eq_refl) in Hlen. lia.
Defined.

Lemma response_items_witness :
  exists data pg,
    fst (run (getRecommendations parseNothing None geocodeNothing
                (catalogOf [kathmanduListing]) (postRequest emptyBody)))
      = Status200 data pg /\
    forall item, In item data -> item_property item = kathmanduListing.
Proof.
  eexists. eexists. split; [reflexivity|].
  intros item Hin.
  match type of Hin with
  | In _ ?data =>
      destruct (response_items parseNothing None geocodeNothing
                  (catalogOf [kathmanduListing]) (postRequest emptyBody) data _ eq_refl)
        as (candidates & preferences & ranked & Hfind & _ & _ & _ & Hitems)
  end.
  injection Hfind as <-.
  destruct (Hitems item Hin) as ([<- | []] & _). reflexivity.
Defined.

Lemma catalog_failure_500_witness :
  exists geo,
    run (getRecommendations parseNothing None geocodeNothing
           (fun _ => inl "connection refused"%string) (postRequest emptyBody)) =
    (Status500 "connection refused",
     geo ++ [CatalogQuery (buildWhere
               (sanitizeMustHave parseNothing (body_mustHave emptyBody)))]) /\
    OnlyGeocoding geo.
Proof.
  apply (catalog_failure_500 parseNothing None geocodeNothing
           (fun _ => inl "connection refused"%string) (postRequest emptyBody)
           "connection refused"%string); reflexivity.
Defined.

(** ** The admin token *)

Lemma splitOn_nonempty sep s : splitOn sep s <> [].
Proof.
  destruct s as [| c s]; simpl; [discriminate|].
  destruct (Ascii.eqb c sep); [discriminate|].
  destruct (splitOn sep s); discriminate.
Qed.

Lemma splitOn_NoDot s : NoDot s -> splitOn "."%char s = [s].
Proof.
  unfold NoDot. induction s as [| c s IH]; simpl; [reflexivity|].
  intros H. destruct (Ascii.eqb_spec c "."%char) as [-> | Hne].
  - exfalso. apply H. now left.
  - rewrite IH by tauto. reflexivity.
Qed.

Lemma splitOn_app p rest :
  NoDot p -> splitOn "."%char (p ++ String "."%char rest) = p :: splitOn "."%char rest.
Proof.
  unfold NoDot. induction p as [| c p IH]; simpl; [reflexivity|].
  intros H. destruct (Ascii.eqb_spec c "."%char) as [-> | Hne].
  - exfalso. apply H. now left.
  - rewrite IH by tauto. reflexivity.
Qed.

Lemma HasChar_removeChar c d s : HasChar c (removeChar d s) -> HasChar c s.
Proof.
  induction s as [| x s IH]; simpl; [tauto|].
  destruct (Ascii.eqb x d); simpl; tauto.
Qed.

Lemma HasChar_replaceChar c a b s :
  b <> c -> HasChar c (replaceChar a b s) -> HasChar c s.
Proof.
  intros Hb. induction s as [| x s IH]; simpl; [tauto|].
  destruct (Ascii.eqb x a); intros [H | H]; try tauto; congruence.
Qed.

(** The URL-safe rewriting of a base64 text brings in no dot. *)
Lemma base64UrlOf_NoDot s : NoDot s -> NoDot (base64UrlOf s).
Proof.
  unfold NoDot, base64UrlOf. intros H Hdot. apply H.
  apply HasChar_replaceChar in Hdot; [|discriminate].
  apply HasChar_replaceChar in Hdot; [|discriminate].
  now apply HasChar_removeChar in Hdot.
Qed.

Section AdminAuthProperties.

Variable ADMIN_ID ADMIN_PASSWORD ADMIN_TOKEN_SECRET : option string.
Variable Buffer_fromBase64 : string -> string.
Variable hmacSha256Base64 : string -> string -> string.
Variable JSON_parse : string -> option ParsedPayload.

Let verify :=
  verifyAdminToken ADMIN_ID ADMIN_PASSWORD ADMIN_TOKEN_SECRET Buffer_fromBase64
    hmacSha256Base64 JSON_parse.
Let signOf :=
  sign ADMIN_ID ADMIN_PASSWORD ADMIN_TOKEN_SECRET hmacSha256Base64.

Lemma verifyAdminToken_accepts token now sub :
  verify token now = Some sub <->
  exists payloadPart signature rest parsed exp,
    splitOn "."%char token = payloadPart :: signature :: rest /\
    payloadPart <> EmptyString /\
    signature = signOf payloadPart /\ signature <> EmptyString /\
    JSON_parse (fromBase64Url Buffer_fromBase64 payloadPart) = Some parsed /\
    parsed_sub parsed = Some sub /\ sub <> EmptyString /\
    parsed_exp parsed = Some exp /\ exp <> 0 /\ IZR (nowSeconds now) <= exp.
Proof.
  unfold verify, verifyAdminToken. fold signOf. split.
  - destruct (splitOn "."%char token) as [| [| c1 p] [| [| c2 sg] rest]];
      try discriminate.
    destruct (String.eqb_spec (String c2 sg) (signOf (String c1 p))) as [Hsig | Hsig];
      simpl; [|discriminate].
    destruct (JSON_parse _) as [parsed|] eqn:Eparse; [|discriminate].
    destruct (parsed_sub parsed) as [[| c3 sb]|] eqn:Esub; try discriminate.
    destruct (parsed_exp parsed) as [exp|] eqn:Eexp; [|discriminate].
    destruct (JS.eq exp 0) eqn:E0; [discriminate|]. apply eq_false in E0.
    destruct (JS.lt exp (IZR (nowSeconds now))) eqn:E1; [discriminate|].
    apply lt_false in E1.
    intros [= <-].
    exists (String c1 p), (String c2 sg), rest, parsed, exp.
    repeat split; try assumption; try discriminate.
  - intros (payloadPart & signature & rest & parsed & exp & -> & Hp & Hsig & Hs &
            Hparse & Hsub & Hsb & Hexp & Hnz & Hle).
    destruct payloadPart as [| c1 p]; [contradiction|].
    destruct signature as [| c2 sg]; [contradiction|].
    rewrite Hsig, String.eqb_refl. simpl. rewrite Hparse, Hsub, Hexp.
    destruct sub as [| c3 sb]; [contradiction|].
    rewrite (proj2 (eq_false exp 0) Hnz).
    rewrite (proj2 (lt_false exp (IZR (nowSeconds now))) Hle). reflexivity.
Qed.

(** X22. [verifyAdminToken] accepts a token only if its second part is the
    signature of its first part under the server secret, the first part
    decodes to a payload with a non-empty subject, which is the one
    returned, and the expiry of the payload has not passed; and a token
    accepted at one time is accepted at every earlier time. *)
Theorem verifyAdminToken_sound (token : string) (now : R) (sub : string) :
  verifyAdminToken ADMIN_ID ADMIN_PASSWORD ADMIN_TOKEN_SECRET Buffer_fromBase64
    hmacSha256Base64 JSON_parse token now = Some sub ->
  (exists payloadPart signature rest parsed exp,
     splitOn "."%char token = payloadPart :: signature :: rest /\
     signature =
       sign ADMIN_ID ADMIN_PASSWORD ADMIN_TOKEN_SECRET hmacSha256Base64 payloadPart /\
     JSON_parse (fromBase64Url Buffer_fromBase64 payloadPart) = Some parsed /\
     parsed_sub parsed = Some sub /\ sub <> EmptyString /\
     parsed_exp parsed = Some exp /\ IZR (nowSeconds now) <= exp) /\
  (forall earlier, earlier <= now ->
     verifyAdminToken ADMIN_ID ADMIN_PASSWORD ADMIN_TOKEN_SECRET Buffer_fromBase64
       hmacSha256Base64 JSON_parse token earlier = Some sub).
Proof.
  intros H. fold verify in H. apply verifyAdminToken_accepts in H.
  destruct H as (payloadPart & signature & rest & parsed & exp & Hsplit & Hp &
                 Hsig & Hs & Hparse & Hsub & Hsb & Hexp & Hnz & Hle).
  split.
  - exists payloadPart, signature, rest, parsed, exp. tauto.
  - intros earlier Hearlier. fold verify. apply verifyAdminToken_accepts.
    exists payloadPart, signature, rest, parsed, exp.
    repeat split; try assumption.
    assert (IZR (nowSeconds earlier) <= IZR (nowSeconds now)); [|lra].
    apply IZR_le. unfold nowSeconds. apply Zfloor_le. lra.
Qed.

(** X23. The shape of a token: one without a dot is rejected, and so is one
    whose first or second part is empty; parts after the second are
    ignored, so a token followed by a dot and any text verifies exactly as
    the token does. *)
Theorem verifyAdminToken_shape (payloadPart signature extra : string) (now : R) :
  NoDot payloadPart -> NoDot signature ->
  verifyAdminToken ADMIN_ID ADMIN_PASSWORD ADMIN_TOKEN_SECRET Buffer_fromBase64
    hmacSha256Base64 JSON_parse payloadPart now = None /\
  verifyAdminToken ADMIN_ID ADMIN_PASSWORD ADMIN_TOKEN_SECRET Buffer_fromBase64
    hmacSha256Base64 JSON_parse (payloadPart ++ ".") now = None /\
  verifyAdminToken ADMIN_ID ADMIN_PASSWORD ADMIN_TOKEN_SECRET Buffer_fromBase64
    hmacSha256Base64 JSON_parse ("." ++ signature) now = None /\
  verifyAdminToken ADMIN_ID ADMIN_PASSWORD ADMIN_TOKEN_SECRET Buffer_fromBase64
    hmacSha256Base64 JSON_parse (payloadPart ++ "." ++ signature ++ "." ++ extra) now =
  verifyAdminToken ADMIN_ID ADMIN_PASSWORD ADMIN_TOKEN_SECRET Buffer_fromBase64
    hmacSha256Base64 JSON_parse (payloadPart ++ "." ++ signature) now.
Proof.
  intros Hp Hs. unfold verifyAdminToken.
  split; [|split; [|split]].
  - rewrite (splitOn_NoDot _ Hp). now destruct payloadPart.
  - rewrite (splitOn_app payloadPart EmptyString Hp). simpl.
    now destruct payloadPart.
  - simpl. reflexivity.
  - change ("." ++ signature ++ "." ++ extra)%string
      with (String "."%char (signature ++ String "."%char extra)).
    change ("." ++ signature)%string with (String "."%char signature).
    rewrite !(splitOn_app payloadPart _ Hp),
      (splitOn_app signature _ Hs), (splitOn_NoDot _ Hs).
    reflexivity.
Qed.

Lemma prefix_Bearer h :
  prefix "Bearer " h = true <-> h = ("Bearer " ++ dropString 7 h)%string.
Proof.
  rewrite prefix_app. split.
  - intros [rest ->]. reflexivity.
  - intros H. now exists (dropString 7 h).
Qed.

(** X24. The middleware calls [next] exactly when the authorization header
    is the word Bearer, one space and a token that [verifyAdminToken]
    accepts; in every other case, a missing or empty header included, it
    answers 401 Unauthorized.  The verify route answers 200 in the same
    cases and 401 otherwise. *)
Theorem requireAdminAuth_gate (authorization : option string) (now : R) :
  let accepted :=
    exists token sub,
      authorization = Some ("Bearer " ++ token)%string /\
      verifyAdminToken ADMIN_ID ADMIN_PASSWORD ADMIN_TOKEN_SECRET Buffer_fromBase64
        hmacSha256Base64 JSON_parse token now = Some sub in
  (accepted /\
   requireAdminAuth ADMIN_ID ADMIN_PASSWORD ADMIN_TOKEN_SECRET Buffer_fromBase64
     hmacSha256Base64 JSON_parse authorization now = AuthNext /\
   adminVerify ADMIN_ID ADMIN_PASSWORD ADMIN_TOKEN_SECRET Buffer_fromBase64
     hmacSha256Base64 JSON_parse authorization now = Auth200Authenticated) \/
  (~ accepted /\
   requireAdminAuth ADMIN_ID ADMIN_PASSWORD ADMIN_TOKEN_SECRET Buffer_fromBase64
     hmacSha256Base64 JSON_parse authorization now = Auth401 "Unauthorized" /\
   adminVerify ADMIN_ID ADMIN_PASSWORD ADMIN_TOKEN_SECRET Buffer_fromBase64
     hmacSha256Base64 JSON_parse authorization now = Auth401 "Unauthorized").
Proof.
  intros accepted. subst accepted. unfold requireAdminAuth, adminVerify.
  fold verify.
  destruct authorization as [[| c h]|].
  - right. split; [|split; reflexivity].
    intros (token & sub & [=] & _).
  - destruct (prefix "Bearer " (String c h)) eqn:Epre.
    + apply prefix_Bearer in Epre.
      destruct (verify (dropString 7 (String c h)) now) as [sub|] eqn:Ever.
      * left. split; [|split; reflexivity].
        exists (dropString 7 (String c h)), sub. split; [now f_equal | exact Ever].
      * right. split; [|split; reflexivity].
        intros (token & sub & [= -> ->] & Hv).
        simpl in Ever. fold verify in Hv. congruence.
    + right. split; [|split; reflexivity].
      intros (token & sub & Heq & _).
      assert (String c h = ("Bearer " ++ token)%string) as Hs by congruence.
      rewrite Hs in Epre.
      rewrite (proj2 (prefix_app "Bearer " _)) in Epre; [discriminate|].
      now exists token.
  - right. split; [|split; reflexivity].
    intros (token & sub & [=] & _).
Qed.

End AdminAuthProperties.

Section AdminTokenIssue.

Variable ADMIN_ID ADMIN_PASSWORD ADMIN_TOKEN_SECRET : option string.
Variable Buffer_toBase64 : string -> string.
Variable Buffer_fromBase64 : string -> string.
Variable hmacSha256Base64 : string -> string -> string.
Variable JSON_stringify : string -> Z -> string.
Variable JSON_parse : string -> option ParsedPayload.

Let verify :=
  verifyAdminToken ADMIN_ID ADMIN_PASSWORD ADMIN_TOKEN_SECRET Buffer_fromBase64
    hmacSha256Base64 JSON_parse.
Let signOf :=
  sign ADMIN_ID ADMIN_PASSWORD ADMIN_TOKEN_SECRET hmacSha256Base64.

(** X25. A token from [createAdminToken] verifies, with its own subject,
    from the moment it is made until 28800 seconds (8 hours) later by the
    clock in whole seconds, and no longer; this for a non-empty subject, a
    base64 encoder and an HMAC whose outputs hold no dot and are not empty
    here, and a payload that decodes back. *)
Theorem createAdminToken_round_trip (id : string) (issued now : R) :
  let exp := (nowSeconds issued + TOKEN_TTL_SECONDS)%Z in
  let payloadPart := toBase64Url Buffer_toBase64 (JSON_stringify id exp) in
  id <> EmptyString -> 0 <= issued ->
  (forall s, NoDot (Buffer_toBase64 s)) ->
  (forall k s, NoDot (hmacSha256Base64 k s)) ->
  payloadPart <> EmptyString ->
  sign ADMIN_ID ADMIN_PASSWORD ADMIN_TOKEN_SECRET hmacSha256Base64 payloadPart
    <> EmptyString ->
  JSON_parse (fromBase64Url Buffer_fromBase64 payloadPart) =
    Some {| parsed_sub := Some id; parsed_exp := Some (IZR exp) |} ->
  verifyAdminToken ADMIN_ID ADMIN_PASSWORD ADMIN_TOKEN_SECRET Buffer_fromBase64
    hmacSha256Base64 JSON_parse
    (createAdminToken ADMIN_ID ADMIN_PASSWORD ADMIN_TOKEN_SECRET Buffer_toBase64
       hmacSha256Base64 JSON_stringify id issued) now =
  if (nowSeconds now <=? nowSeconds issued + TOKEN_TTL_SECONDS)%Z
  then Some id else None.
Proof.
  intros exp payloadPart Hid Hissued Hb64 Hhmac Hp Hs Hparse.
  assert (NoDot payloadPart) as Hpd by (apply base64UrlOf_NoDot, Hb64).
  assert (NoDot (signOf payloadPart)) as Hsd by (apply base64UrlOf_NoDot, Hhmac).
  assert (splitOn "."%char
            (createAdminToken ADMIN_ID ADMIN_PASSWORD ADMIN_TOKEN_SECRET
               Buffer_toBase64 hmacSha256Base64 JSON_stringify id issued) =
          [payloadPart; signOf payloadPart]) as Hsplit.
  { unfold createAdminToken. cbv zeta. fold exp. fold payloadPart. fold signOf.
    change ("." ++ signOf payloadPart)%string
      with (String "."%char (signOf payloadPart)).
    rewrite (splitOn_app payloadPart _ Hpd), (splitOn_NoDot _ Hsd). reflexivity. }
  assert (0 < IZR exp) as Hexp.
  { apply IZR_lt. unfold exp, TOKEN_TTL_SECONDS, nowSeconds.
    assert (0 <= Zfloor (issued / 1000))%Z; [|lia].
    apply Zfloor_lub. simpl. lra. }
  destruct (Z.leb_spec (nowSeconds now) (nowSeconds issued + TOKEN_TTL_SECONDS))
    as [Hfresh | Hstale].
  - apply verifyAdminToken_accepts.
    exists payloadPart, (signOf payloadPart), [],
      {| parsed_sub := Some id; parsed_exp := Some (IZR exp) |}, (IZR exp).
    repeat split; try assumption; try lra.
    apply IZR_le. exact Hfresh.
  - fold verify. destruct (verify _ now) as [sub|] eqn:E; [|reflexivity].
    apply verifyAdminToken_accepts in E.
    destruct E as (p' & s' & rest & parsed & exp' & Hsp & _ & _ & _ & Hpa & _ & _ &
                   He & _ & Hle).
    rewrite Hsplit in Hsp. injection Hsp as <- <- <-.
    fold payloadPart in Hparse. rewrite Hparse in Hpa. injection Hpa as <-.
    simpl in He. injection He as <-.
    apply le_IZR in Hle. unfold exp in Hle. lia.
Qed.

End AdminTokenIssue.

Section AdminLogin.

Variable ADMIN_ID ADMIN_PASSWORD ADMIN_TOKEN_SECRET : option string.
Variable Buffer_toBase64 : string -> string.
Variable hmacSha256Base64 : string -> string -> string.
Variable JSON_stringify : string -> Z -> string.

Lemma envOr_nonempty value fallback :
  fallback <> EmptyString -> envOr value fallback <> EmptyString.
Proof.
  intros H. unfold envOr. destruct value as [[| c v]|]; try assumption.
  discriminate.
Qed.

(** X26. The login route answers 200 with a token exactly for the configured
    identifier and password, which are admin and admin123 when the
    environment sets none (or sets them empty); the token is the one
    [createAdminToken] makes for that identifier.  A missing or empty
    identifier or password gets 400, anything else 401. *)
Theorem adminLogin_outcomes (id password : option string) (now : R) :
  let login :=
    adminLogin ADMIN_ID ADMIN_PASSWORD ADMIN_TOKEN_SECRET Buffer_toBase64
      hmacSha256Base64 JSON_stringify id password now in
  let configuredId := envOr ADMIN_ID "admin" in
  let configuredPassword := envOr ADMIN_PASSWORD "admin123" in
  (forall token,
     login = Auth200Token token <->
     id = Some configuredId /\ password = Some configuredPassword /\
     token = createAdminToken ADMIN_ID ADMIN_PASSWORD ADMIN_TOKEN_SECRET
               Buffer_toBase64 hmacSha256Base64 JSON_stringify configuredId now) /\
  (login = Auth400 "ID and password are required" <->
   id = None \/ id = Some EmptyString \/
   password = None \/ password = Some EmptyString) /\
  ((exists token, login = Auth200Token token) \/
   login = Auth400 "ID and password are required" \/
   login = Auth401 "Invalid credentials").
Proof.
  intros login configuredId configuredPassword. subst login.
  unfold adminLogin, isValidAdminCredentials, getAuthConfig. simpl.
  fold configuredId. fold configuredPassword.
  assert (configuredId <> EmptyString) as Hid
    by (apply envOr_nonempty; discriminate).
  assert (configuredPassword <> EmptyString) as Hpw
    by (apply envOr_nonempty; discriminate).
  destruct id as [[| c1 i]|], password as [[| c2 pw]|];
    try (split; [|split; [|right; left; reflexivity]];
         [ intros token; split; [discriminate | intros (H1 & H2 & _); congruence]
         | split; [intros _; tauto | reflexivity] ]).
  destruct (String.eqb_spec (String c1 i) configuredId) as [E1 | E1];
    destruct (String.eqb_spec (String c2 pw) configuredPassword) as [E2 | E2];
    simpl.
  - split; [|split; [|left; eexists; reflexivity]].
    + intros token. split.
      * intros [= <-]. rewrite <- E1, <- E2. repeat split.
      * intros (_ & _ & ->). now rewrite E1.
    + split; [discriminate|]. intros [H | [H | [H | H]]]; discriminate.
  - split; [|split; [|right; right; reflexivity]].
    + intros token. split; [discriminate | intros (_ & [= H] & _); contradiction].
    + split; [discriminate|]. intros [H | [H | [H | H]]]; discriminate.
  - split; [|split; [|right; right; reflexivity]].
    + intros token. split; [discriminate | intros ([= H] & _ & _); contradiction].
    + split; [discriminate|]. intros [H | [H | [H | H]]]; discriminate.
  - split; [|split; [|right; right; reflexivity]].
    + intros token. split; [discriminate | intros ([= H] & _ & _); contradiction].
    + split; [discriminate|]. intros [H | [H | [H | H]]]; discriminate.
Qed.

End AdminLogin.

Lemma removeChar_absent c s : ~ HasChar c (removeChar c s).
Proof.
  induction s as [| x s IH]; simpl; [tauto|].
  destruct (Ascii.eqb_spec x c) as [-> | Hne]; simpl; tauto.
Qed.

Lemma nowSeconds_whole (z : Z) : nowSeconds (IZR z * 1000) = z.
Proof.
  unfold nowSeconds. replace (IZR z * 1000 / 1000) with (IZR z) by field.
  apply ZfloorZ.
Qed.

Lemma nowSeconds_0 : nowSeconds 0 = 0%Z.
Proof. unfold nowSeconds. apply Zfloor_eq. simpl. lra. Qed.

Lemma example_payload_decodes :
  exampleParse
    (fromBase64Url exampleFromBase64
       (toBase64Url exampleToBase64
          (exampleStringify "admin" (nowSeconds 0 + TOKEN_TTL_SECONDS)))) =
  Some {| parsed_sub := Some "admin"%string;
          parsed_exp := Some (IZR (nowSeconds 0 + TOKEN_TTL_SECONDS)) |}.
Proof.
  rewrite nowSeconds_0. reflexivity.
Qed.

(** A token made at time 0 for admin, checked one hour later. *)
Lemma example_token_verifies :
  verifyAdminToken None None None exampleFromBase64 exampleHmac exampleParse
    (createAdminToken None None None exampleToBase64 exampleHmac exampleStringify
       "admin" 0) (IZR 3600 * 1000) = Some "admin"%string.
Proof.
  apply verifyAdminToken_accepts.
  exists "admin"%string,
    (sign None None None exampleHmac "admin"), [],
    {| parsed_sub := Some "admin"%string;
       parsed_exp := Some (IZR (nowSeconds 0 + TOKEN_TTL_SECONDS)) |},
    (IZR (nowSeconds 0 + TOKEN_TTL_SECONDS)).
  split; [reflexivity|]. split; [discriminate|]. split; [reflexivity|].
  split; [discriminate|]. split; [exact example_payload_decodes|].
  split; [reflexivity|]. split; [discriminate|]. split; [reflexivity|].
  rewrite nowSeconds_0, nowSeconds_whole. unfold TOKEN_TTL_SECONDS. simpl.
  split; lra.
Qed.

Lemma verifyAdminToken_sound_witness :
  exists payloadPart signature rest parsed exp,
    splitOn "."%char
      (createAdminToken None None None exampleToBase64 exampleHmac
         exampleStringify "admin" 0) = payloadPart :: signature :: rest /\
    signature = sign None None None exampleHmac payloadPart /\
    exampleParse (fromBase64Url exampleFromBase64 payloadPart) = Some parsed /\
    parsed_sub parsed = Some "admin"%string /\ "admin"%string <> EmptyString /\
    parsed_exp parsed = Some exp /\ IZR (nowSeconds (IZR 3600 * 1000)) <= exp.
Proof.
  exact (proj1 (verifyAdminToken_sound None None None exampleFromBase64 exampleHmac
                  exampleParse _ _ _ example_token_verifies)).
Defined.

Lemma createAdminToken_round_trip_witness :
  verifyAdminToken None None None exampleFromBase64 exampleHmac exampleParse
    (createAdminToken None None None exampleToBase64 exampleHmac exampleStringify
       "admin" 0) (IZR 3600 * 1000) =
  if (nowSeconds (IZR 3600 * 1000) <=? nowSeconds 0 + TOKEN_TTL_SECONDS)%Z
  then Some "admin"%string else None.
Proof.
  apply (createAdminToken_round_trip None None None exampleToBase64
           exampleFromBase64 exampleHmac exampleStringify exampleParse
           "admin" 0 (IZR 3600 * 1000)).
  - discriminate.
  - lra.
  - intros s. apply removeChar_absent.
  - intros k s. apply removeChar_absent.
  - discriminate.
  - discriminate.
  - exact example_payload_decodes.
Defined.

Lemma verifyAdminToken_shape_witness :
  verifyAdminToken None None None exampleFromBase64 exampleHmac exampleParse
    ("admin" ++ "." ++ "sig" ++ "." ++ "anything") 0 =
  verifyAdminToken None None None exampleFromBase64 exampleHmac exampleParse
    ("admin" ++ "." ++ "sig") 0.
Proof.
  apply (verifyAdminToken_shape None None None exampleFromBase64 exampleHmac
           exampleParse "admin" "sig" "anything" 0);
    unfold NoDot; simpl; intuition discriminate.
Defined.

(** ** The property controller *)

Lemma Math_round_nonneg_iff x : 0 <= JS.Math_round x <-> - / 2 <= x.
Proof.
  unfold JS.Math_round. split.
  - intros H. destruct (Zfloor_bound (x + / 2)) as [Hlo _]. lra.
  - intros H. apply IZR_le. apply Zfloor_lub. simpl. lra.
Qed.

Section PropertyControllerProperties.

Variable Number_parseFloat : string -> option R.

Lemma buildNumericFields_succeeds_lemma (request : IPropertyRequest) (numeric : NumericFields) :
  buildNumericFields Number_parseFloat request = inr numeric <->
  exists price roi area,
    parseNumericValue Number_parseFloat (RawString (ipr_price request)) = inr price /\
    parseNumericValue Number_parseFloat (RawString (ipr_roi request)) = inr roi /\
    parseNumericValue Number_parseFloat (RawString (ipr_area request)) = inr area /\
    - / 2 <= price /\ 0 <= roi /\ 0 <= area /\
    numeric = {| nf_priceNpr := JS.Math_round price;
                 nf_roiPercent := roi;
                 nf_areaSqft := area |}.
Proof.
  unfold buildNumericFields.
  destruct (parseNumericValue Number_parseFloat (RawString (ipr_price request)))
    as [e1 | price].
  { split; [discriminate | intros (p & r & a & [=] & _)]. }
  destruct (parseNumericValue Number_parseFloat (RawString (ipr_roi request)))
    as [e2 | roi].
  { split; [discriminate | intros (p & r & a & _ & [=] & _)]. }
  destruct (parseNumericValue Number_parseFloat (RawString (ipr_area request)))
    as [e3 | area].
  { split; [discriminate | intros (p & r & a & _ & _ & [=] & _)]. }
  destruct (JS.lt (JS.Math_round price) 0) eqn:E1;
    [apply lt_true in E1 | apply lt_false in E1];
    (destruct (JS.lt roi 0) eqn:E2; [apply lt_true in E2 | apply lt_false in E2]);
    (destruct (JS.lt area 0) eqn:E3; [apply lt_true in E3 | apply lt_false in E3]);
    simpl.
  all: split;
    [ try discriminate
    | intros (p & r & a & [= <-] & [= <-] & [= <-] & Hp & Hr & Ha & ->);
      apply Math_round_nonneg_iff in Hp; try (exfalso; lra) ].
  - intros [= <-]. exists price, roi, area.
    apply Math_round_nonneg_iff in E1. repeat split; assumption.
  - reflexivity.
Qed.

(** X27. [buildNumericFields] succeeds exactly when price, ROI and area all
    parse, ROI and area are not negative and the price is at least -0.5;
    the price is then stored rounded to a whole number, so a price between
    -0.5 and 0 is accepted and stored as 0. *)
Theorem buildNumericFields_succeeds (request : IPropertyRequest) (numeric : NumericFields) :
  buildNumericFields Number_parseFloat request = inr numeric <->
  exists price roi area,
    parseNumericValue Number_parseFloat (RawString (ipr_price request)) = inr price /\
    parseNumericValue Number_parseFloat (RawString (ipr_roi request)) = inr roi /\
    parseNumericValue Number_parseFloat (RawString (ipr_area request)) = inr area /\
    - / 2 <= price /\ 0 <= roi /\ 0 <= area /\
    numeric = {| nf_priceNpr := JS.Math_round price;
                 nf_roiPercent := roi;
                 nf_areaSqft := area |}.
Proof. apply buildNumericFields_succeeds_lemma. Qed.

Variable Number_of : NumOrString -> option R.
Variable Property_create : PropertyFields -> string + PropertyFields.

Lemma parseDistanceFromHighway_nonneg raw d :
  parseDistanceFromHighway Number_parseFloat raw = inr (Some d) -> 0 <= d.
Proof.
  unfold parseDistanceFromHighway. destruct raw as [raw|]; [|discriminate].
  destruct (match raw with
            | RawString text =>
                match JS.trim text with EmptyString => true | _ => false end
            | RawNumber _ => false
            end); [discriminate|].
  destruct (parseNumericValue Number_parseFloat raw) as [e | parsed];
    [discriminate|].
  cmp_cases; [discriminate|]. now intros [= <-].
Qed.


End PropertyControllerProperties.

Section AutocompleteProperties.

Variable GOOGLE_MAPS_API_KEY : option string.
Variable placesAutocomplete : string -> option PlacesResponse.


End AutocompleteProperties.

(** ** Properties of the scoring stage in double precision *)

Section DoublePrecision.
Import Floats.
#[local] Open Scope float_scope.

Lemma add_nan_l x : nan + x = nan.
Proof. apply Prim2SF_inj. rewrite add_spec. reflexivity. Qed.

Lemma add_nan_r x : x + nan = nan.
Proof.
  apply Prim2SF_inj. rewrite add_spec. change (Prim2SF nan) with S754_nan.
  destruct (Prim2SF x); reflexivity.
Qed.

Lemma mul_nan_r x : x * nan = nan.
Proof.
  apply Prim2SF_inj. rewrite mul_spec. change (Prim2SF nan) with S754_nan.
  destruct (Prim2SF x); reflexivity.
Qed.

Lemma div_nan_l x : nan / x = nan.
Proof. apply Prim2SF_inj. rewrite div_spec. reflexivity. Qed.

Lemma leb_nan_l x : (nan <=? x) = false.
Proof. rewrite leb_spec. reflexivity. Qed.

(** The square root of a negative number is NaN. *)
Lemma sqrt_negative x : (x <? 0) = true -> sqrt x = nan.
Proof.
  rewrite ltb_spec. intros H. apply Prim2SF_inj. rewrite sqrt_spec.
  change (Prim2SF 0) with (S754_zero false) in H.
  change (Prim2SF nan) with S754_nan.
  destruct (Prim2SF x) as [s | s | | s m e];
    try destruct s; try discriminate; reflexivity.
Qed.

(** Whatever [x] is, [|x - Infinity| / Infinity] is NaN. *)
Lemma distance_to_infinity_ratio x : abs (x - infinity) / infinity = nan.
Proof.
  apply Prim2SF_inj. rewrite div_spec, abs_spec, sub_spec.
  change (Prim2SF infinity) with (S754_infinity false).
  change (Prim2SF nan) with S754_nan.
  destruct (Prim2SF x) as [s | s | | s m e]; try destruct s; reflexivity.
Qed.

Lemma round2_nan : Binary64.round2 nan = nan.
Proof. reflexivity. Qed.

Lemma safeRatioScore_nan weight : Binary64.safeRatioScore weight nan = nan.
Proof.
  unfold Binary64.safeRatioScore.
  change (Binary64.Math_max 0 (1 - nan)) with nan.
  rewrite mul_nan_r. reflexivity.
Qed.

(** A block that ran leaves the score NaN once it is NaN, or once the
    block's own points are. *)
Lemma award_nan weight r pts st :
  Binary64.st_score st = nan \/ pts = nan ->
  Binary64.st_score (Binary64.award weight r pts st) = nan.
Proof.
  unfold Binary64.award. cbn [Binary64.st_score].
  intros [-> | ->]; [apply add_nan_l | apply add_nan_r].
Qed.

(** The guards decide what each block adds to [maxPossible]. *)
Lemma scorePrice_maxPossible L P st :
  Binary64.st_maxPossible (Binary64.scorePrice L P st) =
  if Binary64.isPositive (Binary64.pref_budget P)
  then Binary64.st_maxPossible st + Binary64.WEIGHTS.price
  else Binary64.st_maxPossible st.
Proof.
  unfold Binary64.scorePrice, Binary64.isPositive.
  destruct (Binary64.pref_budget P) as [b|]; [|reflexivity].
  destruct (0 <? b); reflexivity.
Qed.

Lemma scoreRoi_maxPossible L P st :
  Binary64.st_maxPossible (Binary64.scoreRoi L P st) =
  if Binary64.isPositive (Binary64.pref_roiPercent P)
  then Binary64.st_maxPossible st + Binary64.WEIGHTS.roi
  else Binary64.st_maxPossible st.
Proof.
  unfold Binary64.scoreRoi, Binary64.isPositive.
  destruct (Binary64.pref_roiPercent P) as [b|]; [|reflexivity].
  destruct (0 <? b); reflexivity.
Qed.

Lemma scoreArea_maxPossible L P st :
  Binary64.st_maxPossible (Binary64.scoreArea L P st) =
  if Binary64.isPositive (Binary64.pref_areaSqft P)
  then Binary64.st_maxPossible st + Binary64.WEIGHTS.area
  else Binary64.st_maxPossible st.
Proof.
  unfold Binary64.scoreArea, Binary64.isPositive.
  destruct (Binary64.pref_areaSqft P) as [b|]; [|reflexivity].
  destruct (0 <? b); reflexivity.
Qed.

Lemma scoreDistance_maxPossible L P st :
  Binary64.st_maxPossible (Binary64.scoreDistance L P st) =
  if Binary64.isPositive (Binary64.pref_maxDistanceFromHighway P)
  then Binary64.st_maxPossible st + Binary64.WEIGHTS.distance
  else Binary64.st_maxPossible st.
Proof.
  unfold Binary64.scoreDistance, Binary64.isPositive.
  destruct (Binary64.pref_maxDistanceFromHighway P) as [b|]; [|reflexivity].
  destruct (0 <? b); reflexivity.
Qed.

(** Each of the last four blocks keeps a NaN score. *)
Lemma scorePrice_keeps_nan L P st :
  Binary64.st_score st = nan -> Binary64.st_score (Binary64.scorePrice L P st) = nan.
Proof.
  intros H. unfold Binary64.scorePrice.
  destruct (Binary64.pref_budget P) as [b|]; [|exact H].
  destruct (0 <? b); [|exact H]. apply award_nan. now left.
Qed.

Lemma scoreRoi_keeps_nan L P st :
  Binary64.st_score st = nan -> Binary64.st_score (Binary64.scoreRoi L P st) = nan.
Proof.
  intros H. unfold Binary64.scoreRoi.
  destruct (Binary64.pref_roiPercent P) as [b|]; [|exact H].
  destruct (0 <? b); [|exact H]. apply award_nan. now left.
Qed.

Lemma scoreArea_keeps_nan L P st :
  Binary64.st_score st = nan -> Binary64.st_score (Binary64.scoreArea L P st) = nan.
Proof.
  intros H. unfold Binary64.scoreArea.
  destruct (Binary64.pref_areaSqft P) as [b|]; [|exact H].
  destruct (0 <? b); [|exact H]. apply award_nan. now left.
Qed.

Lemma scoreDistance_keeps_nan L P st :
  Binary64.st_score st = nan -> Binary64.st_score (Binary64.scoreDistance L P st) = nan.
Proof.
  intros H. unfold Binary64.scoreDistance.
  destruct (Binary64.pref_maxDistanceFromHighway P) as [b|]; [|exact H].
  destruct (0 <? b); [|exact H]. apply award_nan. now left.
Qed.

(** With an infinite budget the price block awards NaN to a listing that
    has a price. *)
Lemma scorePrice_infinite_budget L P st :
  Binary64.InfiniteBudget L P ->
  Binary64.st_score (Binary64.scorePrice L P st) = nan.
Proof.
  intros [Hb [price Hp]]. unfold Binary64.scorePrice. rewrite Hb, Hp.
  change (0 <? infinity) with true. cbv iota.
  apply award_nan. right. unfold Binary64.pricePoints, Binary64.Math_abs.
  rewrite distance_to_infinity_ratio. apply safeRatioScore_nan.
Qed.

Variables sin_approx cos_approx : float -> float.
Variable atan2_approx : float -> float -> float.

Lemma scoreLocation_maxPossible L P st :
  Binary64.st_maxPossible
    (Binary64.scoreLocation sin_approx cos_approx atan2_approx L P st) =
  if Binary64.locationActive P
  then Binary64.st_maxPossible st + Binary64.WEIGHTS.location
  else Binary64.st_maxPossible st.
Proof.
  unfold Binary64.scoreLocation, Binary64.locationActive.
  destruct (Binary64.pref_latitude P), (Binary64.pref_longitude P),
    (Binary64.prop_latitude L), (Binary64.prop_longitude L),
    (Binary64.pref_location P) as [[|c t]|]; reflexivity.
Qed.

Lemma scoreCriteria_maxPossible L P :
  Binary64.st_maxPossible
    (Binary64.scoreCriteria sin_approx cos_approx atan2_approx L P) =
  Binary64.totalOf (Binary64.locationActive P)
    (Binary64.isPositive (Binary64.pref_budget P))
    (Binary64.isPositive (Binary64.pref_roiPercent P))
    (Binary64.isPositive (Binary64.pref_areaSqft P))
    (Binary64.isPositive (Binary64.pref_maxDistanceFromHighway P)).
Proof.
  unfold Binary64.scoreCriteria.
  rewrite scoreDistance_maxPossible, scoreArea_maxPossible, scoreRoi_maxPossible,
    scorePrice_maxPossible, scoreLocation_maxPossible.
  reflexivity.
Qed.

(** [maxPossible] is not 0 when the location or the price block ran. *)
Lemma totalOf_not_zero location price roi area distance :
  location || price = true ->
  (Binary64.totalOf location price roi area distance =? 0) = false.
Proof.
  destruct location, price, roi, area, distance; intros H;
    try discriminate; reflexivity.
Qed.

(** The distance of [haversineKm] is NaN when [1 - a] is negative. *)
Lemma haversineKm_nan lat1 lng1 lat2 lng2 :
  (1 - Binary64.haversineTerm sin_approx cos_approx lat1 lng1 lat2 lng2 <? 0) = true ->
  Binary64.haversineKm sin_approx cos_approx atan2_approx lat1 lng1 lat2 lng2 = nan.
Proof.
  intros H. unfold Binary64.haversineKm. cbv zeta.
  unfold Binary64.Math_sqrt at 2. rewrite (sqrt_negative _ H).
  unfold Binary64.Math_atan2.
  change (is_nan nan) with true. rewrite orb_true_r.
  now rewrite !mul_nan_r.
Qed.

Lemma scoreLocation_nan L P prefLat prefLng lat lng st :
  Binary64.pref_latitude P = Some prefLat -> Binary64.pref_longitude P = Some prefLng ->
  Binary64.prop_latitude L = Some lat -> Binary64.prop_longitude L = Some lng ->
  (1 - Binary64.haversineTerm sin_approx cos_approx prefLat prefLng lat lng <? 0) = true ->
  Binary64.scoreLocation sin_approx cos_approx atan2_approx L P st =
  Binary64.award 25
    (Binary64.LocationScoredByDistance nan (Binary64.radiusKmOf P)) nan st.
Proof.
  intros Hplat Hplng Hlat Hlng Ha. unfold Binary64.scoreLocation.
  rewrite Hplat, Hplng, Hlat, Hlng. cbv zeta.
  rewrite (haversineKm_nan _ _ _ _ Ha), div_nan_l, safeRatioScore_nan, round2_nan.
  reflexivity.
Qed.

(** A NaN score with a [maxPossible] that is not 0 gives a NaN score and
    a NaN match percentage in the result. *)
Lemma scoreProperty_nan_lemma L P :
  Binary64.st_score
    (Binary64.scoreCriteria sin_approx cos_approx atan2_approx L P) = nan ->
  Binary64.locationActive P || Binary64.isPositive (Binary64.pref_budget P) = true ->
  Binary64.score
    (Binary64.scoreProperty sin_approx cos_approx atan2_approx L P) = nan /\
  Binary64.matchPercentage
    (Binary64.scoreProperty sin_approx cos_approx atan2_approx L P) = nan.
Proof.
  intros Hs Hactive. unfold Binary64.scoreProperty. cbv zeta.
  cbn [Binary64.score Binary64.matchPercentage].
  rewrite Hs, scoreCriteria_maxPossible, (totalOf_not_zero _ _ _ _ _ Hactive).
  rewrite div_nan_l. split; reflexivity.
Qed.

(** On doubles too the running score is the sum of the entries pushed so
    far, NaN included, and the score of the result is [round2] of it. *)
Lemma award_accounted weight r pts st :
  Binary64.st_score st = Binary64.totalPoints (Binary64.st_explanation st) ->
  Binary64.st_score (Binary64.award weight r pts st) =
  Binary64.totalPoints (Binary64.st_explanation (Binary64.award weight r pts st)).
Proof.
  intros H. unfold Binary64.award, Binary64.totalPoints in *.
  cbn [Binary64.st_score Binary64.st_explanation].
  rewrite fold_left_app. cbn [fold_left Binary64.points]. now rewrite H.
Qed.

Lemma score_accounted_in_doubles L P :
  Binary64.score
    (Binary64.scoreProperty sin_approx cos_approx atan2_approx L P) =
  Binary64.round2
    (Binary64.totalPoints
       (Binary64.explanation
          (Binary64.scoreProperty sin_approx cos_approx atan2_approx L P))).
Proof.
  unfold Binary64.scoreProperty. cbv zeta.
  cbn [Binary64.score Binary64.explanation]. f_equal.
  unfold Binary64.scoreCriteria.
  set (s0 := Binary64.initialState).
  assert (Binary64.st_score s0 = Binary64.totalPoints (Binary64.st_explanation s0))
    as H0 by reflexivity.
  set (s1 := Binary64.scoreLocation sin_approx cos_approx atan2_approx L P s0).
  assert (Binary64.st_score s1 = Binary64.totalPoints (Binary64.st_explanation s1))
    as H1.
  { subst s1. unfold Binary64.scoreLocation.
    destruct (Binary64.pref_latitude P), (Binary64.pref_longitude P),
      (Binary64.prop_latitude L), (Binary64.prop_longitude L),
      (Binary64.pref_location P) as [[|c t]|];
      cbv zeta; try exact H0; now apply award_accounted. }
  set (s2 := Binary64.scorePrice L P s1).
  assert (Binary64.st_score s2 = Binary64.totalPoints (Binary64.st_explanation s2))
    as H2.
  { subst s2. unfold Binary64.scorePrice.
    destruct (Binary64.pref_budget P) as [b|]; [destruct (0 <? b)|];
      try exact H1. now apply award_accounted. }
  set (s3 := Binary64.scoreRoi L P s2).
  assert (Binary64.st_score s3 = Binary64.totalPoints (Binary64.st_explanation s3))
    as H3.
  { subst s3. unfold Binary64.scoreRoi.
    destruct (Binary64.pref_roiPercent P) as [b|]; [destruct (0 <? b)|];
      try exact H2. now apply award_accounted. }
  set (s4 := Binary64.scoreArea L P s3).
  assert (Binary64.st_score s4 = Binary64.totalPoints (Binary64.st_explanation s4))
    as H4.
  { subst s4. unfold Binary64.scoreArea.
    destruct (Binary64.pref_areaSqft P) as [b|]; [destruct (0 <? b)|];
      try exact H3. now apply award_accounted. }
  unfold Binary64.scoreDistance.
  destruct (Binary64.pref_maxDistanceFromHighway P) as [b|]; [destruct (0 <? b)|];
    try exact H4. now apply award_accounted.
Qed.

(** C2. In double precision the location criterion does not always award
    [25 * max 0 (1 - d / r)] rounded to two decimals, with [d] the haversine
    distance.  When the preferences and the listing both carry coordinates
    and the term [a] of [haversineKm], as rounded, exceeds 1, then
    [Math.sqrt(1 - a)] is NaN and so is the distance; the criterion still
    counts 25 in maxPossible, and the points it awards, the first
    explanation entry of [scoreProperty], are NaN: they are not 0 and not
    at least 0, whatever the radius. *)
Theorem location_points_not_a_number
    (L : Binary64.RecommendationProperty) (P : Binary64.RecommendationPreferences)
    (prefLat prefLng lat lng : float) :
  Binary64.pref_latitude P = Some prefLat -> Binary64.pref_longitude P = Some prefLng ->
  Binary64.prop_latitude L = Some lat -> Binary64.prop_longitude L = Some lng ->
  (1 - Binary64.haversineTerm sin_approx cos_approx prefLat prefLng lat lng <? 0) = true ->
  Binary64.haversineKm sin_approx cos_approx atan2_approx prefLat prefLng lat lng = nan /\
  exists pts,
    (forall st,
       Binary64.scoreLocation sin_approx cos_approx atan2_approx L P st =
       Binary64.award 25
         (Binary64.LocationScoredByDistance nan (Binary64.radiusKmOf P)) pts st) /\
    pts = nan /\ (pts =? 0) = false /\ (0 <=? pts) = false /\
    exists rest,
      Binary64.explanation
        (Binary64.scoreProperty sin_approx cos_approx atan2_approx L P) =
      {| Binary64.reason :=
           Binary64.LocationScoredByDistance nan (Binary64.radiusKmOf P);
         Binary64.points := pts |} :: rest.
Proof.
  intros Hplat Hplng Hlat Hlng Ha.
  split; [now apply haversineKm_nan|].
  exists nan.
  split; [intros st; now apply scoreLocation_nan with prefLat prefLng lat lng|].
  split; [reflexivity|]. split; [reflexivity|]. split; [reflexivity|].
  unfold Binary64.scoreProperty, Binary64.scoreCriteria. cbv zeta.
  cbn [Binary64.explanation].
  rewrite (scoreLocation_nan L P prefLat prefLng lat lng _ Hplat Hplng Hlat Hlng Ha).
  unfold Binary64.scoreDistance, Binary64.scoreArea, Binary64.scoreRoi,
    Binary64.scorePrice.
  destruct (Binary64.pref_budget P) as [b|]; [destruct (0 <? b)|];
    (destruct (Binary64.pref_roiPercent P) as [r|]; [destruct (0 <? r)|]);
    (destruct (Binary64.pref_areaSqft P) as [a|]; [destruct (0 <? a)|]);
    (destruct (Binary64.pref_maxDistanceFromHighway P) as [d|]; [destruct (0 <? d)|]);
    cbn [Binary64.award Binary64.st_explanation Binary64.initialState app];
    eexists; reflexivity.
Qed.

(** C3. In double precision the result of [scoreProperty] is not always
    within [0 <= score <= maxPossible] and [0 <= matchPercentage <= 100]:
    when the rounded term [a] of [haversineKm] exceeds 1 at the two
    coordinate pairs, or when the budget is [Infinity] and the listing has
    a price, the score and the match percentage are both NaN, and each of
    the four comparisons is false. *)
Theorem scoreProperty_not_a_number
    (L : Binary64.RecommendationProperty) (P : Binary64.RecommendationPreferences) :
  Binary64.TermExceedsOne sin_approx cos_approx L P \/ Binary64.InfiniteBudget L P ->
  let result := Binary64.scoreProperty sin_approx cos_approx atan2_approx L P in
  Binary64.score result = nan /\
  Binary64.matchPercentage result = nan /\
  (0 <=? Binary64.score result) = false /\
  (Binary64.score result <=? Binary64.maxPossible result) = false /\
  (0 <=? Binary64.matchPercentage result) = false /\
  (Binary64.matchPercentage result <=? 100) = false.
Proof.
  intros H result.
  assert (Binary64.score result = nan /\ Binary64.matchPercentage result = nan)
    as [Hs Hm].
  { subst result. apply scoreProperty_nan_lemma.
    - unfold Binary64.scoreCriteria.
      apply scoreDistance_keeps_nan, scoreArea_keeps_nan, scoreRoi_keeps_nan.
      destruct H as [(prefLat & prefLng & lat & lng & H1 & H2 & H3 & H4 & Ha) | H].
      + apply scorePrice_keeps_nan.
        rewrite (scoreLocation_nan L P prefLat prefLng lat lng _ H1 H2 H3 H4 Ha).
        reflexivity.
      + now apply scorePrice_infinite_budget.
    - destruct H as [(prefLat & prefLng & lat & lng & H1 & H2 & _) | [Hb _]].
      + unfold Binary64.locationActive. now rewrite H1, H2.
      + rewrite Hb. apply orb_true_r. }
  rewrite Hs, Hm.
  split; [reflexivity|]. split; [reflexivity|]. split; [reflexivity|].
  split; [apply leb_nan_l|]. split; reflexivity.
Qed.

End DoublePrecision.

Section DoublePrecisionExamples.
Import Floats.
#[local] Open Scope float_scope.
#[local] Set Warnings "-inexact-float".

(** [Math.round] takes a half up, also below zero, and is not
    [floor (x + 0.5)] computed in doubles. *)
Example Math_round_examples :
  Binary64.Math_round 2.5 = 3 /\ Binary64.Math_round (-2.5) = -2 /\
  Binary64.Math_round 0.49999999999999994 = 0 /\
  Binary64.Math_round (-0.2) = -0 /\ Binary64.Math_round nan = nan.
Proof. repeat split; reflexivity. Qed.

(** Rounding to two decimals in doubles can differ by a hundredth from the
    rounding of the exact product: 1.005 * 100 is 100.49999999999999. *)
Example round2_of_a_tie : Binary64.round2 1.005 = 1.
Proof. reflexivity. Qed.

(** One degree of latitude north of (27.7, 85.3) is 111.19 km away, and a
    listing there, 10% under a budget of 5,000,000, scores 27 of 55. *)
Example scoreProperty_double_example :
  Binary64.haversineKm Binary64.Fdlibm.sin Binary64.Fdlibm.cos Binary64.Fdlibm.atan2
    27.7 85.3 28.7 85.3 = 111.19492664455873 /\
  Binary64.scoreProperty Binary64.Fdlibm.sin Binary64.Fdlibm.cos Binary64.Fdlibm.atan2
    (Binary64.listingAt (Some 28.7) (Some 85.3) (Some 4500000))
    (Binary64.preferencesAt (Some 27.7) (Some 85.3) (Some 5000000)) =
  {| Binary64.score := 27; Binary64.maxPossible := 55;
     Binary64.matchPercentage := 49;
     Binary64.explanation :=
       [ {| Binary64.reason := Binary64.LocationScoredByDistance 111.19 10;
            Binary64.points := 0 |};
         {| Binary64.reason := Binary64.PriceScored 5000000;
            Binary64.points := 27 |} ] |}.
Proof. split; vm_compute; reflexivity. Qed.


(** Two points opposite each other on the globe, (8, 85) and (-8, -95):
    with the functions of fdlibm the term [a] is 1.0000000000000002, and
    the location criterion awards NaN. *)
Lemma location_points_not_a_number_witness :
  let L := Binary64.listingAt (Some (-8)) (Some (-95)) None in
  let P := Binary64.preferencesAt (Some 8) (Some 85) None in
  Binary64.haversineTerm Binary64.Fdlibm.sin Binary64.Fdlibm.cos 8 85 (-8) (-95) =
    0x1.0000000000001p+0 /\
  Binary64.haversineKm Binary64.Fdlibm.sin Binary64.Fdlibm.cos Binary64.Fdlibm.atan2
    8 85 (-8) (-95) = nan /\
  forall st,
    Binary64.scoreLocation Binary64.Fdlibm.sin Binary64.Fdlibm.cos Binary64.Fdlibm.atan2
      L P st =
    Binary64.award 25 (Binary64.LocationScoredByDistance nan 10) nan st.
Proof.
  intros L P. split; [vm_compute; reflexivity|].
  destruct (location_points_not_a_number
              Binary64.Fdlibm.sin Binary64.Fdlibm.cos Binary64.Fdlibm.atan2
              L P 8 85 (-8) (-95) eq_refl eq_refl eq_refl eq_refl)
    as (Hd & pts & Hst & -> & _).
  - vm_compute. reflexivity.
  - split; [exact Hd | exact Hst].
Defined.

(** The same two points, and a budget of [Infinity] for a listing priced
    100: the score and the match percentage are NaN in both results. *)
Lemma scoreProperty_not_a_number_witness :
  let run :=
    Binary64.scoreProperty Binary64.Fdlibm.sin Binary64.Fdlibm.cos Binary64.Fdlibm.atan2 in
  let opposite :=
    run (Binary64.listingAt (Some (-8)) (Some (-95)) None)
        (Binary64.preferencesAt (Some 8) (Some 85) None) in
  let unbounded :=
    run (Binary64.listingAt None None (Some 100))
        (Binary64.preferencesAt None None (Some infinity)) in
  (Binary64.score opposite = nan /\
   Binary64.matchPercentage opposite = nan) /\
  (Binary64.score unbounded = nan /\
   Binary64.matchPercentage unbounded = nan).
Proof.
  intros run opposite unbounded. split.
  - destruct (scoreProperty_not_a_number
                Binary64.Fdlibm.sin Binary64.Fdlibm.cos Binary64.Fdlibm.atan2
                (Binary64.listingAt (Some (-8)) (Some (-95)) None)
                (Binary64.preferencesAt (Some 8) (Some 85) None))
      as (Hs & Hm & _).
    + left. exists 8, 85, (-8), (-95).
      repeat (split; [reflexivity|]). vm_compute. reflexivity.
    + split; [exact Hs | exact Hm].
  - destruct (scoreProperty_not_a_number
                Binary64.Fdlibm.sin Binary64.Fdlibm.cos Binary64.Fdlibm.atan2
                (Binary64.listingAt None None (Some 100))
                (Binary64.preferencesAt None None (Some infinity)))
      as (Hs & Hm & _).
    + right. split; [reflexivity|]. now exists 100.
    + split; [exact Hs | exact Hm].
Defined.

End DoublePrecisionExamples.
